(** * event-model: the TypedDict-to-JSON-schema generator

    A shallow embedding of
    [event_model/documents/generate/typeddict_to_schema.py] and of the two
    document declarations [Datum] and [EventPage], with the properties
    of the generator that the specification states. *)

From Stdlib Require Import String Ascii ZArith List Bool Lia.
From Stdlib Require Import Sorting.Sorted Sorting.Permutation.
From stdpp Require Import gmap strings.
Import ListNotations.

Local Open Scope string_scope.
Local Open Scope list_scope.

(** ** Python values that occur in a schema dictionary

    A JSON schema is a Python [dict] whose keys are strings and whose
    values are [None], booleans, integers, floats, strings, lists and
    dicts.  A [dict] keeps insertion order and holds a key once; it is
    an association list here, and [dict_wf] says that keys are not
    repeated.  A float is carried by its literal: the generator never
    computes with one. *)

Unset Elimination Schemes.
Inductive value : Type :=
| VNone
| VBool (b : bool)
| VInt (z : Z)
| VFloat (literal : string)
| VStr (s : string)
| VList (items : list value)
| VDict (entries : list (string * value)).
Set Elimination Schemes.

Abbreviation dict := (list (string * value)).

(** The classes [type(x)] can return on such values. *)
Inductive pytype : Type :=
| NoneType | TBool | TInt | TFloat | TStr | TList | TDict.

Definition pytype_eqb (s t : pytype) : bool :=
  match s, t with
  | NoneType, NoneType | TBool, TBool | TInt, TInt | TFloat, TFloat
  | TStr, TStr | TList, TList | TDict, TDict => true
  | _, _ => false
  end.

Definition type_of (x : value) : pytype :=
  match x with
  | VNone => NoneType
  | VBool _ => TBool
  | VInt _ => TInt
  | VFloat _ => TFloat
  | VStr _ => TStr
  | VList _ => TList
  | VDict _ => TDict
  end.

(** [isinstance(x, t)]: [x]'s class is [t] or a subclass of it; among
    the classes above the only proper subclass is [bool], of [int]. *)
Definition isinstance (x : value) (t : pytype) : bool :=
  pytype_eqb (type_of x) t
  || match type_of x, t with TBool, TInt => true | _, _ => false end.

(** [d[key]] as [d.get(key)]: the value of the first entry for [key]. *)
Fixpoint dict_get (key : string) (d : dict) : option value :=
  match d with
  | [] => None
  | (k, x) :: rest => if String.eqb key k then Some x else dict_get key rest
  end.

(** [d[key] = x]: the entry for [key] keeps its place and gets the new
    value; a new key goes to the end. *)
Fixpoint dict_set (key : string) (x : value) (d : dict) : dict :=
  match d with
  | [] => [(key, x)]
  | (k, y) :: rest =>
      if String.eqb key k then (k, x) :: rest else (k, y) :: dict_set key x rest
  end.

Definition keys (d : dict) : list string := map fst d.

Definition dict_wf (d : dict) : Prop := NoDup (keys d).

(** ** [merge_dicts]

    [merge_dicts(dict1, dict2)] starts from a copy of [dict2] and visits
    the entries of [dict1] in order.  [merge_step] is the body of the
    loop, with the recursive call passed in. *)

Definition merge_step (merge : value -> value -> value) (dict2 : dict)
    (return_dict : dict) (item : string * value) : dict :=
  let (key, x) := item in
  match dict_get key dict2 with
  | None => dict_set key x return_dict
  | Some y =>
      if negb (isinstance x (type_of y)) then dict_set key x return_dict
      else
        match x with
        | VDict _ => dict_set key (merge x y) return_dict
        | VList l1 =>
            match y with
            | VList l2 => dict_set key (VList (l1 ++ l2)) return_dict
            | _ => return_dict
            end
        | _ => return_dict
        end
  end.

(** The recursion is on the nesting of [dict1]; [merge_values] is
    [merge_dicts] on two values that are both dicts. *)
Fixpoint merge_values (x y : value) {struct x} : value :=
  match x, y with
  | VDict dict1, VDict dict2 =>
      VDict (fold_left (merge_step merge_values dict2) dict1 dict2)
  | _, _ => x
  end.

Definition merge_dicts (dict1 dict2 : dict) : dict :=
  fold_left (merge_step merge_values dict2) dict1 dict2.

(** The example of the docstring of [merge_dicts]. *)
Definition docstring_dict1 : dict :=
  [("x1", VDict [("y1", VInt 0);
                 ("y3", VDict [("z1", VList [VInt 1; VInt 2]); ("z2", VInt 1)])]);
   ("x2", VInt 0);
   ("x3", VInt 1)].

Definition docstring_dict2 : dict :=
  [("x1", VDict [("y2", VInt 0);
                 ("y3", VDict [("z1", VList [VInt 3; VInt 4]); ("z3", VInt 5)])]);
   ("x3", VInt 0)].

(** The two dictionaries of the specification's merge example: the
    hand-authored fragment and the generated schema. *)
Definition fragment_a_enum : dict :=
  [("properties", VDict [("a", VDict [("enum", VList [VInt 1; VInt 2])])])].

Definition generated_a_b : dict :=
  [("properties",
    VDict [("a", VDict [("type", VStr "integer")]);
           ("b", VDict [("type", VStr "string")])])].


(** ** Exceptions

    A call either returns or raises; what is raised is one of the
    exceptions the generator can meet. *)

Inductive exn : Type :=
| AssertionError (message : string)
| KeyError (key : string)
| IndexError
| AttributeError (message : string)
| TypeError (message : string)
| FileNotFoundError (directory : string)
| SystemExit (status : Z).

Inductive result (A : Type) : Type :=
| Ok (a : A)
| Raise (e : exn).
Arguments Ok {A} a.
Arguments Raise {A} e.

#[global] Instance result_ret : MRet result := @Ok.
#[global] Instance result_bind : MBind result :=
  fun A B f m => match m with Ok a => f a | Raise e => Raise e end.
#[global] Instance result_fmap : FMap result :=
  fun A B f m => match m with Ok a => Ok (f a) | Raise e => Raise e end.

(** [for key in schema: schema[key] = f(key, schema[key])]: every value
    is replaced in its place, in order, and the first exception ends the
    loop. *)
Fixpoint update_values (f : string -> value -> result value) (schema : dict)
    : result dict :=
  match schema with
  | [] => Ok []
  | (key, x) :: rest =>
      x' ← f key x;
      rest' ← update_values f rest;
      Ok ((key, x') :: rest')
  end.

(** ** [strip_newline_literal] *)

(** [s.replace("\n", " ")] *)
Fixpoint replace_newline (s : string) : string :=
  match s with
  | EmptyString => EmptyString
  | String c rest =>
      String (if Ascii.eqb c "010"%char then " "%char else c) (replace_newline rest)
  end.

(** The body of the loop of [strip_newline_literal], with the recursive
    call passed in.  A value under ["description"] that is neither a dict
    nor a string has no [replace]. *)
Definition strip_step (strip : value -> result value) (key : string) (x : value)
    : result value :=
  match x with
  | VDict _ => strip x
  | _ =>
      if String.eqb key "description" then
        match x with
        | VStr s => Ok (VStr (replace_newline s))
        | _ => Raise (AttributeError "object has no attribute 'replace'")
        end
      else Ok x
  end.

Fixpoint strip_newline_literal_value (x : value) : result value :=
  match x with
  | VDict schema =>
      VDict <$> update_values (strip_step strip_newline_literal_value) schema
  | _ => Ok x
  end.

Definition strip_newline_literal (schema : dict) : result dict :=
  update_values (strip_step strip_newline_literal_value) schema.

(** ** [sort_jsonschema] *)

(** [sorted(list(d.items()), key=lambda x: x[0])]: a stable sort on the
    key, strings compared as Python compares them, character by
    character. *)
Fixpoint insert_item (item : string * value) (sorted : dict) : dict :=
  match sorted with
  | [] => [item]
  | y :: rest =>
      if String.leb (fst item) (fst y) then item :: y :: rest
      else y :: insert_item item rest
  end.

Fixpoint sorted_items (items : dict) : dict :=
  match items with
  | [] => []
  | item :: rest => insert_item item (sorted_items rest)
  end.

(** The body of the loop of [sort_jsonschema], with the recursive call
    passed in: the value under ["properties"] is replaced by its sorted
    items and is not descended into; any other dict is descended into. *)
Definition sort_step (sort : value -> result value) (key : string) (x : value)
    : result value :=
  if String.eqb key "properties" then
    match x with
    | VDict d => Ok (VDict (sorted_items d))
    | _ => Raise (AttributeError "object has no attribute 'items'")
    end
  else
    match x with
    | VDict _ => sort x
    | _ => Ok x
    end.

Fixpoint sort_jsonschema_value (x : value) : result value :=
  match x with
  | VDict schema => VDict <$> update_values (sort_step sort_jsonschema_value) schema
  | _ => Ok x
  end.

Definition sort_jsonschema (schema : dict) : result dict :=
  update_values (sort_step sort_jsonschema_value) schema.

(** The value a chain of keys leads to, through nested dicts. *)
Fixpoint value_at (path : list string) (x : value) : option value :=
  match path with
  | [] => Some x
  | key :: rest =>
      match x with
      | VDict d =>
          match dict_get key d with
          | Some y => value_at rest y
          | None => None
          end
      | _ => None
      end
  end.

(** Keys in ascending order. *)
Definition keys_sorted (d : dict) : Prop :=
  Sorted (fun k1 k2 => String.leb k1 k2 = true) (keys d).

(** A schema whose [properties] hold a property with [properties] of
    its own, and a mapping that is not under a [properties] key. *)
Definition nested_properties_schema : dict :=
  [("title", VStr "t");
   ("properties",
    VDict [("z", VDict [("type", VStr "string")]);
           ("a", VDict [("type", VStr "object");
                        ("properties",
                         VDict [("y", VDict [("type", VStr "integer")]);
                                ("b", VDict [("type", VStr "integer")])])])]);
   ("definitions",
    VDict [("Zed", VDict [("title", VStr "Zed");
                          ("properties", VDict [("q", VInt 1); ("p", VInt 2)])]);
           ("Abe", VDict [])])].

(** ** Type annotations

    What [typed_dict.__annotations__] holds and what the generator makes
    of it.  [get_origin] and [get_args] read an annotation as an origin
    applied to arguments; the arguments of [Annotated[X, m1, ...]] are
    the type [X] followed by the metadata objects, so types and the
    objects found among them ([AsRef(...)], [Field(...)]) are one
    datatype.  A subscripted generic is kept under the name it is written
    with: [typing.List[int]] is [Generic "typing.List" [Cls "int"]] and
    [list[int]] is [Generic "list" [Cls "int"]], two objects that are
    not equal; [get_origin] gives the class [list] for both. *)

(** [Field(...)]: the generator reads and writes [regex]; the other
    keyword arguments travel with the object. *)
Record field_info : Type := FieldInfoOf {
  description : option string;
  regex : option string;
  other_kwargs : list (string * string)
}.

(** [Field()] *)
Definition Field : field_info :=
  {| description := None; regex := None; other_kwargs := [] |}.

(** The default value of a model field: [...] (no default), [None], or
    some other object, known by its [repr]. *)
Inductive default_value : Type :=
| Ellipsis
| DefaultNone
| DefaultObject (repr : string).

Unset Elimination Schemes.
Inductive ann : Type :=
| Cls (name : string)
| Generic (origin : string) (args : list ann)
| NotRequired (arg : ann)
| Annotated (base : ann) (metadata : list ann)
| AsRef (ref_name : string)
| FieldInfo (info : field_info)
| TypedDict (name : string) (doc : option string)
            (attributes : list (string * string))
            (annotations : list (string * ann))
| BaseModel (name : string) (doc : option string)
            (fields : list (string * (ann * default_value)))
| PyObject (repr : string).
Set Elimination Schemes.

(** A [TypedDict] class (a [_TypedDictMeta]) as the generator is given one at top level:
    [__name__], [__doc__], the attributes [getattr] finds on the class
    (name and [repr]), [__annotations__], and the entry of
    [extra_schema] for the class, if there is one.  A declaration holds a
    field name once. *)
Record TypedDictMeta : Type := TypedDictOf {
  td_name : string;
  td_doc : option string;
  td_attributes : list (string * string);
  td_annotations : list (string * ann);
  td_extra_schema : option dict
}.

(** *** Equality of annotations, as [==] decides it *)

Definition option_eqb {A} (eqb : A -> A -> bool) (x y : option A) : bool :=
  match x, y with
  | Some a, Some b => eqb a b
  | None, None => true
  | _, _ => false
  end.

Fixpoint list_eqb {A} (eqb : A -> A -> bool) (l1 l2 : list A) : bool :=
  match l1, l2 with
  | [], [] => true
  | x :: l1', y :: l2' => eqb x y && list_eqb eqb l1' l2'
  | _, _ => false
  end.

Definition pair_eqb {A B} (eqa : A -> A -> bool) (eqb : B -> B -> bool)
    (p q : A * B) : bool :=
  eqa (fst p) (fst q) && eqb (snd p) (snd q).

Definition field_info_eqb (f g : field_info) : bool :=
  option_eqb String.eqb (description f) (description g)
  && option_eqb String.eqb (regex f) (regex g)
  && list_eqb (pair_eqb String.eqb String.eqb) (other_kwargs f) (other_kwargs g).

Definition default_value_eqb (d e : default_value) : bool :=
  match d, e with
  | Ellipsis, Ellipsis => true
  | DefaultNone, DefaultNone => true
  | DefaultObject r, DefaultObject s => String.eqb r s
  | _, _ => false
  end.

(** Two unions are equal when they have the same members, in whatever
    order ([set(self.__args__) == set(other.__args__)]); the arguments
    of any other generic are compared one by one, in order.  Classes are
    compared by what they are made of. *)
Fixpoint ann_eqb (a b : ann) {struct a} : bool :=
  match a, b with
  | Cls n, Cls m => String.eqb n m
  | Generic o args, Generic o' args' =>
      String.eqb o o'
      && (if String.eqb o "Union" then
            forallb (fun x => existsb (ann_eqb x) args') args
            && forallb (fun y => existsb (fun x => ann_eqb x y) args) args'
          else list_eqb ann_eqb args args')
  | NotRequired x, NotRequired y => ann_eqb x y
  | Annotated x ms, Annotated y ms' => ann_eqb x y && list_eqb ann_eqb ms ms'
  | AsRef n, AsRef m => String.eqb n m
  | FieldInfo f, FieldInfo g => field_info_eqb f g
  | TypedDict n d at_ fs, TypedDict n' d' at' fs' =>
      String.eqb n n' && option_eqb String.eqb d d'
      && list_eqb (pair_eqb String.eqb String.eqb) at_ at'
      && list_eqb (pair_eqb String.eqb ann_eqb) fs fs'
  | BaseModel n d fs, BaseModel n' d' fs' =>
      String.eqb n n' && option_eqb String.eqb d d'
      && list_eqb (pair_eqb String.eqb (pair_eqb ann_eqb default_value_eqb)) fs fs'
  | PyObject r, PyObject s => String.eqb r s
  | _, _ => false
  end.

(** *** [get_origin], [get_args] and subscription *)

Inductive origin : Type :=
| OGeneric (name : string)
| ONotRequired
| OAnnotated.

(** The aliases of [typing] for the classes of [builtins],
    [collections] and [collections.abc], each with the class it stands
    for. *)
Definition typing_aliases : list (string * string) :=
  [("typing.List", "list"); ("typing.Dict", "dict"); ("typing.Set", "set");
   ("typing.FrozenSet", "frozenset"); ("typing.Tuple", "tuple");
   ("typing.Type", "type");
   ("typing.DefaultDict", "collections.defaultdict");
   ("typing.OrderedDict", "collections.OrderedDict");
   ("typing.Counter", "collections.Counter");
   ("typing.ChainMap", "collections.ChainMap");
   ("typing.Deque", "collections.deque");
   ("typing.Sequence", "collections.abc.Sequence");
   ("typing.MutableSequence", "collections.abc.MutableSequence");
   ("typing.Mapping", "collections.abc.Mapping");
   ("typing.MutableMapping", "collections.abc.MutableMapping");
   ("typing.AbstractSet", "collections.abc.Set");
   ("typing.MutableSet", "collections.abc.MutableSet");
   ("typing.Iterable", "collections.abc.Iterable");
   ("typing.Iterator", "collections.abc.Iterator");
   ("typing.Collection", "collections.abc.Collection")].

(** The class a generic is an instance of at run time: the class an
    alias of [typing] stands for; [Union], and a class subscripted under
    its own name, stand for themselves. *)
Definition runtime_origin (o : string) : string :=
  match find (fun alias => String.eqb o (fst alias)) typing_aliases with
  | Some alias => snd alias
  | None => o
  end.

Definition get_origin (a : ann) : option origin :=
  match a with
  | Generic o _ => Some (OGeneric (runtime_origin o))
  | NotRequired _ => Some ONotRequired
  | Annotated _ _ => Some OAnnotated
  | _ => None
  end.

Definition get_args (a : ann) : list ann :=
  match a with
  | Generic _ args => args
  | NotRequired arg => [arg]
  | Annotated base metadata => base :: metadata
  | _ => []
  end.

Definition is_union (a : ann) : bool :=
  match a with Generic o _ => String.eqb o "Union" | _ => false end.

(** Keeps the first of equal items. *)
Fixpoint remove_dups (l : list ann) : list ann :=
  match l with
  | [] => []
  | x :: rest => x :: List.filter (fun y => negb (ann_eqb x y)) (remove_dups rest)
  end.

(** [Union[args]]: unions among the arguments are flattened, equal
    arguments are kept once, and a union of one type is that type. *)
Definition Union (args : list ann) : ann :=
  let flat := flat_map (fun a => if is_union a then get_args a else [a]) args in
  match remove_dups flat with
  | [x] => x
  | params => Generic "Union" params
  end.

(** [Optional[X]] is [Union[X, None]]. *)
Definition Optional (x : ann) : ann := Union [x; Cls "NoneType"].

(** [Annotated[X, m1, ...]]: an [Annotated] type in the place of [X]
    takes the new metadata after its own. *)
Definition Annotated_ (x : ann) (metadata : list ann) : ann :=
  match x with
  | Annotated base ms => Annotated base (ms ++ metadata)
  | _ => Annotated x metadata
  end.

(** [origin[tuple(args)]] of [change_sub_typed_dicts_to_basemodels]:
    the origin is the class [get_origin] has returned, so that
    [typing.Dict[str, Any]] is rebuilt as [dict[str, Any]].
    [NotRequired] takes one type and refuses a tuple; [Annotated] needs a
    type and at least one metadata object. *)
Definition subscript (o : origin) (args : list ann) : result ann :=
  match o with
  | OGeneric name => Ok (if String.eqb name "Union" then Union args else Generic name args)
  | ONotRequired => Raise (TypeError "NotRequired accepts only a single type")
  | OAnnotated =>
      match args with
      | x :: m :: ms => Ok (Annotated_ x (m :: ms))
      | _ => Raise (TypeError "Annotated should be used with at least two arguments")
      end
  end.

(** ** The generator's state

    [new_basemodel_classes], the dict of the models made so far, is
    passed to every function and updated in place; a function of the
    generator is a function of that dict which returns or raises, and
    leaves the dict as it then is. *)

Definition M (A : Type) : Type :=
  gmap string ann -> result A * gmap string ann.

Definition ret {A} (a : A) : M A := fun classes => (Ok a, classes).

Definition raise {A} (e : exn) : M A := fun classes => (Raise e, classes).

Definition bind {A B} (m : M A) (f : A -> M B) : M B :=
  fun classes =>
    match m classes with
    | (Ok a, classes') => f a classes'
    | (Raise e, classes') => (Raise e, classes')
    end.

Notation "x <- m ;; k" := (bind m (fun x => k))
  (at level 100, m at next level, right associativity).

Definition lift {A} (r : result A) : M A := fun classes => (r, classes).

(** [for x in l: ...], collecting the results. *)
Fixpoint for_each {A B} (f : A -> M B) (l : list A) : M (list B) :=
  match l with
  | [] => ret []
  | x :: rest => y <- f x ;; ys <- for_each f rest ;; ret (y :: ys)
  end.

(** ** Reading an annotation *)

(** Modelled from the spec: [ALLOWED_ANNOTATION_ELEMENTS] is imported
    from [type_wrapper], which is not among the sources; the
    specification names the metadata a field annotation may carry, a
    reference tag and a metadata object, and those are the two classes
    [get_annotation_contents] looks for. *)
Inductive metadata_class : Type := AsRefClass | FieldInfoClass.

Definition ALLOWED_ANNOTATION_ELEMENTS : list metadata_class :=
  [AsRefClass; FieldInfoClass].

Definition isinstance_of (x : ann) (c : metadata_class) : bool :=
  match x, c with
  | AsRef _, AsRefClass => true
  | FieldInfo _, FieldInfoClass => true
  | _, _ => false
  end.

Definition field_is_annotated (field : ann) : bool :=
  match get_origin field with Some OAnnotated => true | _ => false end.

Definition field_is_not_required (field_type : ann)
    (remove_origin_if_NotRequired : bool) : result (ann * bool) :=
  match get_origin field_type with
  | Some ONotRequired =>
      if remove_origin_if_NotRequired then
        match get_args field_type with
        | [arg] => Ok (arg, true)
        | _ => Raise (AssertionError "len(args) == 1")
        end
      else Ok (field_type, true)
  | _ => Ok (field_type, false)
  end.

(** The loop of [get_annotation_contents]: the last [AsRef] and the last
    [FieldInfo] among the arguments are kept. *)
Definition get_annotation_contents (field_type : ann)
    : option string * field_info :=
  fold_left
    (fun found arg =>
       match arg with
       | AsRef ref_name => (Some ref_name, snd found)
       | FieldInfo info => (fst found, info)
       | _ => found
       end)
    (get_args field_type) (None, Field).

(** [x] is an instance of none of [ALLOWED_ANNOTATION_ELEMENTS]. *)
Definition is_field_type (x : ann) : bool :=
  negb (existsb (isinstance_of x) ALLOWED_ANNOTATION_ELEMENTS).

(** [cls.__annotations__[key]] *)
Definition annotation_of (cls : ann) (key : string) : result ann :=
  match cls with
  | BaseModel _ _ fields =>
      match find (fun f => String.eqb key (fst f)) fields with
      | Some f => Ok (fst (snd f))
      | None => Raise (KeyError key)
      end
  | TypedDict _ _ _ annotations =>
      match find (fun f => String.eqb key (fst f)) annotations with
      | Some f => Ok (snd f)
      | None => Raise (KeyError key)
      end
  | _ => Raise (AttributeError "__annotations__")
  end.

(** [create_model(name, __config__=Config, **fields)]: the model class,
    with the field definitions as its annotations and defaults; its
    docstring is set afterwards. *)
Definition create_model (name : string)
    (fields : list (string * (ann * default_value))) : ann :=
  BaseModel name None fields.

(** [if field_info.regex:] a regex that is set and not empty *)
Definition truthy (s : option string) : bool :=
  match s with
  | Some EmptyString | None => false
  | Some _ => true
  end.

Definition with_regex (info : field_info) (r : option string) : field_info :=
  {| description := description info; regex := r; other_kwargs := other_kwargs info |}.

(** ** [parse_AsRef] *)
Definition parse_AsRef (field_type : ann) (info : field_info) (ref_name : string)
    : M ann :=
  let ref_field_info := if truthy (regex info) then with_regex Field (regex info) else Field in
  let ref_field_type := Annotated_ field_type [FieldInfo ref_field_info] in
  fun new_basemodel_classes =>
    match new_basemodel_classes !! ref_name with
    | None =>
        let model := create_model ref_name [("__root__", (ref_field_type, DefaultNone))] in
        (Ok model, <[ref_name := model]> new_basemodel_classes)
    | Some cached =>
        match annotation_of cached "__root__" with
        | Raise e => (Raise e, new_basemodel_classes)
        | Ok generated_basemodel_type =>
            match get_args ref_field_type, get_args generated_basemodel_type with
            | x :: _, y :: _ =>
                if ann_eqb x y then (Ok cached, new_basemodel_classes)
                else (Raise (AssertionError
                               ("Fields with type AsRef(" ++ ref_name ++ ") have differing types")),
                      new_basemodel_classes)
            | _, _ => (Raise IndexError, new_basemodel_classes)
            end
        end
    end.

(** ** The recursion through an annotation

    [change_sub_typed_dicts_to_basemodels], [get_field_type],
    [field_parser] and the part of [parse_typeddict_to_schema] that
    returns the model call one another, always on an annotation inside
    the one at hand or on the same one; [visit] computes the three calls
    on an annotation together, from the calls on the annotations directly
    inside it.  The equations of the three functions are proved below
    ([get_field_type_eq], [field_parser_eq],
    [change_sub_typed_dicts_to_basemodels_eq]). *)

Record calls : Type := Calls {
  change_of : M ann;               (* change_sub_typed_dicts_to_basemodels(a, classes) *)
  field_type_of : string -> M ann; (* get_field_type(field_name, a, classes) *)
  parser_of : string -> M ann      (* field_parser(field_name, a, classes) *)
}.

(** [get_field_type], given the arguments of the annotation, each with
    the call that changes it, and that call on the annotation itself. *)
Definition pick_field_type (field_name : string) (whole : M ann)
    (args : list (ann * M ann)) : M ann :=
  match args with
  | [] => whole
  | _ =>
      match List.filter (fun x => is_field_type (fst x)) args with
      | [x] => snd x
      | _ => raise (AssertionError ("Field " ++ field_name ++ " has multiple types"))
      end
  end.

(** [field_parser] after [field_is_not_required], given the call of
    [get_field_type]. *)
Definition parse_field (field_type : ann) (is_not_required : bool)
    (get_type : M ann) : M ann :=
  let (as_ref, info) := get_annotation_contents field_type in
  t <- get_type ;;
  p <- match as_ref with
       | Some ref_name =>
           model <- parse_AsRef t info ref_name ;;
           ret (model, with_regex info None)
       | None => ret (t, info)
       end ;;
  let t := if is_not_required then Optional (fst p) else fst p in
  ret (Annotated_ t [FieldInfo (snd p)]).

(** [getattr(typed_dict, name, ...)] *)
Definition getattr (attributes : list (string * string)) (name : string)
    : default_value :=
  match find (fun a => String.eqb name (fst a)) attributes with
  | Some a => DefaultObject (snd a)
  | None => Ellipsis
  end.

(** [parse_typeddict_to_schema] up to [return model], given the
    annotations [format_all_annotations] has produced. *)
Definition basemodel_of (name : string) (doc : option string)
    (attributes : list (string * string)) (new_annotations : list (string * ann))
    : ann :=
  match create_model name
          (map (fun f => (fst f, (snd f, getattr attributes (fst f)))) new_annotations) with
  | BaseModel n _ fields => BaseModel n doc fields
  | model => model
  end.

Fixpoint visit (a : ann) {struct a} : calls :=
  let change : M ann :=
    match a with
    | TypedDict name doc attributes annotations =>
        fun new_basemodel_classes =>
          match new_basemodel_classes !! name with
          | None =>
              (new_annotations <-
                 for_each (fun f => t <- parser_of (visit (snd f)) (fst f) ;; ret (fst f, t))
                          annotations ;;
               let model := basemodel_of name doc attributes new_annotations in
               fun classes => (Ok model, <[name := model]> classes))
                new_basemodel_classes
          | Some model => (Ok model, new_basemodel_classes)
          end
    | Generic o (x :: rest) =>
        args <- for_each (fun y => change_of (visit y)) (x :: rest) ;;
        lift (subscript (OGeneric (runtime_origin o)) args)
    | NotRequired arg =>
        args <- for_each (fun y => change_of (visit y)) [arg] ;;
        lift (subscript ONotRequired args)
    | Annotated base metadata =>
        args <- for_each (fun y => change_of (visit y)) (base :: metadata) ;;
        lift (subscript OAnnotated args)
    | _ => ret a
    end in
  let get_type (field_name : string) : M ann :=
    pick_field_type field_name change
      match a with
      | Generic _ args => map (fun y => (y, change_of (visit y))) args
      | NotRequired arg => [(arg, change_of (visit arg))]
      | Annotated base metadata =>
          (base, change_of (visit base))
          :: map (fun y => (y, change_of (visit y))) metadata
      | _ => []
      end in
  {| change_of := change;
     field_type_of := get_type;
     parser_of := fun field_name =>
       match a with
       | NotRequired arg => parse_field arg true (field_type_of (visit arg) field_name)
       | _ => parse_field a false (get_type field_name)
       end |}.

Definition change_sub_typed_dicts_to_basemodels (field_type : ann) : M ann :=
  change_of (visit field_type).

Definition get_field_type (field_name : string) (field_type : ann) : M ann :=
  field_type_of (visit field_type) field_name.

Definition field_parser (field_name : string) (field_type : ann) : M ann :=
  parser_of (visit field_type) field_name.

(** ** [format_all_annotations]

    The new annotations, one per field and in the order of the fields;
    the caller stores them in the declaration. *)
Definition format_all_annotations (annotations : list (string * ann))
    : M (list (string * ann)) :=
  for_each (fun f => t <- field_parser (fst f) (snd f) ;; ret (fst f, t)) annotations.

(** ** [Config.alias_generator]

    [re.sub(r"(?<!^)(?=[A-Z])", "_", s).lower()]: an underscore before
    every capital letter A to Z that is not the first character, then
    lower case.  Names are ASCII identifiers, as those of the documents
    are; [lower] is [str.lower()] on ASCII, where it changes the letters
    A to Z only, and leaves any other character as it is. *)

(** [[A-Z]] *)
Definition is_upper (c : ascii) : bool :=
  (65 <=? nat_of_ascii c)%nat && (nat_of_ascii c <=? 90)%nat.

Definition to_lower (c : ascii) : ascii :=
  if is_upper c then ascii_of_nat (nat_of_ascii c + 32) else c.

Fixpoint lower (s : string) : string :=
  match s with
  | EmptyString => EmptyString
  | String c rest => String (to_lower c) (lower rest)
  end.

Fixpoint underscore_capitals (s : string) : string :=
  match s with
  | EmptyString => EmptyString
  | String c rest =>
      if is_upper c then String "_"%char (String c (underscore_capitals rest))
      else String c (underscore_capitals rest)
  end.

Definition alias_generator (string_to_be_aliased : string) : string :=
  lower
    match string_to_be_aliased with
    | EmptyString => EmptyString
    | String c rest => String c (underscore_capitals rest)
    end.

(** ** What [sort_jsonschema] does to the hand-authored fragment

    [merge_dicts] copies [dict2] and, level by level, the dicts it
    merges, but it stores the values of [dict1] themselves: where the
    fragment's value goes into the result (the key is new, or the types
    do not match) the result holds the very object of [extra_schema].
    [sort_jsonschema] then works in place on the result, so it also
    changes those objects.  The value the result holds under
    ["properties"] is replaced there by a new [OrderedDict] and stays as
    it is; any other dict it holds from the fragment is sorted in
    place.  [fragment_after_sort] is the fragment after
    [sort_jsonschema(merge_dicts(fragment, model_schema))] has
    returned. *)

Definition sorted_in_place (key : string) (x : value) : value :=
  if String.eqb key "properties" then x
  else
    match x with
    | VDict d => match sort_jsonschema d with Ok d' => VDict d' | Raise _ => x end
    | _ => x
    end.

Definition fragment_step (after : value -> value -> value) (dict2 : dict)
    (item : string * value) : string * value :=
  let (key, x) := item in
  match dict_get key dict2 with
  | None => (key, sorted_in_place key x)
  | Some y =>
      if negb (isinstance x (type_of y)) then (key, sorted_in_place key x)
      else
        match x with
        | VDict _ => if String.eqb key "properties" then (key, x) else (key, after x y)
        | _ => (key, x)
        end
  end.

Fixpoint fragment_after_sort_value (x y : value) {struct x} : value :=
  match x, y with
  | VDict dict1, VDict dict2 =>
      VDict (map (fragment_step fragment_after_sort_value dict2) dict1)
  | _, _ => x
  end.

Definition fragment_after_sort (dict1 dict2 : dict) : dict :=
  map (fragment_step fragment_after_sort_value dict2) dict1.

(** ** [parse_typeddict_to_schema] *)

(** [out_dir]: [None], a [Path], or, from the command line, a [str].
    What [open()] does with a [Path] depends on the file system: a path
    is [PathDir] when it is a directory in which the file can be opened
    for writing, and [MissingDir] when there is no such directory. *)
Inductive out_dir_arg : Type :=
| NoDir
| PathDir (path : string)
| StrDir (s : string)
| MissingDir (path : string).

(** What a call returns: the model, or the schema dictionary. *)
Inductive generated : Type :=
| Model (model : ann)
| Schema (model_schema : dict).

(** The file [out_dir / f'{title}.json'] with [json.dump(model_schema, f,
    indent=3)] in it. *)
Record file : Type := File {
  directory : string;
  title : value;
  contents : dict
}.

(** A call of [parse_typeddict_to_schema] and what it leaves behind: the
    declaration it was given, whose annotations and whose entry in
    [extra_schema] it may have changed, the dict of models, and the file
    it has written. *)
Record outcome : Type := Outcome {
  returned : result generated;
  typed_dict_after : TypedDictMeta;
  classes_after : gmap string ann;
  written : option file
}.

Definition with_annotations (td : TypedDictMeta) (annotations : list (string * ann))
    : TypedDictMeta :=
  {| td_name := td_name td; td_doc := td_doc td; td_attributes := td_attributes td;
     td_annotations := annotations; td_extra_schema := td_extra_schema td |}.

Definition with_extra_schema (td : TypedDictMeta) (extra : option dict)
    : TypedDictMeta :=
  {| td_name := td_name td; td_doc := td_doc td; td_attributes := td_attributes td;
     td_annotations := td_annotations td; td_extra_schema := extra |}.

(** [model.__name__ = ...] *)
Definition with_name (model : ann) (name : string) : ann :=
  match model with
  | BaseModel _ doc fields => BaseModel name doc fields
  | _ => model
  end.

Section Pydantic.

(** [model.schema(by_alias=True)]: pydantic renders the model it is
    given; the generator takes the dictionary as it comes. *)
Variable schema : ann -> dict.

(** The steps after [model_schema = model.schema(by_alias=True)]. *)
Definition render (typed_dict : TypedDictMeta) (model : ann) (out_dir : out_dir_arg)
    (sort : bool) (classes : gmap string ann) : outcome :=
  let fail e td :=
    {| returned := Raise e; typed_dict_after := td;
       classes_after := classes; written := None |} in
  match strip_newline_literal (schema model) with
  | Raise e => fail e typed_dict
  | Ok stripped =>
      let merged :=
        match td_extra_schema typed_dict with
        | Some fragment => merge_dicts fragment stripped
        | None => stripped
        end in
      match (if sort then sort_jsonschema merged else Ok merged) with
      | Raise e => fail e typed_dict
      | Ok model_schema =>
          let td :=
            if sort then
              with_extra_schema typed_dict
                (fragment ← td_extra_schema typed_dict;
                 Some (fragment_after_sort fragment stripped))
            else typed_dict in
          let done file :=
            {| returned := Ok (Schema model_schema); typed_dict_after := td;
               classes_after := classes; written := file |} in
          match out_dir with
          | NoDir => done None
          | StrDir EmptyString => done None
          | StrDir _ =>
              match dict_get "title" model_schema with
              | None => fail (KeyError "title") td
              | Some _ => fail (TypeError "unsupported operand type(s) for /: 'str' and 'str'") td
              end
          | PathDir dir =>
              match dict_get "title" model_schema with
              | Some t =>
                  done (Some {| directory := dir; title := t;
                                contents := model_schema |})
              | None => fail (KeyError "title") td
              end
          | MissingDir dir =>
              match dict_get "title" model_schema with
              | Some _ => fail (FileNotFoundError dir) td
              | None => fail (KeyError "title") td
              end
          end
      end
  end.

Definition parse_typeddict_to_schema (typed_dict : TypedDictMeta)
    (out_dir : out_dir_arg) (return_basemodel : bool)
    (new_basemodel_classes : gmap string ann) (sort : bool) : outcome :=
  match format_all_annotations (td_annotations typed_dict) new_basemodel_classes with
  | (Raise e, classes) =>
      {| returned := Raise e; typed_dict_after := typed_dict;
         classes_after := classes; written := None |}
  | (Ok new_annotations, classes) =>
      let typed_dict := with_annotations typed_dict new_annotations in
      let model :=
        basemodel_of (td_name typed_dict) (td_doc typed_dict)
          (td_attributes typed_dict) (td_annotations typed_dict) in
      if return_basemodel then
        {| returned := Ok (Model model); typed_dict_after := typed_dict;
           classes_after := classes; written := None |}
      else
        render typed_dict
          (with_name model (lower (alias_generator (td_name typed_dict))))
          out_dir sort classes
  end.

(** ** [generate_all_schema]

    The calls give no [new_basemodel_classes]: each uses the default
    value of the parameter, the one dict made when the function was
    defined.  The state of a process is that dict, the declarations
    and the files written. *)
Record process : Type := Process {
  default_classes : gmap string ann;
  documents : list TypedDictMeta;
  files : list file
}.

(** The loop over the documents; the first exception ends it. *)
Fixpoint generate_each (todo : list TypedDictMeta) (out_dir : out_dir_arg)
    (classes : gmap string ann) (done : list TypedDictMeta)
    (files : list file) : result unit * process :=
  match todo with
  | [] => (Ok tt, {| default_classes := classes; documents := done; files := files |})
  | typed_dict :: rest =>
      let o := parse_typeddict_to_schema typed_dict out_dir false classes true in
      let files' := match written o with Some f => files ++ [f] | None => files end in
      match returned o with
      | Raise e =>
          (Raise e, {| default_classes := classes_after o;
                       documents := done ++ typed_dict_after o :: rest;
                       files := files' |})
      | Ok _ =>
          generate_each rest out_dir (classes_after o)
            (done ++ [typed_dict_after o]) files'
      end
  end.

Definition generate_all_schema (schema_out_dir : out_dir_arg) (p : process)
    : result unit * process :=
  generate_each (documents p) schema_out_dir (default_classes p) [] (files p).

End Pydantic.

(** ** The command line

    [parser.add_argument("--schema_out_directory", default=SCHEMA_OUT_DIR,
    nargs="?")] on an [ArgumentParser()]: a name that starts with ["-"]
    declares an option, so the parser has that option and [-h]/[--help],
    and no positional argument.  [parse_args] reads the arguments as
    [argparse] documents it: an argument is an option string when it
    starts with ["-"] and is an option's name, [name=value], or a prefix
    of a long name; ["-"], a negative number and an argument with a space
    in it are plain arguments; any other argument that starts with ["-"]
    is an unknown option.  With [nargs="?"] the option takes the next
    argument when that is a plain one, and [const], which is [None],
    otherwise: it takes no value across ["--"].  The help ends the
    program with status 0 where it is met; a plain argument or an unknown
    option ends it with status 2 once all arguments are read.  After
    ["--"] every argument is a plain one, and ["--"] itself is handed to
    the positional arguments: the parser has none, so ["--"] is left
    over with whatever follows it, and the program ends with status 2.  (Several [-h] in one argument are not
    modelled: [-h] with anything attached is an error here.) *)

(** [Path("event_model") / SCHEMA_PATH], relative to the directory the
    program is run from; the directory is taken to be there. *)
Definition SCHEMA_OUT_DIR : out_dir_arg := PathDir "event_model/schemas".

Definition starts_with_dash (arg : string) : bool :=
  match arg with
  | String "-"%char _ => true
  | _ => false
  end.

Fixpoint contains (c : ascii) (s : string) : bool :=
  match s with
  | EmptyString => false
  | String d rest => Ascii.eqb c d || contains c rest
  end.

(** The value of [name=value], when [arg] has that form. *)
Fixpoint after_equals (arg : string) : option string :=
  match arg with
  | EmptyString => None
  | String "="%char rest => Some rest
  | String _ rest => after_equals rest
  end.

Fixpoint before_equals (arg : string) : string :=
  match arg with
  | EmptyString => EmptyString
  | String "="%char _ => EmptyString
  | String c rest => String c (before_equals rest)
  end.

Definition is_digit (c : ascii) : bool :=
  (48 <=? nat_of_ascii c)%nat && (nat_of_ascii c <=? 57)%nat.

Fixpoint all_digits (s : string) : bool :=
  match s with
  | EmptyString => true
  | String c rest => is_digit c && all_digits rest
  end.

(** Digits, then a point and digits: what is left of [-\d*\.\d+]
    after the sign. *)
Fixpoint digits_point_digits (s : string) : bool :=
  match s with
  | EmptyString => false
  | String "."%char rest => negb (String.eqb rest "") && all_digits rest
  | String c rest => is_digit c && digits_point_digits rest
  end.

(** [^-\d+$|^-\d*\.\d+$] *)
Definition negative_number (arg : string) : bool :=
  match arg with
  | String "-"%char rest =>
      (negb (String.eqb rest "") && all_digits rest) || digits_point_digits rest
  | _ => false
  end.

(** A long option is named in full or by a prefix of its name that is
    longer than ["--"]. *)
Definition names_option (flag option : string) : bool :=
  (3 <=? String.length flag)%nat && String.prefix flag option.

Inductive argument : Type :=
| Plain
| Help (explicit_arg : option string)
| OutDirectory (explicit_arg : option string)
| UnknownOption.

Definition classify (arg : string) : argument :=
  if negb (starts_with_dash arg) then Plain
  else if String.eqb arg "-h" || String.eqb arg "--help" then Help None
  else if String.eqb arg "--schema_out_directory" then OutDirectory None
  else if String.eqb arg "-" then Plain
  else
    let flag := before_equals arg in
    if names_option flag "--help" then Help (after_equals arg)
    else if names_option flag "--schema_out_directory" then OutDirectory (after_equals arg)
    else if String.prefix "-h" arg then Help (Some (String.substring 2 (String.length arg) arg))
    else if negative_number arg || contains " "%char arg then Plain
    else UnknownOption.

Definition is_plain (arg : string) : bool :=
  match classify arg with Plain => true | _ => false end.

(** The loop of [parse_args]: [extras] says whether an argument has been
    left over. *)
Fixpoint parse_arguments (argv : list string) (schema_out_directory : out_dir_arg)
    (extras : bool) : result out_dir_arg :=
  match argv with
  | [] => if extras then Raise (SystemExit 2) else Ok schema_out_directory
  | arg :: rest =>
      if String.eqb arg "--" then Raise (SystemExit 2)
      else
        match classify arg with
        | Plain | UnknownOption => parse_arguments rest schema_out_directory true
        | Help None => Raise (SystemExit 0)
        | Help (Some _) => Raise (SystemExit 2)
        | OutDirectory (Some v) => parse_arguments rest (StrDir v) extras
        | OutDirectory None =>
            match rest with
            | [] => parse_arguments rest NoDir extras
            | v :: rest' =>
                if is_plain v then parse_arguments rest' (StrDir v) extras
                else parse_arguments rest NoDir extras
            end
        end
  end.

Definition parse_args (argv : list string) : result out_dir_arg :=
  parse_arguments argv SCHEMA_OUT_DIR false.

Section Main.

Variable schema : ann -> dict.

(** [if __name__ == "__main__":] with [sys.argv[1:]] *)
Definition main (argv : list string) (p : process) : result unit * process :=
  match parse_args argv with
  | Raise e => (Raise e, p)
  | Ok schema_out_directory => generate_all_schema schema schema_out_directory p
  end.

End Main.

(** ** The declarations of [datum.py] and [event_page.py] *)

(** The public attributes a [TypedDict] class has from [dict]; no field
    of the two declarations has one of these names. *)
Definition dict_attributes : list (string * string) :=
  map (fun name => (name, "<method '" ++ name ++ "' of 'dict' objects>")%string)
      ["clear"; "copy"; "fromkeys"; "get"; "items"; "keys"; "pop"; "popitem";
       "setdefault"; "update"; "values"].

Definition described (text : string) : ann :=
  FieldInfo {| description := Some text; regex := None; other_kwargs := [] |}.

(** [typing.Dict[k, v]] and [typing.List[x]] *)
Definition Dict (k v : ann) : ann := Generic "typing.Dict" [k; v].
Definition List_ (x : ann) : ann := Generic "typing.List" [x].
Definition str : ann := Cls "str".
Definition Any : ann := Cls "Any".

Definition Datum : TypedDictMeta :=
  {| td_name := "Datum";
     td_doc := Some "Document to reference a quanta of externally-stored data";
     td_attributes := dict_attributes;
     td_annotations :=
       [("datum_id",
         Annotated str
           [described "Globally unique identifier for this Datum (akin to 'uid' for other Document types), typically formatted as '<resource>/<integer>'"]);
        ("datum_kwargs",
         Annotated (Dict str Any)
           [described "Arguments to pass to the Handler to retrieve one quanta of data"]);
        ("resource",
         Annotated str
           [described "The UID of the Resource to which this Datum belongs"])];
     td_extra_schema := None |}.

(** [DataFrame = Dict[str, List]] *)
Definition DataFrame : ann := Dict str (Generic "typing.List" []).

(** [DataFrameForFilled = Dict[str, List[Union[bool, str]]]] *)
Definition DataFrameForFilled : ann :=
  Dict str (List_ (Generic "Union" [Cls "bool"; str])).

Definition EventPage : TypedDictMeta :=
  {| td_name := "EventPage";
     td_doc := Some "Page of documents to record a quanta of collected data";
     td_attributes := dict_attributes;
     td_annotations :=
       [("filled",
         NotRequired
           (Annotated DataFrameForFilled
              [described "Mapping each of the keys of externally-stored data to an array containing the boolean False, indicating that the data has not been loaded, or to foreign keys (moved here from 'data' when the data was loaded)"]));
        ("descriptor",
         Annotated str
           [described "The UID of the EventDescriptor to which all of the Events in this page belong"]);
        ("data", Annotated DataFrame [described "The actual measurement data"]);
        ("timestamps",
         Annotated DataFrame
           [described "The timestamps of the individual measurement data"]);
        ("seq_num",
         Annotated (List_ (Cls "int"))
           [described "Array of sequence numbers to identify the location of each Event in the Event stream"]);
        ("time",
         Annotated (List_ (Cls "float"))
           [described "Array of Event times. This maybe different than the timestamps on each of the data entries"]);
        ("uid",
         Annotated (List_ str)
           [described "Array of globally unique identifiers for each Event"])];
     td_extra_schema := None |}.

(** ** A renderer to run the generator with

    Pydantic's renderer is not part of the generator; where a theorem is
    tried on a declaration, this one stands in for it.  It gives the
    title, the docstring, a property per field under its alias with the
    field's description, and the fields to require, which it takes as
    pydantic does: a field without a default is required unless its type
    is [Any] or [object], or a union with [None], [Any] or [object] among
    its members; a field of type [None] alone is required. *)

Definition base_type (a : ann) : ann :=
  match a with
  | Annotated base _ => base
  | _ => a
  end.

Definition any_or_object (t : ann) : bool :=
  match t with
  | Cls name => String.eqb name "Any" || String.eqb name "object"
  | _ => false
  end.

(** A type for which pydantic sets [allow_none] and does not require
    the field. *)
Definition nullable (t : ann) : bool :=
  match t with
  | Generic o args =>
      String.eqb o "Union"
      && existsb (fun x => ann_eqb (Cls "NoneType") x || any_or_object x) args
  | _ => any_or_object t
  end.

Definition no_default (d : default_value) : bool :=
  match d with Ellipsis => true | _ => false end.

Definition sample_property (f : string * (ann * default_value)) : string * value :=
  (alias_generator (fst f),
   VDict
     (("title", VStr (fst f))
      :: match snd (get_annotation_contents (fst (snd f))) with
         | {| description := Some text |} => [("description", VStr text)]
         | _ => []
         end)).

Definition sample_schema (model : ann) : dict :=
  match model with
  | BaseModel name doc fields =>
      [("title", VStr name)]
      ++ match doc with Some text => [("description", VStr text)] | None => [] end
      ++ [("type", VStr "object");
          ("properties", VDict (map sample_property fields));
          ("required",
           VList (map (fun f => VStr (alias_generator (fst f)))
                    (List.filter (fun f => no_default (snd (snd f))
                                      && negb (nullable (base_type (fst (snd f)))))
                            fields)))]
  | _ => []
  end.

(** ** Shapes of annotations

    [new_basemodel_classes] is a [Dict[str, BaseModel]]: every value the
    generator puts in is a model class. *)
Definition is_model (a : ann) : bool :=
  match a with BaseModel _ _ _ => true | _ => false end.

Definition holds_models (classes : gmap string ann) : Prop :=
  forall name a, classes !! name = Some a -> is_model a = true.

Definition is_annotated (a : ann) : bool :=
  match a with Annotated _ _ => true | _ => false end.

(** A type that stays a type when [TypedDict]s inside it are changed to
    models: not an [Annotated] type and not a metadata object, nor a
    union that could come down to one. *)
Fixpoint plain (a : ann) : bool :=
  match a with
  | Annotated _ _ | NotRequired _ | AsRef _ | FieldInfo _ => false
  | Generic o args => if String.eqb o "Union" then forallb plain args else true
  | _ => true
  end.

Fixpoint distinct (l : list ann) : bool :=
  match l with
  | [] => true
  | x :: rest => negb (existsb (ann_eqb x) rest) && distinct rest
  end.

(** The arguments of a union as Python keeps them: no union among them,
    no argument twice, and not a single one. *)
Definition union_args (args : list ann) : bool :=
  forallb (fun a => negb (is_union a)) args && distinct args
  && negb (Nat.eqb (List.length args) 1).

(** An annotation that [change_sub_typed_dicts_to_basemodels] returns as
    it is: no [TypedDict] is left in it (a model is not looked into), a
    generic with arguments is written under the class it is an instance
    of ([dict[...]], not [typing.Dict[...]]), and its unions and
    [Annotated] types are as Python builds them. *)
Fixpoint resolved (a : ann) : bool :=
  match a with
  | TypedDict _ _ _ _ | NotRequired _ => false
  | Generic o args =>
      match args with
      | [] => true
      | _ => forallb resolved args && String.eqb (runtime_origin o) o
             && (negb (String.eqb o "Union") || union_args args)
      end
  | Annotated base metadata =>
      resolved base && forallb resolved metadata && negb (is_annotated base)
      && match metadata with [] => false | _ => true end
  | _ => true
  end.


(** What [field_parser] returns: [Annotated[type, field_info]] with the
    type resolved. *)
Definition normalized (a : ann) : bool :=
  match a with
  | Annotated t [FieldInfo _] => resolved t && plain t
  | _ => false
  end.

(** The assumption of [get_field_type]'s docstring, "either the field
    origin is Annotated, or the field has no origin", on a field's
    annotation once [NotRequired] is taken off, with a plain type in the
    annotation. *)
Definition as_assumed (field_type : ann) : bool :=
  match field_type with
  | Annotated base _ => plain base
  | _ => plain field_type && match get_args field_type with [] => true | _ => false end
  end.

Definition declared_as_assumed (field_type : ann) : bool :=
  match field_type with
  | NotRequired arg => as_assumed arg
  | _ => as_assumed field_type
  end.

(** A field declared [NotRequired[...]]. *)
Definition is_not_required (a : ann) : bool :=
  match get_origin a with Some ONotRequired => true | _ => false end.


(** ** Declarations to try the generator on *)

Definition int : ann := Cls "int".

(** [class R(TypedDict): x: Annotated[int, Field()]] *)
Definition nested_R : ann :=
  TypedDict "R" None dict_attributes [("x", Annotated int [FieldInfo Field])].

(** Two fields tagged [AsRef("R")], both of type [int]. *)
Definition tagged_R : list (string * ann) :=
  [("a", Annotated int [AsRef "R"; FieldInfo Field]);
   ("b", Annotated int [AsRef "R"; FieldInfo Field])].

(** [class Doc(TypedDict)] with a field of the nested declaration [R]
    and then the two fields tagged [AsRef("R")]. *)
Definition name_clash : TypedDictMeta :=
  {| td_name := "Doc"; td_doc := None; td_attributes := dict_attributes;
     td_annotations := ("n", Annotated nested_R [FieldInfo Field]) :: tagged_R;
     td_extra_schema := None |}.

(** [class A(TypedDict): id: Annotated[int, AsRef("R"), Field()]] and
    [class B(TypedDict): id: Annotated[str, AsRef("R"), Field()]]: two
    documents that use the reference name [R], each for one type. *)
Definition document_A : TypedDictMeta :=
  {| td_name := "A"; td_doc := None; td_attributes := dict_attributes;
     td_annotations := [("id", Annotated int [AsRef "R"; FieldInfo Field])];
     td_extra_schema := None |}.

Definition document_B : TypedDictMeta :=
  {| td_name := "B"; td_doc := None; td_attributes := dict_attributes;
     td_annotations := [("id", Annotated str [AsRef "R"; FieldInfo Field])];
     td_extra_schema := None |}.



(** [class L(TypedDict): x: List[Annotated[Any, AsRef("R")]]]: a
    reference tag in the argument of a generic, not on the field. *)
Definition tagged_argument : TypedDictMeta :=
  {| td_name := "L"; td_doc := None; td_attributes := dict_attributes;
     td_annotations := [("x", List_ (Annotated Any [AsRef "R"]))];
     td_extra_schema := None |}.

(** ** Tests on values and names *)

(** [key in d] *)
Definition has_key (key : string) (d : dict) : bool :=
  match dict_get key d with Some _ => true | None => false end.

Definition is_dict (x : value) : bool :=
  match x with VDict _ => true | _ => false end.

Definition is_str (x : value) : bool :=
  match x with VStr _ => true | _ => false end.

(** A line feed in a string. *)
Definition has_newline (s : string) : bool := contains "010"%char s.

(** A name of ASCII characters only. *)
Fixpoint is_ascii (s : string) : bool :=
  match s with
  | EmptyString => true
  | String c rest => (nat_of_ascii c <? 128)%nat && is_ascii rest
  end.

(** A capital letter in a name. *)
Fixpoint has_upper (s : string) : bool :=
  match s with
  | EmptyString => false
  | String c rest => is_upper c || has_upper rest
  end.

(** A schema as pydantic renders a docstring and a field description
    written on two lines, with a description inside a list. *)
Definition two_lines : string := "first" ++ String "010"%char "second".

Definition described_schema : dict :=
  [("title", VStr "t");
   ("description", VStr two_lines);
   ("properties",
    VDict [("x", VDict [("description", VStr two_lines); ("type", VStr "string")])]);
   ("anyOf", VList [VDict [("description", VStr two_lines)]])].

(** A schema with a [properties] mapping inside a list. *)
Definition any_of_schema : dict :=
  [("properties", VDict [("b", VInt 1); ("a", VInt 2)]);
   ("anyOf", VList [VDict [("properties", VDict [("b", VInt 1); ("a", VInt 2)])]])].

(** The last of the arguments that is an instance of a class. *)
Definition last_of (c : metadata_class) (args : list ann) : option ann :=
  find (fun x => isinstance_of x c) (rev args).


(** A state of the process to run [main] from: nothing generated, the
    two documents to process, no file written. *)
Definition two_documents : process :=
  {| default_classes := ∅; documents := [Datum; EventPage]; files := [] |}.
(** ** Reasoning about values and dictionaries *)

(** Induction on a value gives the hypothesis for every item of a list
    and for every value of a dict. *)
Lemma value_ind (P : value -> Prop)
    (HNone : P VNone)
    (HBool : forall b, P (VBool b))
    (HInt : forall z, P (VInt z))
    (HFloat : forall f, P (VFloat f))
    (HStr : forall s, P (VStr s))
    (HList : forall items, Forall P items -> P (VList items))
    (HDict : forall entries, Forall (fun kv => P (snd kv)) entries ->
                             P (VDict entries)) :
  forall x, P x.
Proof.
  fix IH 1. intros [ | b | z | f | s | items | entries ].
  - exact HNone.
  - apply HBool.
  - apply HInt.
  - apply HFloat.
  - apply HStr.
  - apply HList. induction items as [ | x items IHitems ].
    + constructor.
    + constructor; [ apply IH | exact IHitems ].
  - apply HDict. induction entries as [ | [k x] entries IHentries ].
    + constructor.
    + constructor; [ apply IH | exact IHentries ].
Qed.

Lemma dict_get_set_eq key x (d : dict) :
  dict_get key (dict_set key x d) = Some x.
Proof.
  induction d as [ | [k y] d IH ]; simpl.
  - now rewrite String.eqb_refl.
  - destruct (String.eqb key k) eqn:E; simpl; rewrite E; [ reflexivity | exact IH ].
Qed.

Lemma dict_get_set_ne key key' x (d : dict) :
  key <> key' -> dict_get key (dict_set key' x d) = dict_get key d.
Proof.
  intros Hne. induction d as [ | [k y] d IH ]; simpl.
  - destruct (String.eqb_spec key key'); [ contradiction | reflexivity ].
  - destruct (String.eqb_spec key' k) as [ -> | Hk ]; simpl.
    + destruct (String.eqb_spec key k); [ contradiction | reflexivity ].
    + destruct (String.eqb key k); [ reflexivity | exact IH ].
Qed.

Lemma dict_get_None_keys key (d : dict) :
  dict_get key d = None <-> key ∉ keys d.
Proof.
  induction d as [ | [k y] d IH ]; simpl.
  - split; [ intros _; apply not_elem_of_nil | reflexivity ].
  - rewrite not_elem_of_cons.
    destruct (String.eqb_spec key k) as [ -> | Hne ].
    + split; [ discriminate | intros [H _]; now contradiction H ].
    + rewrite IH. tauto.
Qed.

Lemma dict_get_elem_of key x (d : dict) :
  dict_get key d = Some x -> (key, x) ∈ d.
Proof.
  induction d as [ | [k y] d IH ]; simpl; [ discriminate | ].
  destruct (String.eqb_spec key k) as [ -> | Hne ].
  - intros [= ->]. apply elem_of_cons. now left.
  - intros H. apply elem_of_cons. right. now apply IH.
Qed.

(** *** One step of the merge loop, seen through a key *)

Lemma merge_step_other merge dict2 return_dict key key' x :
  key <> key' ->
  dict_get key (merge_step merge dict2 return_dict (key', x))
  = dict_get key return_dict.
Proof.
  intros Hne. unfold merge_step.
  destruct (dict_get key' dict2) as [ y | ].
  - destruct (negb (isinstance x (type_of y))).
    + now apply dict_get_set_ne.
    + destruct x; try reflexivity.
      * destruct y; try reflexivity. now apply dict_get_set_ne.
      * now apply dict_get_set_ne.
  - now apply dict_get_set_ne.
Qed.

Lemma merge_step_same merge dict2 r1 r2 key x :
  dict_get key r1 = dict_get key r2 ->
  dict_get key (merge_step merge dict2 r1 (key, x))
  = dict_get key (merge_step merge dict2 r2 (key, x)).
Proof.
  intros Hr. unfold merge_step.
  destruct (dict_get key dict2) as [ y | ].
  - destruct (negb (isinstance x (type_of y))).
    + now rewrite !dict_get_set_eq.
    + destruct x; try exact Hr.
      * destruct y; try exact Hr. now rewrite !dict_get_set_eq.
      * now rewrite !dict_get_set_eq.
  - now rewrite !dict_get_set_eq.
Qed.

(** A key that [dict1] does not hold is left as the accumulator has it. *)
Lemma merge_loop_absent merge dict2 (dict1 : dict) return_dict key :
  dict_get key dict1 = None ->
  dict_get key (fold_left (merge_step merge dict2) dict1 return_dict)
  = dict_get key return_dict.
Proof.
  revert return_dict.
  induction dict1 as [ | [k x] dict1 IH ]; intros return_dict Hk; simpl.
  - reflexivity.
  - simpl in Hk. destruct (String.eqb_spec key k) as [ -> | Hne ]; [ discriminate | ].
    rewrite (IH _ Hk). now apply merge_step_other.
Qed.

(** A key that [dict1] holds once is decided by the step that visits it. *)
Lemma merge_loop_present merge dict2 (dict1 : dict) return_dict key x :
  dict_wf dict1 ->
  dict_get key dict1 = Some x ->
  dict_get key (fold_left (merge_step merge dict2) dict1 return_dict)
  = dict_get key (merge_step merge dict2 return_dict (key, x)).
Proof.
  unfold dict_wf. revert return_dict.
  induction dict1 as [ | [k y] dict1 IH ]; intros return_dict Hwf Hk; simpl in *.
  - discriminate.
  - apply NoDup_cons in Hwf as [Hnotin Hwf].
    destruct (String.eqb_spec key k) as [ -> | Hne ].
    + injection Hk as ->.
      apply merge_loop_absent. now apply dict_get_None_keys.
    + rewrite (IH _ Hwf Hk). apply merge_step_same.
      now apply merge_step_other.
Qed.

(** What each branch of the loop body leaves under the visited key. *)
Lemma merge_dicts_present (dict1 dict2 : dict) key x :
  dict_wf dict1 ->
  dict_get key dict1 = Some x ->
  dict_get key (merge_dicts dict1 dict2)
  = dict_get key (merge_step merge_values dict2 dict2 (key, x)).
Proof. intros Hwf Hx. now apply merge_loop_present. Qed.

Lemma merge_values_dicts (dict1 dict2 : dict) :
  merge_values (VDict dict1) (VDict dict2) = VDict (merge_dicts dict1 dict2).
Proof. reflexivity. Qed.

Lemma isinstance_same x y : type_of x = type_of y -> isinstance x (type_of y) = true.
Proof. intros <-. unfold isinstance. now destruct (type_of x). Qed.

Lemma isinstance_mismatch x y :
  type_of x <> type_of y ->
  (type_of x, type_of y) <> (TBool, TInt) ->
  isinstance x (type_of y) = false.
Proof.
  unfold isinstance. destruct (type_of x), (type_of y); simpl; congruence.
Qed.

(** ** The specification's merge example *)

(** C3, as stated, fails: merging the fragment
    [{"properties": {"a": {"enum": [1,2]}}}] into the generated schema
    [{"properties": {"a": {"type": "integer"}, "b": {"type": "string"}}}]
    does not return
    [{"properties": {"a": {"enum": [1,2]}, "b": {"type": "string"}}}]:
    the fragment's value for ["a"] does not replace the generated one. *)
Lemma merge_example_not_wholesale :
  merge_dicts fragment_a_enum generated_a_b
  <> [("properties",
       VDict [("a", VDict [("enum", VList [VInt 1; VInt 2])]);
              ("b", VDict [("type", VStr "string")])])].
Proof. vm_compute. discriminate. Qed.

(** C3, amended: that merge returns
    [{"properties": {"a": {"type": "integer", "enum": [1,2]},
                     "b": {"type": "string"}}}]:
    the two dicts under ["a"] are merged key by key, so the generated
    ["type"] stays and the fragment's ["enum"] is added, and the sibling
    ["b"] is preserved. *)
Theorem merge_example_recursive :
  merge_dicts fragment_a_enum generated_a_b
  = [("properties",
      VDict [("a", VDict [("type", VStr "integer");
                          ("enum", VList [VInt 1; VInt 2])]);
             ("b", VDict [("type", VStr "string")])])].
Proof. reflexivity. Qed.

(** ** The merge, key by key *)

(** The merge invariant as the specification words it: a key of one
    input only keeps that input's value, two dicts merge recursively,
    two lists concatenate, and on any two values of different types the
    fragment's value is taken. *)
Definition merge_invariant_as_stated : Prop :=
  forall (dict1 dict2 : dict) key,
    dict_wf dict1 -> dict_wf dict2 ->
    (dict_get key dict1 = None ->
     dict_get key (merge_dicts dict1 dict2) = dict_get key dict2)
    /\ (dict_get key dict2 = None ->
        dict_get key (merge_dicts dict1 dict2) = dict_get key dict1)
    /\ (forall a b, dict_get key dict1 = Some (VDict a) ->
                    dict_get key dict2 = Some (VDict b) ->
        dict_get key (merge_dicts dict1 dict2) = Some (VDict (merge_dicts a b)))
    /\ (forall l1 l2, dict_get key dict1 = Some (VList l1) ->
                      dict_get key dict2 = Some (VList l2) ->
        dict_get key (merge_dicts dict1 dict2) = Some (VList (l1 ++ l2)))
    /\ (forall x y, dict_get key dict1 = Some x -> dict_get key dict2 = Some y ->
        type_of x <> type_of y ->
        dict_get key (merge_dicts dict1 dict2) = Some x).

(** C4, as stated, fails: the fragment [{"k": True}] and the generated
    [{"k": 1}] hold values of different types under ["k"], a [bool] and
    an [int], and the merge keeps the generated [1]: [True] is an
    instance of [int], so the test of line 82 does not fire. *)
Lemma merge_invariant_bool_int : ~ merge_invariant_as_stated.
Proof.
  intros H.
  destruct (H [("k", VBool true)] [("k", VInt 1)] "k") as (_ & _ & _ & _ & Hmis).
  - compute_done.
  - compute_done.
  - specialize (Hmis (VBool true) (VInt 1) eq_refl eq_refl).
    discriminate Hmis. discriminate.
Qed.

(** C4, amended: in [merge_dicts dict1 dict2], with [dict1] the
    hand-authored fragment and [dict2] the generated schema, a key of
    one input only keeps that input's value; a key whose two values are
    dicts maps to their recursive merge; a key whose two values are
    lists maps to the fragment's list followed by the generated one; a
    key whose two values have different types maps to the fragment's
    value, except for a fragment boolean against a generated integer,
    where the generated integer is kept. *)
Theorem merge_dicts_by_key (dict1 dict2 : dict) key :
  dict_wf dict1 ->
  (dict_get key dict1 = None ->
   dict_get key (merge_dicts dict1 dict2) = dict_get key dict2)
  /\ (dict_get key dict2 = None ->
      dict_get key (merge_dicts dict1 dict2) = dict_get key dict1)
  /\ (forall a b, dict_get key dict1 = Some (VDict a) ->
                  dict_get key dict2 = Some (VDict b) ->
      dict_get key (merge_dicts dict1 dict2) = Some (VDict (merge_dicts a b)))
  /\ (forall l1 l2, dict_get key dict1 = Some (VList l1) ->
                    dict_get key dict2 = Some (VList l2) ->
      dict_get key (merge_dicts dict1 dict2) = Some (VList (l1 ++ l2)))
  /\ (forall x y, dict_get key dict1 = Some x -> dict_get key dict2 = Some y ->
      type_of x <> type_of y -> (type_of x, type_of y) <> (TBool, TInt) ->
      dict_get key (merge_dicts dict1 dict2) = Some x)
  /\ (forall b z, dict_get key dict1 = Some (VBool b) ->
                  dict_get key dict2 = Some (VInt z) ->
      dict_get key (merge_dicts dict1 dict2) = Some (VInt z)).
Proof.
  intros Hwf. repeat split.
  - intros H1. unfold merge_dicts. now apply merge_loop_absent.
  - intros H2. destruct (dict_get key dict1) as [ x | ] eqn:H1.
    + rewrite (merge_dicts_present _ _ _ _ Hwf H1). unfold merge_step.
      rewrite H2. apply dict_get_set_eq.
    + unfold merge_dicts. rewrite merge_loop_absent by assumption. exact H2.
  - intros a b H1 H2.
    rewrite (merge_dicts_present _ _ _ _ Hwf H1). unfold merge_step.
    rewrite H2. simpl. now rewrite dict_get_set_eq.
  - intros l1 l2 H1 H2.
    rewrite (merge_dicts_present _ _ _ _ Hwf H1). unfold merge_step.
    rewrite H2. simpl. now rewrite dict_get_set_eq.
  - intros x y H1 H2 Hty Hbi.
    rewrite (merge_dicts_present _ _ _ _ Hwf H1). unfold merge_step.
    rewrite H2, (isinstance_mismatch _ _ Hty Hbi). simpl. apply dict_get_set_eq.
  - intros b z H1 H2.
    rewrite (merge_dicts_present _ _ _ _ Hwf H1). unfold merge_step.
    rewrite H2. simpl. exact H2.
Qed.

(** The theorem at the docstring's example: ["x1"] holds a dict on both
    sides, and the result holds their merge. *)
Lemma merge_dicts_by_key_docstring :
  dict_wf docstring_dict1
  /\ dict_get "x1" (merge_dicts docstring_dict1 docstring_dict2)
     = Some (VDict
         (merge_dicts
            [("y1", VInt 0);
             ("y3", VDict [("z1", VList [VInt 1; VInt 2]); ("z2", VInt 1)])]
            [("y2", VInt 0);
             ("y3", VDict [("z1", VList [VInt 3; VInt 4]); ("z3", VInt 5)])])).
Proof.
  assert (Hwf : dict_wf docstring_dict1) by compute_done.
  split; [ exact Hwf | ].
  exact (proj1 (proj2 (proj2
           (merge_dicts_by_key docstring_dict1 docstring_dict2 "x1" Hwf)))
           _ _ eq_refl eq_refl).
Defined.

(** C10: for a key of both inputs whose two values have the same type,
    neither dict nor list, the merge keeps the generated schema's value
    and drops the hand-authored fragment's. *)
Theorem merge_dicts_same_scalar_type (dict1 dict2 : dict) key x y :
  dict_wf dict1 ->
  dict_get key dict1 = Some x ->
  dict_get key dict2 = Some y ->
  type_of x = type_of y ->
  type_of x <> TDict ->
  type_of x <> TList ->
  dict_get key (merge_dicts dict1 dict2) = Some y.
Proof.
  intros Hwf H1 H2 Hty Hd Hl.
  rewrite (merge_dicts_present _ _ _ _ Hwf H1). unfold merge_step.
  rewrite H2, (isinstance_same _ _ Hty). simpl.
  destruct x; try exact H2; simpl in *; congruence.
Qed.

(** The theorem at the docstring's example: ["x3"] is [1] in the first
    dict and [0] in the second, and the result holds the second's [0]. *)
Lemma merge_dicts_same_scalar_type_docstring :
  dict_get "x3" (merge_dicts docstring_dict1 docstring_dict2) = Some (VInt 0).
Proof.
  apply (merge_dicts_same_scalar_type docstring_dict1 docstring_dict2
           "x3" (VInt 1) (VInt 0)).
  - compute_done.
  - reflexivity.
  - reflexivity.
  - reflexivity.
  - discriminate.
  - discriminate.
Defined.

(** ** Loops that replace values in place *)

Lemma update_values_keys f (schema schema' : dict) :
  update_values f schema = Ok schema' -> keys schema' = keys schema.
Proof.
  revert schema'. induction schema as [ | [k x] schema IH ]; intros schema' H; simpl in H.
  - now injection H as <-.
  - destruct (f k x) as [ x' | e ]; [ | discriminate ]. simpl in H.
    destruct (update_values f schema) as [ rest' | e ]; [ | discriminate ].
    injection H as <-. simpl. f_equal. now apply IH.
Qed.

Lemma update_values_get f (schema schema' : dict) key :
  update_values f schema = Ok schema' ->
  match dict_get key schema with
  | Some x => exists x', f key x = Ok x' /\ dict_get key schema' = Some x'
  | None => dict_get key schema' = None
  end.
Proof.
  revert schema'. induction schema as [ | [k x] schema IH ]; intros schema' H; simpl in H.
  - now injection H as <-.
  - destruct (f k x) as [ x' | e ] eqn:Hf; [ | discriminate ]. simpl in H.
    destruct (update_values f schema) as [ rest' | e ]; [ | discriminate ].
    injection H as <-. simpl.
    destruct (String.eqb_spec key k) as [ -> | Hne ].
    + now exists x'.
    + now apply IH.
Qed.

(** ** Sorting the items of a dict *)

Lemma insert_item_perm item (d : dict) : insert_item item d ≡ₚ item :: d.
Proof.
  induction d as [ | y d IH ]; simpl.
  - reflexivity.
  - destruct (String.leb (fst item) (fst y)); [ reflexivity | ].
    rewrite IH. apply perm_swap.
Qed.

Lemma sorted_items_perm (d : dict) : sorted_items d ≡ₚ d.
Proof.
  induction d as [ | item d IH ]; simpl; [ reflexivity | ].
  rewrite insert_item_perm. now rewrite IH.
Qed.

Lemma leb_false_flip k1 k2 : String.leb k1 k2 = false -> String.leb k2 k1 = true.
Proof. destruct (String.leb_total k1 k2); congruence. Qed.

Lemma insert_item_sorted item (d : dict) :
  keys_sorted d -> keys_sorted (insert_item item d).
Proof.
  unfold keys_sorted. induction d as [ | y d IH ]; simpl; intros Hs.
  - repeat constructor.
  - destruct (String.leb (fst item) (fst y)) eqn:Hle; simpl.
    + constructor; [ exact Hs | now constructor ].
    + apply Sorted_inv in Hs as [Hs Hhd]. constructor; [ now apply IH | ].
      destruct d as [ | y' d ]; simpl.
      * constructor. now apply leb_false_flip.
      * destruct (String.leb (fst item) (fst y')); simpl; constructor.
        -- now apply leb_false_flip.
        -- now apply HdRel_inv in Hhd.
Qed.

Lemma sorted_items_sorted (d : dict) : keys_sorted (sorted_items d).
Proof.
  induction d as [ | item d IH ]; simpl.
  - constructor.
  - now apply insert_item_sorted.
Qed.

(** Items already in order stay as they are. *)
Lemma sorted_items_fixed (d : dict) : keys_sorted d -> sorted_items d = d.
Proof.
  unfold keys_sorted. induction d as [ | item d IH ]; simpl; intros Hs; [ reflexivity | ].
  apply Sorted_inv in Hs as [Hs Hhd]. rewrite (IH Hs).
  destruct d as [ | y d ]; simpl; [ reflexivity | ].
  apply HdRel_inv in Hhd. now rewrite Hhd.
Qed.

Lemma sorted_items_idem (d : dict) : sorted_items (sorted_items d) = sorted_items d.
Proof. apply sorted_items_fixed, sorted_items_sorted. Qed.

(** ** [sort_jsonschema], along a path *)

Lemma sort_jsonschema_value_dict (schema : dict) :
  sort_jsonschema_value (VDict schema) = VDict <$> sort_jsonschema schema.
Proof. reflexivity. Qed.

(** What [sort_jsonschema] leaves under one key of [schema]. *)
Lemma sort_jsonschema_get (schema schema' : dict) key :
  sort_jsonschema schema = Ok schema' ->
  match dict_get key schema with
  | Some (VDict d) =>
      if String.eqb key "properties"
      then dict_get key schema' = Some (VDict (sorted_items d))
      else exists d', sort_jsonschema d = Ok d' /\ dict_get key schema' = Some (VDict d')
  | Some x => key <> "properties" /\ dict_get key schema' = Some x
  | None => dict_get key schema' = None
  end.
Proof.
  intros H. pose proof (update_values_get _ _ _ key H) as Hk.
  destruct (dict_get key schema) as [ x | ]; [ | exact Hk ].
  destruct Hk as (x' & Hstep & Hget). unfold sort_step in Hstep.
  destruct (String.eqb_spec key "properties") as [ -> | Hne ].
  - destruct x; try discriminate. now injection Hstep as <-.
  - destruct x; try (injection Hstep as <-; now split).
    rewrite sort_jsonschema_value_dict in Hstep.
    destruct (sort_jsonschema entries) as [ d' | e ]; [ | discriminate ].
    injection Hstep as <-. now exists d'.
Qed.

Lemma leb_refl k : String.leb k k = true.
Proof. now destruct (String.leb_total k k). Qed.

(** The sort is stable, so a key leads to the same value afterwards. *)
Lemma dict_get_insert_item key item (d : dict) :
  dict_get key (insert_item item d) = dict_get key (item :: d).
Proof.
  induction d as [ | [k y] d IH ]; [ reflexivity | ].
  destruct item as [k0 x0]. simpl in *.
  destruct (String.leb k0 k) eqn:Hle; simpl; [ reflexivity | ].
  rewrite IH.
  destruct (String.eqb_spec key k) as [ -> | Hk ]; [ | reflexivity ].
  destruct (String.eqb_spec k k0) as [ <- | H0 ]; [ | reflexivity ].
  now rewrite leb_refl in Hle.
Qed.

Lemma dict_get_sorted_items key (d : dict) :
  dict_get key (sorted_items d) = dict_get key d.
Proof.
  induction d as [ | [k x] d IH ]; [ reflexivity | ].
  simpl sorted_items. rewrite dict_get_insert_item. simpl. now rewrite IH.
Qed.

Lemma value_at_app path rest x :
  value_at (path ++ rest) x
  = match value_at path x with Some y => value_at rest y | None => None end.
Proof.
  revert x. induction path as [ | key path IH ]; intros x; simpl; [ reflexivity | ].
  destruct x; try reflexivity.
  destruct (dict_get key entries); [ apply IH | reflexivity ].
Qed.

(** Down a path that meets no ["properties"] key, [sort_jsonschema] is
    applied to the dict found there; anything else is found unchanged. *)
Lemma sort_jsonschema_descend path (schema schema' : dict) :
  sort_jsonschema schema = Ok schema' ->
  "properties" ∉ path ->
  match value_at path (VDict schema) with
  | Some (VDict d) =>
      exists d', sort_jsonschema d = Ok d' /\ value_at path (VDict schema') = Some (VDict d')
  | other => value_at path (VDict schema') = other
  end.
Proof.
  revert schema schema'.
  induction path as [ | key path IH ]; intros schema schema' Hs Hp; simpl.
  - now exists schema'.
  - apply not_elem_of_cons in Hp as [Hkey Hp].
    pose proof (sort_jsonschema_get _ _ key Hs) as Hk.
    destruct (dict_get key schema) as [ x | ]; [ | now rewrite Hk ].
    destruct x; try (destruct Hk as [_ ->]; now destruct path).
    destruct (String.eqb_spec key "properties") as [ -> | _ ]; [ congruence | ].
    destruct Hk as (d' & Hd & ->). now apply IH.
Qed.

(** The claim as the specification words it: after the sort every
    mapping under a [properties] key, however deep, has its keys in
    ascending order, and every other mapping keeps its key order. *)
Definition sort_claim_as_stated : Prop :=
  forall (schema schema' : dict),
    sort_jsonschema schema = Ok schema' ->
    (forall path m,
        value_at (path ++ ["properties"]) (VDict schema) = Some (VDict m) ->
        exists m', value_at (path ++ ["properties"]) (VDict schema') = Some (VDict m')
                   /\ keys_sorted m' /\ keys m' ≡ₚ keys m)
    /\ (forall path m,
        last path <> Some "properties" ->
        value_at path (VDict schema) = Some (VDict m) ->
        exists m', value_at path (VDict schema') = Some (VDict m')
                   /\ keys m' = keys m).

(** C6, as stated, fails: in [nested_properties_schema] the property
    ["a"] has [properties] of its own, with keys ["y"], ["b"]; they are
    in that order after the sort. *)
Lemma sort_skips_nested_properties : ~ sort_claim_as_stated.
Proof.
  intros H.
  destruct (H nested_properties_schema _ eq_refl) as [Hsorted _].
  destruct (Hsorted ["properties"; "a"] _ eq_refl) as (m' & Hm' & Hs & _).
  vm_compute in Hm'. injection Hm' as <-.
  unfold keys_sorted in Hs. simpl in Hs.
  apply Sorted_inv in Hs as [_ Hhd]. apply HdRel_inv in Hhd.
  vm_compute in Hhd. discriminate.
Qed.

(** C6, amended: when [sort_jsonschema] returns, (1) every mapping under
    a [properties] key that is reached from the top through nested
    mappings, none of them under a [properties] key, holds the same items
    as before in ascending order of their keys; (2) whatever lies inside
    the items of such a mapping, a deeper [properties] mapping included,
    is exactly as before; (3) every mapping that is not under a
    [properties] key keeps its key order. *)
Theorem sort_jsonschema_paths (schema schema' : dict) :
  sort_jsonschema schema = Ok schema' ->
  (forall path m,
      "properties" ∉ path ->
      value_at (path ++ ["properties"]) (VDict schema) = Some (VDict m) ->
      value_at (path ++ ["properties"]) (VDict schema') = Some (VDict (sorted_items m))
      /\ keys_sorted (sorted_items m) /\ sorted_items m ≡ₚ m)
  /\ (forall path key rest x,
      "properties" ∉ path ->
      value_at (path ++ "properties" :: key :: rest) (VDict schema) = Some x ->
      value_at (path ++ "properties" :: key :: rest) (VDict schema') = Some x)
  /\ (forall path m,
      last path <> Some "properties" ->
      value_at path (VDict schema) = Some (VDict m) ->
      exists m', value_at path (VDict schema') = Some (VDict m') /\ keys m' = keys m).
Proof.
  intros Hs.
  assert (Hunder : forall path d,
             "properties" ∉ path ->
             value_at (path ++ ["properties"]) (VDict schema) = Some d ->
             exists m, d = VDict m
               /\ value_at (path ++ ["properties"]) (VDict schema')
                  = Some (VDict (sorted_items m))).
  { intros path d Hp Hat. rewrite value_at_app in Hat |- *.
    pose proof (sort_jsonschema_descend path _ _ Hs Hp) as Hd.
    destruct (value_at path (VDict schema)) as [ y | ]; [ | discriminate ].
    destruct y; try discriminate.
    destruct Hd as (d' & Hd' & ->). simpl in Hat |- *.
    pose proof (sort_jsonschema_get _ _ "properties" Hd') as Hk.
    destruct (dict_get "properties" entries) as [ y | ]; [ | discriminate ].
    injection Hat as ->. destruct d; try (now destruct Hk).
    simpl in Hk. rewrite Hk. now exists entries0. }
  assert (Hinside : forall path key rest x,
             "properties" ∉ path ->
             value_at (path ++ "properties" :: key :: rest) (VDict schema) = Some x ->
             value_at (path ++ "properties" :: key :: rest) (VDict schema') = Some x).
  { intros path key rest x Hp Hat.
    change ("properties" :: key :: rest) with (["properties"] ++ key :: rest) in *.
    rewrite app_assoc, value_at_app in Hat |- *.
    destruct (value_at (path ++ ["properties"]) (VDict schema)) as [ d | ] eqn:Hd;
      [ | discriminate ].
    destruct (Hunder _ _ Hp Hd) as (m & -> & ->).
    simpl in Hat |- *. now rewrite dict_get_sorted_items. }
  split; [ | split ].
  - intros path m Hp Hat. destruct (Hunder _ _ Hp Hat) as (m0 & [= <-] & Hm).
    split; [ exact Hm | ]. split; [ apply sorted_items_sorted | apply sorted_items_perm ].
  - exact Hinside.
  - intros path m Hlast Hat.
    destruct (decide ("properties" ∈ path)) as [ Hin | Hnotin ].
    + apply list_elem_of_split_l in Hin as (before & after & -> & Hbefore).
      destruct after as [ | key rest ].
      * rewrite last_snoc in Hlast. congruence.
      * exists m. split; [ now apply Hinside | reflexivity ].
    + pose proof (sort_jsonschema_descend path _ _ Hs Hnotin) as Hd.
      rewrite Hat in Hd. destruct Hd as (d' & Hd' & ->).
      exists d'. split; [ reflexivity | ]. now apply update_values_keys in Hd'.
Qed.

(** The theorem at [nested_properties_schema]: the [properties] of the
    definition ["Zed"] come out as ["p"], ["q"]. *)
Lemma sort_jsonschema_paths_nested :
  value_at ["definitions"; "Zed"; "properties"]
    (VDict [("title", VStr "t");
            ("properties",
             VDict [("a", VDict [("type", VStr "object");
                                 ("properties",
                                  VDict [("y", VDict [("type", VStr "integer")]);
                                         ("b", VDict [("type", VStr "integer")])])]);
                    ("z", VDict [("type", VStr "string")])]);
            ("definitions",
             VDict [("Zed", VDict [("title", VStr "Zed");
                                   ("properties", VDict [("p", VInt 2); ("q", VInt 1)])]);
                    ("Abe", VDict [])])])
  = Some (VDict (sorted_items [("q", VInt 1); ("p", VInt 2)])).
Proof.
  refine (proj1 (proj1 (sort_jsonschema_paths nested_properties_schema _ eq_refl)
                   ["definitions"; "Zed"] [("q", VInt 1); ("p", VInt 2)] _ eq_refl)).
  compute_done.
Defined.

(** ** Reasoning about annotations *)

(** Induction on an annotation gives the hypothesis for every argument,
    every metadata object and every field. *)
Lemma ann_ind (P : ann -> Prop)
    (HCls : forall name, P (Cls name))
    (HGeneric : forall o args, Forall P args -> P (Generic o args))
    (HNotRequired : forall arg, P arg -> P (NotRequired arg))
    (HAnnotated : forall base metadata,
        P base -> Forall P metadata -> P (Annotated base metadata))
    (HAsRef : forall ref_name, P (AsRef ref_name))
    (HFieldInfo : forall info, P (FieldInfo info))
    (HTypedDict : forall name doc attributes annotations,
        Forall (fun f => P (snd f)) annotations ->
        P (TypedDict name doc attributes annotations))
    (HBaseModel : forall name doc fields,
        Forall (fun f => P (fst (snd f))) fields -> P (BaseModel name doc fields))
    (HPyObject : forall repr, P (PyObject repr)) :
  forall a, P a.
Proof.
  fix IH 1. intros [ name | o args | arg | base metadata | ref_name | info
                   | name doc attributes annotations | name doc fields | repr ].
  - apply HCls.
  - apply HGeneric. induction args as [ | x args IHargs ]; constructor;
      [ apply IH | exact IHargs ].
  - apply HNotRequired, IH.
  - apply HAnnotated; [ apply IH | ].
    induction metadata as [ | x metadata IHm ]; constructor; [ apply IH | exact IHm ].
  - apply HAsRef.
  - apply HFieldInfo.
  - apply HTypedDict. induction annotations as [ | [n x] fs IHfs ]; constructor;
      [ apply IH | exact IHfs ].
  - apply HBaseModel. induction fields as [ | [n [x d]] fs IHfs ]; constructor;
      [ apply IH | exact IHfs ].
  - apply HPyObject.
Qed.

(** *** [ann_eqb] is reflexive *)

Lemma option_eqb_refl {A} (eqb : A -> A -> bool) (x : option A) :
  (forall a, eqb a a = true) -> option_eqb eqb x x = true.
Proof. intros H. destruct x; simpl; auto. Qed.

Lemma list_eqb_refl {A} (eqb : A -> A -> bool) (l : list A) :
  Forall (fun x => eqb x x = true) l -> list_eqb eqb l l = true.
Proof. induction 1 as [ | x l Hx _ IH ]; simpl; [ reflexivity | now rewrite Hx, IH ]. Qed.

Lemma string_pairs_eqb_refl (l : list (string * string)) :
  list_eqb (pair_eqb String.eqb String.eqb) l l = true.
Proof.
  apply list_eqb_refl, Forall_forall. intros p _. unfold pair_eqb.
  now rewrite !String.eqb_refl.
Qed.

Lemma field_info_eqb_refl f : field_info_eqb f f = true.
Proof.
  unfold field_info_eqb.
  now rewrite !(option_eqb_refl _ _ String.eqb_refl), string_pairs_eqb_refl.
Qed.

Lemma default_value_eqb_refl d : default_value_eqb d d = true.
Proof. destruct d; simpl; auto using String.eqb_refl. Qed.

Lemma members_refl (eqb : ann -> ann -> bool) (l : list ann) :
  Forall (fun x => eqb x x = true) l ->
  forallb (fun x => existsb (eqb x) l) l = true
  /\ forallb (fun y => existsb (fun x => eqb x y) l) l = true.
Proof.
  intros H. rewrite Forall_forall in H.
  split; apply forallb_forall; intros x Hx; apply existsb_exists; exists x;
    (split; [ exact Hx | apply H; now apply list_elem_of_In ]).
Qed.

Lemma ann_eqb_refl a : ann_eqb a a = true.
Proof.
  induction a as [ name | o args IH | arg IH | base metadata IHb IHm
                 | ref_name | info | name doc attributes annotations IH
                 | name doc fields IH | repr ] using ann_ind;
    cbn [ann_eqb]; rewrite ?String.eqb_refl; try reflexivity.
  - destruct (String.eqb o "Union").
    + destruct (members_refl ann_eqb args IH) as [-> ->]. reflexivity.
    + now rewrite (list_eqb_refl _ _ IH).
  - exact IH.
  - now rewrite IHb, (list_eqb_refl _ _ IHm).
  - apply field_info_eqb_refl.
  - rewrite (option_eqb_refl _ _ String.eqb_refl), string_pairs_eqb_refl.
    cbn [andb]. apply list_eqb_refl. eapply Forall_impl; [ exact IH | ].
    intros p Hp. unfold pair_eqb. now rewrite String.eqb_refl, Hp.
  - rewrite (option_eqb_refl _ _ String.eqb_refl).
    cbn [andb]. apply list_eqb_refl. eapply Forall_impl; [ exact IH | ].
    intros p Hp. unfold pair_eqb. now rewrite String.eqb_refl, Hp, default_value_eqb_refl.
Qed.

(** *** The class behind an alias of [typing] *)

Lemma typing_aliases_classes :
  Forall (fun alias =>
            runtime_origin (snd alias) = snd alias
            /\ String.eqb (snd alias) "Union" = false
            /\ String.eqb (fst alias) "Union" = false)
         typing_aliases.
Proof. repeat constructor. Qed.

Lemma runtime_origin_alias o :
  runtime_origin o = o
  \/ exists alias, In alias typing_aliases /\ fst alias = o
                   /\ runtime_origin o = snd alias.
Proof.
  unfold runtime_origin.
  destruct (find (fun alias => String.eqb o (fst alias)) typing_aliases)
    as [ alias | ] eqn:Hf; [ | now left ].
  apply find_some in Hf as [Hin Heq]. apply String.eqb_eq in Heq.
  right. now exists alias.
Qed.

(** The class of a class is that class. *)
Lemma runtime_origin_idem o : runtime_origin (runtime_origin o) = runtime_origin o.
Proof.
  destruct (runtime_origin_alias o) as [ Hrt | (alias & Hin & _ & ->) ];
    [ now rewrite !Hrt | ].
  pose proof typing_aliases_classes as H. rewrite Forall_forall in H.
  apply H. now apply list_elem_of_In.
Qed.

(** No alias stands for [Union], and [Union] is no alias. *)
Lemma runtime_origin_Union o :
  String.eqb (runtime_origin o) "Union" = String.eqb o "Union".
Proof.
  destruct (runtime_origin_alias o) as [ -> | (alias & Hin & <- & ->) ]; [ reflexivity | ].
  pose proof typing_aliases_classes as H. rewrite Forall_forall in H.
  destruct (H alias) as (_ & -> & ->); [ now apply list_elem_of_In | reflexivity ].
Qed.

(** *** Loops in the generator's state *)

Lemma for_each_fixed {A} (f : A -> M A) (l : list A) classes :
  Forall (fun x => f x classes = (Ok x, classes)) l ->
  for_each f l classes = (Ok l, classes).
Proof.
  induction 1 as [ | x l Hx _ IH ]; simpl; [ reflexivity | ].
  unfold bind. rewrite Hx, IH. reflexivity.
Qed.

Lemma for_each_Ok {A B} (f : A -> M B) (l : list A) classes l' classes' :
  for_each f l classes = (Ok l', classes') ->
  Forall2 (fun x y => exists c1 c2, f x c1 = (Ok y, c2)) l l'.
Proof.
  revert classes l'. induction l as [ | x l IH ]; intros classes l' H; simpl in H.
  - injection H as <- _. constructor.
  - unfold bind in H. destruct (f x classes) as [[y | e] c1] eqn:Hx; [ | discriminate ].
    destruct (for_each f l c1) as [[ys | e] c2] eqn:Hl; [ | discriminate ].
    injection H as <- <-. constructor; [ now exists classes, c1 | now apply (IH c1) ].
Qed.

(** *** The equations of the three functions *)

Lemma filter_with_calls (f : ann -> M ann) (l : list ann) :
  List.filter (fun x => is_field_type (fst x)) (map (fun y => (y, f y)) l)
  = map (fun y => (y, f y)) (List.filter is_field_type l).
Proof.
  induction l as [ | y l IH ]; simpl; [ reflexivity | ].
  destruct (is_field_type y); simpl; now rewrite IH.
Qed.

Lemma pick_field_type_calls field_name whole (f : ann -> M ann) (l : list ann) :
  pick_field_type field_name whole (map (fun y => (y, f y)) l)
  = match l with
    | [] => whole
    | _ =>
        match List.filter is_field_type l with
        | [x] => f x
        | _ => raise (AssertionError ("Field " ++ field_name ++ " has multiple types"))
        end
    end.
Proof.
  destruct l as [ | y l ]; [ reflexivity | ].
  unfold pick_field_type. change (map _ (y :: l)) with ((y, f y) :: map (fun y => (y, f y)) l) at 1.
  cbv iota. rewrite (filter_with_calls f (y :: l)).
  destruct (List.filter is_field_type (y :: l)) as [ | x [ | x' l' ] ]; reflexivity.
Qed.

(** [get_field_type], as lines 202 to 224 have it. *)
Lemma get_field_type_eq field_name field_type :
  get_field_type field_name field_type
  = match get_args field_type with
    | [] => change_sub_typed_dicts_to_basemodels field_type
    | args =>
        match List.filter is_field_type args with
        | [x] => change_sub_typed_dicts_to_basemodels x
        | _ => raise (AssertionError ("Field " ++ field_name ++ " has multiple types"))
        end
    end.
Proof.
  unfold get_field_type, change_sub_typed_dicts_to_basemodels.
  destruct field_type as [ | o [ | x args ] | arg | base metadata | | | | | ];
    try reflexivity.
  - exact (pick_field_type_calls field_name (change_of (visit (Generic o (x :: args))))
             (fun y => change_of (visit y)) (x :: args)).
  - exact (pick_field_type_calls field_name (change_of (visit (NotRequired arg)))
             (fun y => change_of (visit y)) [arg]).
  - exact (pick_field_type_calls field_name (change_of (visit (Annotated base metadata)))
             (fun y => change_of (visit y)) (base :: metadata)).
Qed.

(** [field_parser], as lines 384 to 403 have it. *)
Lemma field_parser_eq field_name field_type :
  field_parser field_name field_type
  = match field_is_not_required field_type true with
    | Ok (field_type', is_not_required) =>
        parse_field field_type' is_not_required (get_field_type field_name field_type')
    | Raise e => raise e
    end.
Proof. destruct field_type; reflexivity. Qed.

(** [change_sub_typed_dicts_to_basemodels], as lines 334 to 356 have
    it; for a [TypedDict] the call of [parse_typeddict_to_schema] with
    [return_basemodel=True] is [format_all_annotations] followed by
    [basemodel_of]. *)
Lemma change_sub_typed_dicts_to_basemodels_eq field_type :
  change_sub_typed_dicts_to_basemodels field_type
  = match field_type with
    | TypedDict name doc attributes annotations =>
        fun new_basemodel_classes =>
          match new_basemodel_classes !! name with
          | None =>
              (new_annotations <- format_all_annotations annotations ;;
               let model := basemodel_of name doc attributes new_annotations in
               fun classes => (Ok model, <[name := model]> classes))
                new_basemodel_classes
          | Some model => (Ok model, new_basemodel_classes)
          end
    | _ =>
        match get_origin field_type, get_args field_type with
        | Some o, _ :: _ =>
            args <- for_each change_sub_typed_dicts_to_basemodels (get_args field_type) ;;
            lift (subscript o args)
        | _, _ => ret field_type
        end
    end.
Proof. destruct field_type as [ | o [ | x args ] | | | | | | | ]; reflexivity. Qed.

(** ** Unions *)

Definition flatten_unions (args : list ann) : list ann :=
  flat_map (fun a => if is_union a then get_args a else [a]) args.

Lemma Union_unfold args :
  Union args
  = match remove_dups (flatten_unions args) with
    | [x] => x
    | params => Generic "Union" params
    end.
Proof. reflexivity. Qed.

Lemma remove_dups_In x l : In x (remove_dups l) -> In x l.
Proof.
  revert x. induction l as [ | y l IH ]; simpl; intros x; [ tauto | ].
  intros [ -> | Hin ]; [ now left | ].
  apply filter_In in Hin as [Hin _]. right. now apply IH.
Qed.

Lemma distinct_filter p l : distinct l = true -> distinct (List.filter p l) = true.
Proof.
  induction l as [ | x l IH ]; simpl; [ reflexivity | ].
  intros [Hx Hl]%andb_true_iff. destruct (p x); simpl; [ | now apply IH ].
  rewrite (IH Hl), andb_true_r.
  apply negb_true_iff, not_true_iff_false. intros [y [Hy Heq]]%existsb_exists.
  apply filter_In in Hy as [Hy _].
  apply negb_true_iff, not_true_iff_false in Hx. apply Hx, existsb_exists. eauto.
Qed.

Lemma distinct_remove_dups l : distinct (remove_dups l) = true.
Proof.
  induction l as [ | x l IH ]; simpl; [ reflexivity | ].
  rewrite (distinct_filter _ _ IH), andb_true_r.
  apply negb_true_iff, not_true_iff_false. intros [y [Hy Heq]]%existsb_exists.
  apply filter_In in Hy as [_ Hy]. now rewrite Heq in Hy.
Qed.

Lemma remove_dups_distinct l : distinct l = true -> remove_dups l = l.
Proof.
  induction l as [ | x l IH ]; simpl; [ reflexivity | ].
  intros [Hx Hl]%andb_true_iff. rewrite (IH Hl). f_equal.
  apply negb_true_iff in Hx.
  clear IH Hl. induction l as [ | y l IH ]; simpl in *; [ reflexivity | ].
  apply orb_false_iff in Hx as [Hy Hx]. rewrite Hy. simpl. f_equal. now apply IH.
Qed.

Lemma flatten_unions_plain l :
  forallb (fun a => negb (is_union a)) l = true -> flatten_unions l = l.
Proof.
  unfold flatten_unions. induction l as [ | x l IH ]; simpl; [ reflexivity | ].
  intros [Hx Hl]%andb_true_iff. apply negb_true_iff in Hx. rewrite Hx. simpl.
  f_equal. now apply IH.
Qed.

(** A union whose arguments are as Python keeps them is built as it
    stands. *)
Lemma Union_fixed args : union_args args = true -> Union args = Generic "Union" args.
Proof.
  unfold union_args. intros [[Hu Hd]%andb_true_iff Hn]%andb_true_iff.
  rewrite Union_unfold, (flatten_unions_plain _ Hu), (remove_dups_distinct _ Hd).
  destruct args as [ | x [ | y rest ] ]; try reflexivity. discriminate.
Qed.

Lemma is_union_Generic a :
  is_union a = true -> exists l, a = Generic "Union" l.
Proof.
  destruct a; simpl; try discriminate. intros ->%String.eqb_eq. eauto.
Qed.

Lemma resolved_Union_args l x :
  resolved (Generic "Union" l) = true -> In x l ->
  resolved x = true /\ is_union x = false.
Proof.
  destruct l as [ | y l ]; [ intros _ [] | ].
  intros H Hin. cbn [resolved] in H.
  apply andb_true_iff in H as [[Hr _]%andb_true_iff Hu].
  cbn [String.eqb Ascii.eqb Bool.eqb negb orb] in Hu. unfold union_args in Hu.
  apply andb_true_iff in Hu as [[Hu _]%andb_true_iff _].
  rewrite forallb_forall in Hr, Hu. split; [ now apply Hr | ].
  apply negb_true_iff. now apply Hu.
Qed.

(** What the parameters of a union built from resolved arguments are. *)
Lemma flatten_unions_resolved args x :
  forallb resolved args = true -> In x (remove_dups (flatten_unions args)) ->
  resolved x = true /\ is_union x = false.
Proof.
  intros Hargs Hin%remove_dups_In. rewrite forallb_forall in Hargs.
  apply in_flat_map in Hin as (a & Ha & Hin).
  destruct (is_union a) eqn:Hua.
  - destruct (is_union_Generic _ Hua) as [l ->]. simpl in Hin.
    eapply resolved_Union_args; [ apply Hargs, Ha | exact Hin ].
  - destruct Hin as [ <- | [] ]. split; [ now apply Hargs | exact Hua ].
Qed.

Lemma Union_resolved args : forallb resolved args = true -> resolved (Union args) = true.
Proof.
  intros Hargs. rewrite Union_unfold.
  pose proof (flatten_unions_resolved args) as Hel.
  pose proof (distinct_remove_dups (flatten_unions args)) as Hd.
  destruct (remove_dups (flatten_unions args)) as [ | x [ | y rest ] ] eqn:Hparams.
  - reflexivity.
  - apply Hel; [ exact Hargs | now left ].
  - cbn [resolved]. apply andb_true_iff. split.
    + apply andb_true_iff. split; [ | reflexivity ].
      apply forallb_forall. intros z Hz. now apply Hel.
    + apply orb_true_iff. right. unfold union_args. rewrite Hd.
      apply andb_true_iff. split; [ | reflexivity ].
      apply andb_true_iff. split; [ | reflexivity ].
      apply forallb_forall. intros z Hz. apply negb_true_iff. now apply Hel.
Qed.

Lemma plain_Union_args l x :
  plain (Generic "Union" l) = true -> In x l -> plain x = true.
Proof. simpl. rewrite forallb_forall. auto. Qed.

Lemma Union_plain args : forallb plain args = true -> plain (Union args) = true.
Proof.
  intros Hargs. rewrite Union_unfold. rewrite forallb_forall in Hargs.
  assert (Hel : forall x, In x (remove_dups (flatten_unions args)) -> plain x = true).
  { intros x Hin%remove_dups_In. apply in_flat_map in Hin as (a & Ha & Hin).
    destruct (is_union a) eqn:Hua.
    - destruct (is_union_Generic _ Hua) as [l ->].
      eapply plain_Union_args; [ apply Hargs, Ha | exact Hin ].
    - destruct Hin as [ <- | [] ]. now apply Hargs. }
  destruct (remove_dups (flatten_unions args)) as [ | x [ | y rest ] ].
  - reflexivity.
  - apply Hel. now left.
  - simpl. apply andb_true_iff. split; [ apply Hel; now left | ].
    apply andb_true_iff. split; [ apply Hel; right; now left | ].
    apply forallb_forall. intros z Hz. apply Hel. right. now right.
Qed.

Lemma Optional_resolved t : resolved t = true -> resolved (Optional t) = true.
Proof. intros H. apply Union_resolved. simpl. now rewrite H. Qed.

Lemma Optional_plain t : plain t = true -> plain (Optional t) = true.
Proof. intros H. apply Union_plain. simpl. now rewrite H. Qed.

(** ** What a call ensures

    [ensures m Post]: from a dict of models, [m] leaves a dict of models,
    and what it returns satisfies [Post]. *)
Definition ensures {A} (m : M A) (Post : A -> Prop) : Prop :=
  forall classes r classes',
    holds_models classes -> m classes = (r, classes') ->
    holds_models classes' /\ forall a, r = Ok a -> Post a.

Lemma ensures_ret {A} (a : A) (Post : A -> Prop) : Post a -> ensures (ret a) Post.
Proof. intros H c r c' Hc [= <- <-]. split; [ exact Hc | now intros ? [= <-] ]. Qed.

Lemma ensures_raise {A} e (Post : A -> Prop) : ensures (raise e) Post.
Proof. intros c r c' Hc [= <- <-]. split; [ exact Hc | discriminate ]. Qed.

Lemma ensures_lift {A} (r : result A) (Post : A -> Prop) :
  (forall a, r = Ok a -> Post a) -> ensures (lift r) Post.
Proof. intros H c r' c' Hc [= <- <-]. split; [ exact Hc | exact H ]. Qed.

Lemma ensures_bind {A B} (m : M A) (f : A -> M B) (Q : A -> Prop) (Post : B -> Prop) :
  ensures m Q -> (forall a, Q a -> ensures (f a) Post) -> ensures (bind m f) Post.
Proof.
  intros Hm Hf c r c' Hc H. unfold bind in H.
  destruct (m c) as [[a | e] c1] eqn:Hmc.
  - destruct (Hm _ _ _ Hc Hmc) as [Hc1 Ha]. eapply Hf; eauto.
  - injection H as <- <-. destruct (Hm _ _ _ Hc Hmc) as [Hc1 _].
    split; [ exact Hc1 | discriminate ].
Qed.

Lemma ensures_weaken {A} (m : M A) (P Q : A -> Prop) :
  ensures m P -> (forall a, P a -> Q a) -> ensures m Q.
Proof.
  intros Hm HPQ c r c' Hc H. destruct (Hm _ _ _ Hc H) as [Hc' Ha].
  split; [ exact Hc' | intros a Hr; apply HPQ, Ha, Hr ].
Qed.

Lemma ensures_for_each {A B} (f : A -> M B) (Q : A -> B -> Prop) (l : list A) :
  Forall (fun x => ensures (f x) (Q x)) l -> ensures (for_each f l) (Forall2 Q l).
Proof.
  induction 1 as [ | x l Hx _ IH ]; simpl.
  - apply ensures_ret. constructor.
  - eapply ensures_bind; [ exact Hx | ]. intros y Hy.
    eapply ensures_bind; [ exact IH | ]. intros ys Hys.
    apply ensures_ret. now constructor.
Qed.

Lemma holds_models_insert classes name model :
  holds_models classes -> is_model model = true ->
  holds_models (<[name := model]> classes).
Proof.
  intros Hc Hm n a. destruct (decide (name = n)) as [ <- | Hne ].
  - rewrite lookup_insert_eq. now intros [= <-].
  - rewrite lookup_insert_ne by assumption. apply Hc.
Qed.

Lemma holds_models_empty : holds_models ∅.
Proof. intros n a. now rewrite lookup_empty. Qed.

Lemma parse_AsRef_ensures t info ref_name :
  ensures (parse_AsRef t info ref_name) (fun model => is_model model = true).
Proof.
  intros c r c' Hc H. unfold parse_AsRef in H.
  destruct (c !! ref_name) as [ cached | ] eqn:Hlook.
  - assert (Hsame : c' = c /\ forall a, r = Ok a -> a = cached).
    { destruct (annotation_of cached "__root__") as [ g | e ];
        [ | injection H as <- <-; split; [ reflexivity | discriminate ] ].
      destruct (get_args (Annotated_ t _)) as [ | x ? ];
        [ injection H as <- <-; split; [ reflexivity | discriminate ] | ].
      destruct (get_args g) as [ | y ? ];
        [ injection H as <- <-; split; [ reflexivity | discriminate ] | ].
      destruct (ann_eqb x y); injection H as <- <-;
        (split; [ reflexivity | intros a [= <-] || discriminate ]); reflexivity. }
    destruct Hsame as [-> Hr]. split; [ exact Hc | ].
    intros a Ha. rewrite (Hr a Ha). eapply Hc, Hlook.
  - injection H as <- <-. split; [ now apply holds_models_insert | ].
    now intros a [= <-].
Qed.

Lemma is_model_resolved a : is_model a = true -> resolved a = true /\ plain a = true.
Proof. destruct a; simpl; try discriminate. now split. Qed.

Lemma plain_is_field_type a : plain a = true -> is_field_type a = true.
Proof. destruct a; simpl; try discriminate; reflexivity. Qed.

Lemma plain_not_annotated a : plain a = true -> is_annotated a = false.
Proof. destruct a; simpl; try discriminate; reflexivity. Qed.

Lemma Annotated__plain t metadata :
  plain t = true -> Annotated_ t metadata = Annotated t metadata.
Proof. destruct t; simpl; try discriminate; reflexivity. Qed.

(** *** What the three functions ensure *)

Definition change_ensures (a : ann) : Prop :=
  ensures (change_sub_typed_dicts_to_basemodels a)
    (fun a' => resolved a' = true /\ (plain a = true -> plain a' = true)).

Definition get_field_type_ensures (a : ann) : Prop :=
  forall field_name,
    ensures (get_field_type field_name a)
      (fun t => resolved t = true /\ (as_assumed a = true -> plain t = true)).

Definition field_parser_ensures (a : ann) : Prop :=
  forall field_name,
    ensures (field_parser field_name a)
      (fun a' => declared_as_assumed a = true -> normalized a' = true).

Lemma get_field_type_from_change a :
  change_ensures a -> Forall change_ensures (get_args a) -> get_field_type_ensures a.
Proof.
  intros Hself Hargs field_name. rewrite get_field_type_eq.
  destruct (get_args a) as [ | y args ] eqn:Hget.
  - eapply ensures_weaken; [ exact Hself | ].
    intros t [Hr Hp]. split; [ exact Hr | ]. intros Has. apply Hp.
    destruct a; simpl in *; try discriminate; try exact Has;
      now apply andb_true_iff in Has as [Has _].
  - destruct (List.filter is_field_type (y :: args)) as [ | x [ | x' l ] ] eqn:Hf;
      try apply ensures_raise.
    assert (Hx : In x (y :: args)).
    { eapply (proj1 (filter_In is_field_type x (y :: args))). rewrite Hf. now left. }
    rewrite Forall_forall in Hargs.
    eapply ensures_weaken; [ rewrite <- list_elem_of_In in Hx; exact (Hargs x Hx) | ].
    intros t [Hr Hp]. split; [ exact Hr | ]. intros Has. apply Hp.
    destruct a; simpl in Has, Hget; try discriminate;
      try (apply andb_true_iff in Has as [_ Has]; rewrite Hget in Has; discriminate).
    injection Hget as <- <-. simpl in Hf. rewrite (plain_is_field_type _ Has) in Hf.
    now injection Hf as <- _.
Qed.

Lemma parse_field_ensures field_type is_not_required get_type :
  ensures get_type
    (fun t => resolved t = true /\ (as_assumed field_type = true -> plain t = true)) ->
  ensures (parse_field field_type is_not_required get_type)
    (fun a' => as_assumed field_type = true -> normalized a' = true).
Proof.
  intros Hget. unfold parse_field.
  destruct (get_annotation_contents field_type) as [as_ref info].
  eapply ensures_bind; [ exact Hget | ]. intros t [Hr Hp].
  eapply (ensures_bind _ _
            (fun p => resolved (fst p) = true
                      /\ (as_assumed field_type = true -> plain (fst p) = true))).
  - destruct as_ref as [ ref_name | ].
    + eapply ensures_bind; [ apply parse_AsRef_ensures | ].
      intros model Hm. apply ensures_ret. simpl.
      destruct (is_model_resolved _ Hm). now split.
    + apply ensures_ret. now split.
  - intros [t' info'] [Hr' Hp']. simpl in *. apply ensures_ret. intros Has.
    specialize (Hp' Has).
    destruct is_not_required.
    + rewrite Annotated__plain by now apply Optional_plain.
      simpl. now rewrite Optional_resolved, Optional_plain.
    + rewrite Annotated__plain by assumption. simpl. now rewrite Hr', Hp'.
Qed.

Lemma field_parser_from_get_field_type a :
  get_field_type_ensures a ->
  (forall arg, a = NotRequired arg -> get_field_type_ensures arg) ->
  field_parser_ensures a.
Proof.
  intros Hself Harg field_name. rewrite field_parser_eq.
  destruct a; try (apply parse_field_ensures, Hself).
  simpl. apply parse_field_ensures, (Harg a eq_refl).
Qed.

Lemma resolved_Generic o args :
  forallb resolved args = true -> runtime_origin o = o ->
  String.eqb o "Union" = false ->
  resolved (Generic o args) = true.
Proof.
  intros Hargs Hrt Ho. destruct args as [ | x args ]; [ reflexivity | ].
  cbn [resolved]. now rewrite Hargs, Hrt, String.eqb_refl, Ho.
Qed.

Lemma Forall2_resolved (l l' : list ann) :
  Forall2 (fun a a' => resolved a' = true /\ (plain a = true -> plain a' = true)) l l' ->
  forallb resolved l' = true /\ (forallb plain l = true -> forallb plain l' = true).
Proof.
  induction 1 as [ | a a' l l' [Hr Hp] _ [IHr IHp] ]; simpl; [ now split | ].
  rewrite Hr, IHr. split; [ reflexivity | ].
  intros [Ha Hl]%andb_true_iff. now rewrite Hp, IHp.
Qed.

Lemma resolved_Annotated_ b metadata m :
  resolved b = true -> forallb resolved (m :: metadata) = true ->
  resolved (Annotated_ b (m :: metadata)) = true.
Proof.
  intros Hb Hm. destruct b; simpl in *; try discriminate;
    try (rewrite ?Hb; apply andb_true_iff in Hm as [-> ->]; reflexivity).
  apply andb_true_iff in Hb as [[[Hb1 Hb2]%andb_true_iff Hb3]%andb_true_iff Hb4].
  rewrite Hb1, Hb3, forallb_app, Hb2. simpl. simpl in Hm. rewrite Hm.
  now destruct metadata0.
Qed.

(** A generic rebuilt under its class from rebuilt arguments. *)
Lemma subscript_Generic_resolved o (args args' : list ann) a' :
  Forall2 (fun a a' => resolved a' = true /\ (plain a = true -> plain a' = true))
    args args' ->
  subscript (OGeneric (runtime_origin o)) args' = Ok a' ->
  resolved a' = true /\ (plain (Generic o args) = true -> plain a' = true).
Proof.
  intros H2 [= <-]. apply Forall2_resolved in H2 as [Hr Hp].
  rewrite runtime_origin_Union. destruct (String.eqb o "Union") eqn:Ho.
  - split; [ now apply Union_resolved | ].
    intros Hpl. apply Union_plain, Hp. simpl in Hpl. now rewrite Ho in Hpl.
  - split.
    + apply resolved_Generic; [ exact Hr | apply runtime_origin_idem | ].
      now rewrite runtime_origin_Union.
    + intros _. cbn [plain]. now rewrite runtime_origin_Union, Ho.
Qed.

Lemma subscript_Annotated_resolved base metadata (args' : list ann) a' :
  Forall2 (fun a a' => resolved a' = true /\ (plain a = true -> plain a' = true))
    (base :: metadata) args' ->
  subscript OAnnotated args' = Ok a' ->
  resolved a' = true.
Proof.
  intros H2 Hsub. apply Forall2_resolved in H2 as [Hr _].
  destruct args' as [ | b' [ | m ms ] ]; try discriminate.
  injection Hsub as <-.
  simpl in Hr. apply andb_true_iff in Hr as [Hb Hm].
  now apply resolved_Annotated_.
Qed.

Lemma change_ensures_args o (args : list ann) (Post : ann -> Prop) :
  Forall change_ensures args ->
  (forall args',
      Forall2 (fun a a' => resolved a' = true /\ (plain a = true -> plain a' = true))
        args args' ->
      forall a', subscript o args' = Ok a' -> Post a') ->
  ensures (args' <- for_each change_sub_typed_dicts_to_basemodels args ;;
           lift (subscript o args')) Post.
Proof.
  intros Hargs Hpost.
  eapply ensures_bind; [ apply ensures_for_each, Hargs | ].
  intros args' H2. apply ensures_lift. now apply Hpost.
Qed.


Lemma format_all_annotations_ensures (annotations : list (string * ann)) :
  Forall (fun f => field_parser_ensures (snd f)) annotations ->
  ensures (format_all_annotations annotations)
    (Forall2 (fun f f' => fst f' = fst f
                          /\ (declared_as_assumed (snd f) = true ->
                              normalized (snd f') = true)) annotations).
Proof.
  intros H. apply ensures_for_each. eapply Forall_impl; [ exact H | ].
  intros [n a] Hf. simpl in *.
  eapply ensures_bind; [ apply Hf | ]. intros t Ht. apply ensures_ret. now split.
Qed.

Ltac visit_parts Hc Hg :=
  split; [ exact Hc | split; [ exact Hg | ] ];
  apply field_parser_from_get_field_type; [ exact Hg | ].

(** The three functions keep [new_basemodel_classes] a dict of models;
    [change_sub_typed_dicts_to_basemodels] returns a resolved annotation,
    and [field_parser] a normalized one when the field is declared as
    the generator assumes. *)
Lemma visit_ensures a :
  change_ensures a /\ get_field_type_ensures a /\ field_parser_ensures a.
Proof.
  induction a as [ name | o args IH | arg IH | base metadata IHb IHm
                 | ref_name | info | name doc attributes annotations IH
                 | name doc fields IH | repr ] using ann_ind.
  - assert (Hc : change_ensures (Cls name)) by (apply ensures_ret; now split).
    assert (Hg : get_field_type_ensures (Cls name))
      by (apply get_field_type_from_change; [ exact Hc | constructor ]).
    visit_parts Hc Hg; discriminate.
  - assert (Hargs : Forall change_ensures args)
      by (eapply Forall_impl; [ exact IH | now intros ? [? _] ]).
    assert (Hc : change_ensures (Generic o args)).
    { unfold change_ensures. rewrite change_sub_typed_dicts_to_basemodels_eq.
      destruct args as [ | x args ]; [ apply ensures_ret; now split | ].
      cbn [get_origin get_args]. apply change_ensures_args; [ exact Hargs | ].
      intros args' H2 a' Hsub. exact (subscript_Generic_resolved _ _ _ _ H2 Hsub). }
    assert (Hg : get_field_type_ensures (Generic o args))
      by (apply get_field_type_from_change; [ exact Hc | exact Hargs ]).
    visit_parts Hc Hg; discriminate.
  - destruct IH as (IHc & IHg & IHf).
    assert (Hc : change_ensures (NotRequired arg)).
    { unfold change_ensures. rewrite change_sub_typed_dicts_to_basemodels_eq.
      cbn [get_origin get_args]. apply change_ensures_args; [ now constructor | ].
      intros args' _ a' [=]. }
    assert (Hg : get_field_type_ensures (NotRequired arg))
      by (apply get_field_type_from_change; [ exact Hc | now constructor ]).
    visit_parts Hc Hg. now intros ? [= <-].
  - destruct IHb as (IHc & IHg & IHf).
    assert (Hargs : Forall change_ensures (base :: metadata)).
    { constructor; [ exact IHc | ]. eapply Forall_impl; [ exact IHm | now intros ? [? _] ]. }
    assert (Hc : change_ensures (Annotated base metadata)).
    { unfold change_ensures. rewrite change_sub_typed_dicts_to_basemodels_eq.
      cbn [get_origin get_args]. apply change_ensures_args; [ exact Hargs | ].
      intros args' H2 a' Hsub. split; [ | discriminate ].
      exact (subscript_Annotated_resolved _ _ _ _ H2 Hsub). }
    assert (Hg : get_field_type_ensures (Annotated base metadata))
      by (apply get_field_type_from_change; [ exact Hc | exact Hargs ]).
    visit_parts Hc Hg; discriminate.
  - assert (Hc : change_ensures (AsRef ref_name)) by (apply ensures_ret; now split).
    assert (Hg : get_field_type_ensures (AsRef ref_name))
      by (apply get_field_type_from_change; [ exact Hc | constructor ]).
    visit_parts Hc Hg; discriminate.
  - assert (Hc : change_ensures (FieldInfo info)) by (apply ensures_ret; now split).
    assert (Hg : get_field_type_ensures (FieldInfo info))
      by (apply get_field_type_from_change; [ exact Hc | constructor ]).
    visit_parts Hc Hg; discriminate.
  - assert (Hfs : Forall (fun f => field_parser_ensures (snd f)) annotations)
      by (eapply Forall_impl; [ exact IH | now intros ? (_ & _ & ?) ]).
    assert (Hc : change_ensures (TypedDict name doc attributes annotations)).
    { unfold change_ensures. rewrite change_sub_typed_dicts_to_basemodels_eq.
      intros c r c' Hcl H.
      destruct (c !! name) as [ model | ] eqn:Hlook.
      - injection H as <- <-. split; [ exact Hcl | ]. intros a' [= <-].
        destruct (is_model_resolved model (Hcl _ _ Hlook)). now split.
      - revert c r c' Hcl H Hlook.
        assert (He : ensures
                       (new_annotations <- format_all_annotations annotations ;;
                        let model := basemodel_of name doc attributes new_annotations in
                        fun classes => (Ok model, <[name := model]> classes))
                       (fun a' => resolved a' = true
                                  /\ (plain (TypedDict name doc attributes annotations) = true
                                      -> plain a' = true))).
        { eapply ensures_bind; [ apply format_all_annotations_ensures, Hfs | ].
          intros new _ c r c' Hcl [= <- <-].
          split; [ now apply holds_models_insert | ]. now intros a' [= <-]. }
        intros c r c' Hcl H _. exact (He c r c' Hcl H). }
    assert (Hg : get_field_type_ensures (TypedDict name doc attributes annotations))
      by (apply get_field_type_from_change; [ exact Hc | constructor ]).
    visit_parts Hc Hg; discriminate.
  - assert (Hc : change_ensures (BaseModel name doc fields))
      by (apply ensures_ret; now split).
    assert (Hg : get_field_type_ensures (BaseModel name doc fields))
      by (apply get_field_type_from_change; [ exact Hc | constructor ]).
    visit_parts Hc Hg; discriminate.
  - assert (Hc : change_ensures (PyObject repr)) by (apply ensures_ret; now split).
    assert (Hg : get_field_type_ensures (PyObject repr))
      by (apply get_field_type_from_change; [ exact Hc | constructor ]).
    visit_parts Hc Hg; discriminate.
Qed.

(** *** Annotations the generator leaves as they are *)

Lemma for_each_change_fixed (args : list ann) classes :
  Forall (fun a => resolved a = true ->
                   forall c, change_sub_typed_dicts_to_basemodels a c = (Ok a, c)) args ->
  forallb resolved args = true ->
  for_each change_sub_typed_dicts_to_basemodels args classes = (Ok args, classes).
Proof.
  intros IH Hr. apply for_each_fixed.
  rewrite forallb_forall in Hr. rewrite Forall_forall in IH |- *.
  intros a Ha. apply IH; [ exact Ha | ]. apply Hr. now apply list_elem_of_In.
Qed.

(** A resolved annotation comes back unchanged, and the dict of models
    is neither read nor written. *)
Lemma resolved_fixed a :
  resolved a = true ->
  forall classes, change_sub_typed_dicts_to_basemodels a classes = (Ok a, classes).
Proof.
  induction a as [ name | o args IH | arg IH | base metadata IHb IHm
                 | ref_name | info | name doc attributes annotations IH
                 | name doc fields IH | repr ] using ann_ind;
    intros Hr classes; try discriminate; try reflexivity.
  - rewrite change_sub_typed_dicts_to_basemodels_eq.
    destruct args as [ | x args ]; [ reflexivity | ].
    cbn [resolved] in Hr.
    apply andb_true_iff in Hr as [[Hargs Hrt%String.eqb_eq]%andb_true_iff Hu].
    cbn [get_origin get_args]. unfold bind.
    rewrite (for_each_change_fixed _ _ IH Hargs), Hrt. unfold lift, subscript.
    destruct (String.eqb o "Union") eqn:Ho; [ | reflexivity ].
    simpl in Hu. apply String.eqb_eq in Ho as ->. now rewrite (Union_fixed _ Hu).
  - rewrite change_sub_typed_dicts_to_basemodels_eq.
    cbn [resolved] in Hr.
    apply andb_true_iff in Hr as [[[Hb Hm]%andb_true_iff Hna]%andb_true_iff Hne].
    cbn [get_origin get_args]. unfold bind.
    rewrite (for_each_change_fixed (base :: metadata) classes).
    + unfold lift, subscript. destruct metadata as [ | m ms ]; [ discriminate | ].
      apply negb_true_iff in Hna. destruct base; try discriminate; reflexivity.
    + constructor; [ exact IHb | exact IHm ].
    + simpl. now rewrite Hb, Hm.
Qed.



Lemma get_annotation_contents_normalized t info :
  is_field_type t = true ->
  get_annotation_contents (Annotated t [FieldInfo info]) = (None, info).
Proof. destruct t; simpl; try discriminate; reflexivity. Qed.

(** A normalized annotation goes through [field_parser] unchanged, and
    the dict of models is neither read nor written. *)
Lemma field_parser_normalized field_name a :
  normalized a = true ->
  forall classes, field_parser field_name a classes = (Ok a, classes).
Proof.
  destruct a as [ | | | t [ | [ | | | | | info | | | ] [ | ] ] | | | | | ];
    try discriminate.
  intros [Hr Hp]%andb_true_iff classes.
  pose proof (plain_is_field_type _ Hp) as Hft.
  rewrite field_parser_eq. cbn [field_is_not_required get_origin].
  unfold parse_field. rewrite (get_annotation_contents_normalized _ _ Hft).
  rewrite get_field_type_eq. cbn [get_args List.filter].
  rewrite Hft. cbn [is_field_type existsb isinstance_of ALLOWED_ANNOTATION_ELEMENTS negb orb].
  unfold bind. rewrite (resolved_fixed _ Hr). unfold ret. cbn [fst snd].
  now rewrite (Annotated__plain _ _ Hp).
Qed.

Lemma format_all_annotations_normalized (annotations : list (string * ann)) classes :
  forallb (fun f => normalized (snd f)) annotations = true ->
  format_all_annotations annotations classes = (Ok annotations, classes).
Proof.
  intros H. unfold format_all_annotations. apply for_each_fixed.
  rewrite forallb_forall in H. apply Forall_forall. intros [n a] Hin. simpl.
  unfold bind. rewrite field_parser_normalized; [ reflexivity | ].
  apply (H (n, a)). now apply list_elem_of_In.
Qed.

(** After [format_all_annotations] the fields have their names, in
    order, and normalized annotations where they were declared as
    assumed. *)
Lemma format_all_annotations_Ok (annotations new_annotations : list (string * ann))
    classes classes' :
  holds_models classes ->
  format_all_annotations annotations classes = (Ok new_annotations, classes') ->
  holds_models classes'
  /\ map fst new_annotations = map fst annotations
  /\ (forallb (fun f => declared_as_assumed (snd f)) annotations = true ->
      forallb (fun f => normalized (snd f)) new_annotations = true).
Proof.
  intros Hc H.
  destruct (format_all_annotations_ensures annotations
              (proj2 (Forall_forall _ _) (fun f _ => proj2 (proj2 (visit_ensures (snd f)))))
              _ _ _ Hc H) as [Hc' H2].
  specialize (H2 _ eq_refl). split; [ exact Hc' | ].
  clear H. induction H2 as [ | f f' l l' [Hn Ha] _ [IHn IHa] ]; simpl; [ now split | ].
  rewrite Hn, IHn. split; [ reflexivity | ].
  intros [Hf Hl]%andb_true_iff. now rewrite Ha, IHa.
Qed.

(** ** Fields wrapped in [NotRequired] *)








(** The fields after [format_all_annotations] are the fields before,
    each with what [field_parser] has returned for it. *)
Lemma format_all_annotations_fields (annotations new_annotations : list (string * ann))
    classes classes' :
  format_all_annotations annotations classes = (Ok new_annotations, classes') ->
  Forall2 (fun f f' => fst f' = fst f
                       /\ exists c1 c2, field_parser (fst f) (snd f) c1 = (Ok (snd f'), c2))
          annotations new_annotations.
Proof.
  intros H. apply for_each_Ok in H.
  eapply Forall2_impl; [ exact H | ].
  intros [n a] [n' a'] (c1 & c2 & Hf). simpl in *. unfold bind in Hf.
  destruct (field_parser n a c1) as [[t | e] c3] eqn:Hp; [ | discriminate ].
  injection Hf as <- <- <-. split; [ reflexivity | eauto ].
Qed.


(** ** The command line *)

(** C9 as the specification words it: the output directory is a
    positional argument, so [prog DIR] runs the generator on [DIR]. *)
Definition positional_out_dir_as_stated : Prop :=
  forall dir, starts_with_dash dir = false ->
    exists out_dir, parse_args [dir] = Ok out_dir.

(** C9, as stated, fails: the parser declares no positional argument,
    and [prog out] ends with status 2. *)
Lemma positional_out_dir_rejected : ~ positional_out_dir_as_stated.
Proof.
  intros H. destruct (H "out" eq_refl) as [out_dir Hout]. discriminate Hout.
Qed.

Lemma classify_plain arg : starts_with_dash arg = false -> classify arg = Plain.
Proof. unfold classify. now intros ->. Qed.

Lemma not_double_dash arg : starts_with_dash arg = false -> String.eqb arg "--" = false.
Proof. destruct arg as [ | c arg ]; [ reflexivity | ]. simpl.
  destruct c as [[] [] [] [] [] [] [] []]; try reflexivity; discriminate. Qed.

(** C9, amended: the entry point takes the output directory as the
    value of the one option it declares, [--schema_out_directory]; when
    the option is omitted the directory is the fixed package-relative
    path; it declares no positional argument, and an argument given
    without the option ends the program with status 2. *)
Theorem out_dir_is_an_option :
  parse_args [] = Ok SCHEMA_OUT_DIR
  /\ (forall dir, starts_with_dash dir = false ->
        parse_args ["--schema_out_directory"; dir] = Ok (StrDir dir))
  /\ (forall dir, starts_with_dash dir = false ->
        parse_args [dir] = Raise (SystemExit 2)).
Proof.
  split; [ reflexivity | split ]; intros dir Hdir; unfold parse_args.
  - cbn -[classify is_plain String.eqb]. cbn [String.eqb Ascii.eqb Bool.eqb].
    change (classify "--schema_out_directory") with (OutDirectory None). cbv iota.
    unfold is_plain. now rewrite (classify_plain _ Hdir).
  - cbn -[classify String.eqb].
    now rewrite (not_double_dash _ Hdir), (classify_plain _ Hdir).
Qed.

(** The theorem at [prog --schema_out_directory out]. *)
Lemma out_dir_is_an_option_out :
  parse_args ["--schema_out_directory"; "out"] = Ok (StrDir "out").
Proof. exact (proj1 (proj2 out_dir_is_an_option) "out" eq_refl). Defined.

(** ** The default value of [new_basemodel_classes] *)

Section SharedDefault.

Variable schema : ann -> dict.

Lemma render_classes_after typed_dict model out_dir sort classes :
  classes_after (render schema typed_dict model out_dir sort classes) = classes.
Proof.
  unfold render. destruct (strip_newline_literal (schema model)); [ | reflexivity ].
  destruct (if sort then _ else _); [ | reflexivity ].
  destruct out_dir as [ | dir | [ | c s ] | dir ]; try reflexivity;
    destruct (dict_get "title" _); reflexivity.
Qed.

(** The dict of models after a call is the dict after
    [format_all_annotations], and so is an exception raised there. *)
Lemma parse_typeddict_to_schema_classes typed_dict out_dir return_basemodel
    classes sort :
  classes_after
    (parse_typeddict_to_schema schema typed_dict out_dir return_basemodel classes sort)
  = snd (format_all_annotations (td_annotations typed_dict) classes).
Proof.
  unfold parse_typeddict_to_schema.
  destruct (format_all_annotations _ classes) as [[new | e] classes']; [ | reflexivity ].
  destruct return_basemodel; [ reflexivity | apply render_classes_after ].
Qed.

Lemma parse_typeddict_to_schema_raise typed_dict out_dir return_basemodel
    classes sort e classes' :
  format_all_annotations (td_annotations typed_dict) classes = (Raise e, classes') ->
  returned
    (parse_typeddict_to_schema schema typed_dict out_dir return_basemodel classes sort)
  = Raise e.
Proof. unfold parse_typeddict_to_schema. now intros ->. Qed.

(** ** Reference names *)

(** C2 fails on the code: the dict of models is keyed by the names of
    nested declarations and by reference names alike.  Two fields tagged
    [AsRef("R")], both of type [int], share one wrapper model, which the
    dict holds under [R].  In [name_clash] the same two fields come
    after a field of the nested declaration [R]: that one is made a
    model first and stored under [R]; the field tagged [AsRef("R")] then
    finds it under the name, asks it for [__annotations__["__root__"]],
    and the run ends in a [KeyError] on ["__root__"], with no wrapper
    shared and no reference-name conflict reported. *)
Theorem reference_name_clash out_dir return_basemodel sort :
  (exists wrapper,
      is_model wrapper = true
      /\ format_all_annotations tagged_R ∅
         = (Ok [("a", Annotated wrapper [FieldInfo Field]);
                ("b", Annotated wrapper [FieldInfo Field])],
            <["R" := wrapper]> ∅))
  /\ returned
       (parse_typeddict_to_schema schema name_clash out_dir return_basemodel ∅ sort)
     = Raise (KeyError "__root__").
Proof.
  split.
  - eexists. split; [ | vm_compute; reflexivity ]. reflexivity.
  - eapply parse_typeddict_to_schema_raise. vm_compute. reflexivity.
Qed.

(** ** The default value of [new_basemodel_classes], shared *)

(** C8 fails on the code: the calls of [generate_all_schema] give no
    [new_basemodel_classes], so each works on the one dict that is the
    parameter's default value.  After the call for [document_A] that
    dict holds the wrapper made for [AsRef("R")] on [int]; the call for
    [document_B], which uses [AsRef("R")] on [str], starts with it and
    ends in the reference-name conflict, though [document_B] from an
    empty dict normalizes without an exception. *)
Theorem default_classes_shared :
  let first := parse_typeddict_to_schema schema document_A NoDir false ∅ true in
  classes_after first !! "R"
  = Some (create_model "R"
            [("__root__", (Annotated int [FieldInfo Field], DefaultNone))])
  /\ returned
       (parse_typeddict_to_schema schema document_B NoDir false
          (classes_after first) true)
     = Raise (AssertionError "Fields with type AsRef(R) have differing types")
  /\ fst (format_all_annotations (td_annotations document_B) ∅)
     = Ok [("id",
            Annotated
              (create_model "R"
                 [("__root__", (Annotated str [FieldInfo Field], DefaultNone))])
              [FieldInfo Field])].
Proof.
  cbv zeta. rewrite parse_typeddict_to_schema_classes. split; [ | split ].
  - vm_compute. reflexivity.
  - eapply parse_typeddict_to_schema_raise. vm_compute. reflexivity.
  - vm_compute. reflexivity.
Qed.

End SharedDefault.

(** The same in [generate_all_schema], with the sample renderer: the
    batch over [document_A] and [document_B] ends in the conflict at the
    second document. *)
Lemma generate_all_schema_conflict :
  fst (generate_all_schema sample_schema NoDir
         {| default_classes := ∅; documents := [document_A; document_B]; files := [] |})
  = Raise (AssertionError "Fields with type AsRef(R) have differing types").
Proof. vm_compute. reflexivity. Qed.

(** ** Sorting twice *)

Lemma update_values_idem f (d d' : dict) :
  Forall (fun kv => forall x', f (fst kv) (snd kv) = Ok x' -> f (fst kv) x' = Ok x') d ->
  update_values f d = Ok d' -> update_values f d' = Ok d'.
Proof.
  intros H. revert d'. induction H as [ | [k x] d Hx _ IH ]; intros d' Hd; simpl in Hd.
  - now injection Hd as <-.
  - simpl in Hx. destruct (f k x) as [ x' | e ] eqn:Hf; [ | discriminate ]. simpl in Hd.
    destruct (update_values f d) as [ rest' | e ]; [ | discriminate ].
    injection Hd as <-. simpl. rewrite (Hx _ eq_refl). simpl.
    now rewrite (IH _ eq_refl).
Qed.

Lemma sort_jsonschema_value_idem x x' :
  sort_jsonschema_value x = Ok x' -> sort_jsonschema_value x' = Ok x'.
Proof.
  revert x'. induction x as [ | | | | | items _ | entries IH ] using value_ind; intros x' H;
    try (injection H as <-; reflexivity).
  simpl in H.
  destruct (update_values (sort_step sort_jsonschema_value) entries) as [ d' | e ] eqn:Hd;
    [ | discriminate ].
  injection H as <-. simpl.
  rewrite (update_values_idem _ entries d'); [ reflexivity | | exact Hd ].
  eapply Forall_impl; [ exact IH | ]. intros [k x] Hx y Hy. simpl in *.
  unfold sort_step in *. destruct (String.eqb k "properties").
  - destruct x; try discriminate. injection Hy as <-. now rewrite sorted_items_idem.
  - destruct x; try (injection Hy as <-; reflexivity).
    pose proof (Hx _ Hy) as Hy'. simpl in Hy.
    destruct (update_values _ entries0); [ | discriminate ]. injection Hy as <-.
    exact Hy'.
Qed.

Lemma sort_jsonschema_idem (d d' : dict) :
  sort_jsonschema d = Ok d' -> sort_jsonschema d' = Ok d'.
Proof.
  intros H. pose proof (sort_jsonschema_value_idem (VDict d) (VDict d')) as Hv.
  simpl in Hv. unfold sort_jsonschema in *. rewrite H in Hv.
  specialize (Hv eq_refl). now destruct (update_values _ d') as [ d'' | e ]; inversion Hv.
Qed.

(** ** The fragment, after a run has sorted it in place *)

Abbreviation sort_value := (sort_step sort_jsonschema_value).

(** Two dicts with the same keys, in order, whose values are sorted to
    the same. *)
Definition same_sorted (d' d : dict) : Prop :=
  Forall2 (fun e' e => fst e' = fst e
                       /\ sort_value (fst e) (snd e') = sort_value (fst e) (snd e))
          d' d.

Lemma same_sorted_refl d : same_sorted d d.
Proof. induction d; constructor; [ now split | assumption ]. Qed.

Lemma same_sorted_update (d' d : dict) :
  same_sorted d' d -> update_values sort_value d' = update_values sort_value d.
Proof.
  induction 1 as [ | [k' x'] [k x] d' d [Hk Hx] _ IH ]; [ reflexivity | ].
  simpl in *. subst k'. now rewrite Hx, IH.
Qed.

Lemma same_sorted_set key x' x (d' d : dict) :
  same_sorted d' d ->
  sort_value key x' = sort_value key x ->
  same_sorted (dict_set key x' d') (dict_set key x d).
Proof.
  intros H Hx. induction H as [ | [k' y'] [k y] d' d [Hk Hy] Hrest IH ]; simpl in *.
  - constructor; [ now split | constructor ].
  - subst k'. destruct (String.eqb_spec key k) as [ -> | Hne ].
    + constructor; [ now split | exact Hrest ].
    + constructor; [ now split | exact IH ].
Qed.

Lemma sort_value_in_place key x :
  sort_value key (sorted_in_place key x) = sort_value key x.
Proof.
  unfold sorted_in_place, sort_step.
  destruct (String.eqb key "properties"); [ reflexivity | ].
  destruct x; try reflexivity.
  destruct (sort_jsonschema entries) as [ d' | e ] eqn:Hd; [ | reflexivity ].
  pose proof (sort_jsonschema_idem _ _ Hd) as Hd'. simpl.
  unfold sort_jsonschema in Hd, Hd'. now rewrite Hd, Hd'.
Qed.

Lemma type_of_sorted_in_place key x : type_of (sorted_in_place key x) = type_of x.
Proof.
  unfold sorted_in_place. destruct (String.eqb key "properties"); [ reflexivity | ].
  destruct x; try reflexivity. now destruct (sort_jsonschema entries).
Qed.

Lemma isinstance_sorted_in_place key x t :
  isinstance (sorted_in_place key x) t = isinstance x t.
Proof. unfold isinstance. now rewrite type_of_sorted_in_place. Qed.

Lemma isinstance_dict x y :
  isinstance x (type_of y) = true -> type_of x = TDict -> exists d, y = VDict d.
Proof.
  unfold isinstance. intros H Hx. rewrite Hx in H. destruct y; try discriminate. eauto.
Qed.

(** Merging the fragment as the sort has left it gives a dict that is
    sorted to the same as the merge of the fragment as it was. *)
Lemma merge_fragment_after_sort x :
  forall d1, x = VDict d1 ->
  forall dict2 acc' acc,
    same_sorted acc' acc ->
    same_sorted
      (fold_left (merge_step merge_values dict2)
         (map (fragment_step fragment_after_sort_value dict2) d1) acc')
      (fold_left (merge_step merge_values dict2) d1 acc).
Proof.
  induction x as [ | | | | | items _ | entries IH ] using value_ind;
    intros d1 Hx; try discriminate.
  injection Hx as <-.
  intros dict2. induction IH as [ | [key x] entries Hx _ IHentries ];
    intros acc' acc Hacc; [ exact Hacc | ].
  simpl in Hx. cbn [map fold_left]. apply IHentries. clear IHentries.
  unfold fragment_step.
  destruct (dict_get key dict2) as [ y | ] eqn:Hy.
  - destruct (negb (isinstance x (type_of y))) eqn:Hinst.
    + unfold merge_step. rewrite Hy, isinstance_sorted_in_place, Hinst.
      apply same_sorted_set; [ exact Hacc | apply sort_value_in_place ].
    + destruct x; try (unfold merge_step; rewrite Hy, Hinst; exact Hacc).
      * unfold merge_step. rewrite Hy, Hinst. destruct y; try exact Hacc.
        apply same_sorted_set; [ exact Hacc | reflexivity ].
      * apply negb_false_iff in Hinst as Hinst'.
        destruct (isinstance_dict _ _ Hinst' eq_refl) as [b ->].
        destruct (String.eqb key "properties") eqn:Hkey.
        -- unfold merge_step. rewrite Hy, Hinst.
           apply same_sorted_set; [ exact Hacc | reflexivity ].
        -- unfold merge_step. rewrite Hy.
           cbn [fragment_after_sort_value isinstance type_of pytype_eqb negb orb].
           apply same_sorted_set; [ exact Hacc | ].
           unfold sort_step. rewrite Hkey. cbn [merge_values sort_jsonschema_value].
           f_equal. apply same_sorted_update.
           apply (Hx _ eq_refl b b b (same_sorted_refl b)).
  - unfold merge_step. rewrite Hy.
    apply same_sorted_set; [ exact Hacc | apply sort_value_in_place ].
Qed.

Lemma sort_merge_fragment_after_sort (fragment model_schema : dict) :
  sort_jsonschema (merge_dicts (fragment_after_sort fragment model_schema) model_schema)
  = sort_jsonschema (merge_dicts fragment model_schema).
Proof.
  unfold sort_jsonschema, merge_dicts, fragment_after_sort.
  apply same_sorted_update.
  apply (merge_fragment_after_sort (VDict fragment) fragment eq_refl).
  apply same_sorted_refl.
Qed.

(** ** A run and the declaration it leaves *)

Section Runs.

Variable schema : ann -> dict.

(** After [model.schema(...)] only the fragment may change. *)
Lemma render_typed_dict_after typed_dict model out_dir sort classes :
  exists extra,
    typed_dict_after (render schema typed_dict model out_dir sort classes)
    = with_extra_schema typed_dict extra.
Proof.
  assert (Hsame : typed_dict = with_extra_schema typed_dict (td_extra_schema typed_dict))
    by now destruct typed_dict.
  unfold render. destruct (strip_newline_literal (schema model));
    [ | now exists (td_extra_schema typed_dict) ].
  destruct (if sort then _ else _); [ | now exists (td_extra_schema typed_dict) ].
  destruct sort.
  - eexists. destruct out_dir as [ | dir | [ | c s ] | dir ]; try reflexivity;
      destruct (dict_get "title" _); reflexivity.
  - exists (td_extra_schema typed_dict).
    destruct out_dir as [ | dir | [ | c s ] | dir ]; try exact Hsame;
      destruct (dict_get "title" _); exact Hsame.
Qed.

(** Rendering again, with the fragment as the first rendering has left
    it, returns the same and writes the same. *)
Lemma render_twice typed_dict model out_dir sort classes classes2 g :
  let first := render schema typed_dict model out_dir sort classes in
  returned first = Ok g ->
  let second := render schema (typed_dict_after first) model out_dir sort classes2 in
  returned second = returned first /\ written second = written first.
Proof.
  cbv zeta. unfold render.
  destruct (strip_newline_literal (schema model)) as [ stripped | e ]; [ | discriminate ].
  destruct sort.
  - destruct (td_extra_schema typed_dict) as [ fragment | ] eqn:Hextra.
    + destruct (sort_jsonschema (merge_dicts fragment stripped)) as [ s | e ] eqn:Hs;
        [ | discriminate ].
      assert (Hagain :
                sort_jsonschema (merge_dicts (fragment_after_sort fragment stripped) stripped)
                = Ok s) by now rewrite sort_merge_fragment_after_sort.
      destruct (dict_get "title" s) as [ v | ] eqn:Ht;
        destruct out_dir as [ | dir | [ | c d ] | dir ];
        cbn -[sort_jsonschema merge_dicts fragment_after_sort]; intros Hr;
        try discriminate;
        rewrite Hagain; cbn -[sort_jsonschema merge_dicts fragment_after_sort];
        rewrite ?Ht; split; reflexivity.
    + destruct (sort_jsonschema stripped) as [ s | e ] eqn:Hs; [ | discriminate ].
      destruct (dict_get "title" s) as [ v | ] eqn:Ht;
        destruct out_dir as [ | dir | [ | c d ] | dir ];
        cbn -[sort_jsonschema]; intros Hr; try discriminate;
        rewrite ?Hextra; cbn -[sort_jsonschema]; rewrite Hs; cbn -[sort_jsonschema];
        rewrite ?Ht; split; reflexivity.
  - destruct (dict_get "title"
                match td_extra_schema typed_dict with
                | Some fragment => merge_dicts fragment stripped
                | None => stripped
                end) as [ v | ] eqn:Ht;
      destruct out_dir as [ | dir | [ | c d ] | dir ]; cbn; intros Hr; try discriminate;
      rewrite ?Ht; split; reflexivity.
Qed.


(** The model a declaration is rendered from. *)
Definition schema_model (typed_dict : TypedDictMeta) : ann :=
  with_name
    (basemodel_of (td_name typed_dict) (td_doc typed_dict)
       (td_attributes typed_dict) (td_annotations typed_dict))
    (lower (alias_generator (td_name typed_dict))).

Lemma parse_typeddict_to_schema_render typed_dict out_dir classes sort new classes' :
  format_all_annotations (td_annotations typed_dict) classes = (Ok new, classes') ->
  parse_typeddict_to_schema schema typed_dict out_dir false classes sort
  = render schema (with_annotations typed_dict new)
      (schema_model (with_annotations typed_dict new)) out_dir sort classes'.
Proof. unfold parse_typeddict_to_schema. now intros ->. Qed.

Lemma with_annotations_same typed_dict :
  with_annotations typed_dict (td_annotations typed_dict) = typed_dict.
Proof. now destruct typed_dict. Qed.



(** C5 as the specification words it, for a renderer: whatever the
    declaration, a run that returns a schema and a second run, on the
    declaration and the dict of models as the first has left them,
    return the same schema. *)
Definition regeneration_as_stated : Prop :=
  forall typed_dict out_dir classes sort model_schema,
    let first := parse_typeddict_to_schema schema typed_dict out_dir false classes sort in
    returned first = Ok (Schema model_schema) ->
    returned
      (parse_typeddict_to_schema schema (typed_dict_after first) out_dir false
         (classes_after first) sort)
    = Ok (Schema model_schema).

(** C5, amended: when the fields of a declaration are written as the
    generator assumes, each [Annotated[...]] around a plain type or a
    class without arguments, [NotRequired] taken off, and the dict of
    models holds models, a run that returns a schema and a second run,
    on the declaration and the dict of models as the first has left
    them, return the same schema and write the same file. *)
Theorem regeneration_identical typed_dict out_dir classes sort model_schema :
  holds_models classes ->
  forallb (fun f => declared_as_assumed (snd f)) (td_annotations typed_dict) = true ->
  let first := parse_typeddict_to_schema schema typed_dict out_dir false classes sort in
  returned first = Ok (Schema model_schema) ->
  let second :=
    parse_typeddict_to_schema schema (typed_dict_after first) out_dir false
      (classes_after first) sort in
  returned second = Ok (Schema model_schema) /\ written second = written first.
Proof.
  intros Hc Has. cbv zeta. intros Hr.
  destruct (format_all_annotations (td_annotations typed_dict) classes)
    as [[new | e] classes'] eqn:Hf;
    [ | now rewrite (parse_typeddict_to_schema_raise _ _ _ _ _ _ _ _ Hf) in Hr ].
  destruct (format_all_annotations_Ok _ _ _ _ Hc Hf) as (_ & _ & Hnorm).
  specialize (Hnorm Has).
  rewrite (parse_typeddict_to_schema_render _ _ _ _ _ _ Hf) in Hr |- *.
  set (td1 := with_annotations typed_dict new) in *.
  rewrite render_classes_after, <- Hr.
  destruct (render_typed_dict_after td1 (schema_model td1) out_dir sort classes')
    as [extra Hafter].
  assert (Hf2 : format_all_annotations
                  (td_annotations
                     (typed_dict_after
                        (render schema td1 (schema_model td1) out_dir sort classes')))
                  classes'
                = (Ok new, classes'))
    by (rewrite Hafter; apply (format_all_annotations_normalized new _ Hnorm)).
  rewrite (parse_typeddict_to_schema_render _ _ _ _ _ _ Hf2).
  replace (with_annotations
             (typed_dict_after
                (render schema td1 (schema_model td1) out_dir sort classes')) new)
    with (typed_dict_after
            (render schema td1 (schema_model td1) out_dir sort classes'))
    by (rewrite Hafter; reflexivity).
  replace (schema_model
             (typed_dict_after
                (render schema td1 (schema_model td1) out_dir sort classes')))
    with (schema_model td1) by (rewrite Hafter; reflexivity).
  exact (render_twice td1 (schema_model td1) out_dir sort classes' classes' _ Hr).
Qed.

End Runs.


(** C5, as stated, fails: the first run on [tagged_argument] leaves
    [x: Annotated[Any, AsRef("R"), Field()]], the tag now on the field,
    and gives the model a field of type [Any]; the second run makes the
    wrapper model [R] for the tag and gives the model a field of that
    type.  The renderer, which does not require a field of type [Any]
    and requires one whose type is a model, as pydantic does, returns
    two different schemas. *)
Lemma regeneration_differs : ~ regeneration_as_stated sample_schema.
Proof.
  intros H. specialize (H tagged_argument NoDir ∅ true _ eq_refl).
  vm_compute in H. discriminate H.
Qed.


(** The theorem at [EventPage], written to the default directory: the
    second run returns the schema of the first and writes the same
    file. *)
Lemma regeneration_identical_EventPage :
  exists model_schema,
    returned (parse_typeddict_to_schema sample_schema EventPage SCHEMA_OUT_DIR false ∅ true)
    = Ok (Schema model_schema)
    /\ returned
         (parse_typeddict_to_schema sample_schema
            (typed_dict_after
               (parse_typeddict_to_schema sample_schema EventPage SCHEMA_OUT_DIR false ∅ true))
            SCHEMA_OUT_DIR false
            (classes_after
               (parse_typeddict_to_schema sample_schema EventPage SCHEMA_OUT_DIR false ∅ true))
            true)
       = Ok (Schema model_schema).
Proof.
  eexists. split; [ vm_compute; reflexivity | ].
  refine (proj1 (regeneration_identical sample_schema EventPage SCHEMA_OUT_DIR ∅ true _
                   holds_models_empty _ _)).
  - vm_compute. reflexivity.
  - vm_compute. reflexivity.
Defined.

(** ** Optional fields *)









(** *** The [required] list through the steps after the rendering *)











(** * Further properties of the generator *)

(** ** [merge_dicts]: the keys of the result *)

Lemma has_key_keys key (d : dict) : has_key key d = true <-> key ∈ keys d.
Proof.
  unfold has_key. pose proof (dict_get_None_keys key d) as H.
  destruct (dict_get key d).
  - split; [ intros _ | reflexivity ].
    destruct (decide (key ∈ keys d)) as [ Hin | Hout ]; [ exact Hin | ].
    apply H in Hout. discriminate.
  - split; [ discriminate | ]. intros Hin. exfalso. now apply (proj1 H).
Qed.

Lemma keys_dict_set_present key x (d : dict) :
  has_key key d = true -> keys (dict_set key x d) = keys d.
Proof.
  unfold has_key. induction d as [ | [k y] d IH ]; simpl; [ discriminate | ].
  destruct (String.eqb key k); [ reflexivity | ].
  intros H. simpl. now rewrite IH.
Qed.

Lemma dict_set_absent key x (d : dict) :
  has_key key d = false -> dict_set key x d = d ++ [(key, x)].
Proof.
  unfold has_key. induction d as [ | [k y] d IH ]; simpl; [ reflexivity | ].
  destruct (String.eqb key k); [ discriminate | ].
  intros H. now rewrite IH.
Qed.

Lemma keys_merge_step_present merge dict2 return_dict key x :
  has_key key dict2 = true -> has_key key return_dict = true ->
  keys (merge_step merge dict2 return_dict (key, x)) = keys return_dict.
Proof.
  intros H2 Hr. unfold merge_step. unfold has_key in H2.
  destruct (dict_get key dict2) as [ y | ]; [ | discriminate ].
  destruct (negb (isinstance x (type_of y))); [ now apply keys_dict_set_present | ].
  destruct x; try reflexivity; try (now apply keys_dict_set_present).
  destruct y; try reflexivity. now apply keys_dict_set_present.
Qed.

Lemma merge_step_absent merge dict2 return_dict key x :
  has_key key dict2 = false ->
  merge_step merge dict2 return_dict (key, x) = dict_set key x return_dict.
Proof.
  unfold has_key, merge_step. now destruct (dict_get key dict2).
Qed.

Lemma has_key_merge_step_other merge dict2 return_dict key key' x :
  key <> key' ->
  has_key key (merge_step merge dict2 return_dict (key', x)) = has_key key return_dict.
Proof. intros H. unfold has_key. now rewrite merge_step_other. Qed.

Lemma keys_merge_loop merge dict2 (dict1 return_dict : dict) :
  dict_wf dict1 ->
  (forall key, has_key key dict2 = true -> has_key key return_dict = true) ->
  (forall key, key ∈ keys dict1 -> has_key key dict2 = false ->
               has_key key return_dict = false) ->
  keys (fold_left (merge_step merge dict2) dict1 return_dict)
  = keys return_dict
    ++ List.filter (fun key => negb (has_key key dict2)) (keys dict1).
Proof.
  revert return_dict. induction dict1 as [ | [k x] dict1 IH ]; intros acc Hwf H2 H1.
  - simpl. now rewrite app_nil_r.
  - apply NoDup_cons in Hwf as [Hk Hwf].
    cbn [fold_left keys map fst List.filter]. fold (keys dict1).
    assert (Hother : forall key, key <> k ->
              has_key key (merge_step merge dict2 acc (k, x)) = has_key key acc)
      by (intros key Hne; now apply has_key_merge_step_other).
    destruct (has_key k dict2) eqn:Hk2; cbn [negb].
    + rewrite IH; [ | exact Hwf | | ].
      * now rewrite keys_merge_step_present by auto.
      * intros key Hkey. destruct (decide (key = k)) as [ -> | Hne ].
        -- apply has_key_keys. rewrite keys_merge_step_present by auto.
           apply has_key_keys. auto.
        -- rewrite Hother by exact Hne. auto.
      * intros key Hin Hkey. rewrite Hother.
        -- apply H1; [ now apply elem_of_cons; right | exact Hkey ].
        -- intros ->. now apply Hk.
    + assert (Hacc : has_key k acc = false)
        by (apply H1; [ now apply elem_of_cons; left | exact Hk2 ]).
      rewrite IH; [ | exact Hwf | | ].
      * rewrite merge_step_absent, dict_set_absent by assumption.
        unfold keys. rewrite map_app. simpl. now rewrite <- app_assoc.
      * intros key Hkey. rewrite Hother; [ auto | ]. intros ->. congruence.
      * intros key Hin Hkey. rewrite Hother.
        -- apply H1; [ now apply elem_of_cons; right | exact Hkey ].
        -- intros ->. now apply Hk.
Qed.

(** X1: the keys of [merge_dicts(dict1, dict2)] are the keys of [dict2],
    in their order, followed by the keys of [dict1] that [dict2] does not
    have, in the order of [dict1]; no key of either input is lost, and
    none is held twice. *)
Theorem merge_dicts_keys (dict1 dict2 : dict) :
  dict_wf dict1 ->
  keys (merge_dicts dict1 dict2)
  = keys dict2 ++ List.filter (fun key => negb (has_key key dict2)) (keys dict1)
  /\ (dict_wf dict2 -> dict_wf (merge_dicts dict1 dict2)).
Proof.
  intros Hwf.
  assert (Hkeys : keys (merge_dicts dict1 dict2)
                  = keys dict2
                    ++ List.filter (fun key => negb (has_key key dict2)) (keys dict1))
    by (apply keys_merge_loop; auto).
  split; [ exact Hkeys | ].
  intros Hwf2. unfold dict_wf. rewrite Hkeys. apply NoDup_app. split; [ exact Hwf2 | split ].
  - intros key Hin Hnew. apply list_elem_of_In, filter_In in Hnew as [_ Hnew].
    apply has_key_keys in Hin. rewrite Hin in Hnew. discriminate.
  - apply NoDup_ListNoDup, List.NoDup_filter, NoDup_ListNoDup, Hwf.
Qed.

(** The theorem on the two dictionaries of the docstring: [x1] and [x3]
    of [dict2], then [x2] of [dict1]. *)
Lemma merge_dicts_keys_docstring :
  keys (merge_dicts docstring_dict1 docstring_dict2) = ["x1"; "x3"; "x2"].
Proof.
  assert (Hwf : dict_wf docstring_dict1) by compute_done.
  exact (proj1 (merge_dicts_keys docstring_dict1 docstring_dict2 Hwf)).
Defined.

(** ** [merge_dicts] with an empty dictionary *)

Lemma merge_loop_empty merge (dict1 return_dict : dict) :
  NoDup (keys return_dict ++ keys dict1) ->
  fold_left (merge_step merge []) dict1 return_dict = return_dict ++ dict1.
Proof.
  revert return_dict. induction dict1 as [ | [k x] dict1 IH ]; intros acc Hwf.
  - simpl. now rewrite app_nil_r.
  - cbn [fold_left]. rewrite merge_step_absent by reflexivity.
    assert (Hk : has_key k acc = false).
    { destruct (has_key k acc) eqn:Hk; [ | reflexivity ].
      apply has_key_keys in Hk. apply NoDup_app in Hwf as (_ & Hdis & _).
      exfalso. apply (Hdis k Hk). simpl. now apply elem_of_cons; left. }
    rewrite dict_set_absent by exact Hk. rewrite IH.
    + now rewrite <- app_assoc.
    + unfold keys. rewrite map_app. simpl. now rewrite <- app_assoc.
Qed.

(** X2: merging with an empty dictionary gives the other one: an empty
    [dict1] adds nothing to the copy of [dict2], and with an empty
    [dict2] every entry of [dict1] is new and is added in order. *)
Theorem merge_dicts_empty (d : dict) :
  dict_wf d -> merge_dicts [] d = d /\ merge_dicts d [] = d.
Proof.
  intros Hwf. split; [ reflexivity | ].
  unfold merge_dicts. now rewrite merge_loop_empty.
Qed.

Lemma merge_dicts_empty_docstring :
  merge_dicts docstring_dict1 [] = docstring_dict1.
Proof.
  assert (Hwf : dict_wf docstring_dict1) by compute_done.
  exact (proj2 (merge_dicts_empty docstring_dict1 Hwf)).
Defined.

(** ** [strip_newline_literal] *)

Lemma replace_newline_no_newline s : has_newline (replace_newline s) = false.
Proof.
  unfold has_newline. induction s as [ | c s IH ]; [ reflexivity | ].
  cbn [replace_newline contains]. rewrite IH, orb_false_r.
  destruct (Ascii.eqb c "010"%char) eqn:Hc; [ reflexivity | ].
  now rewrite Ascii.eqb_sym.
Qed.

Lemma replace_newline_length s : String.length (replace_newline s) = String.length s.
Proof.
  induction s as [ | c s IH ]; [ reflexivity | ].
  cbn [replace_newline String.length]. now rewrite IH.
Qed.

Lemma replace_newline_fixed s : has_newline s = false -> replace_newline s = s.
Proof.
  unfold has_newline. induction s as [ | c s IH ]; [ reflexivity | ].
  cbn [replace_newline contains]. intros [Hc Hs]%orb_false_iff. rewrite (IH Hs).
  rewrite Ascii.eqb_sym in Hc. now rewrite Hc.
Qed.

Lemma strip_newline_literal_value_dict (schema : dict) :
  strip_newline_literal_value (VDict schema) = VDict <$> strip_newline_literal schema.
Proof. reflexivity. Qed.

(** What [strip_newline_literal] leaves under a key. *)
Lemma strip_newline_literal_get (schema schema' : dict) key :
  strip_newline_literal schema = Ok schema' ->
  match dict_get key schema with
  | Some (VDict d) =>
      exists d', strip_newline_literal d = Ok d' /\ dict_get key schema' = Some (VDict d')
  | Some (VStr s) =>
      dict_get key schema'
      = Some (VStr (if String.eqb key "description" then replace_newline s else s))
  | Some x => key <> "description" /\ dict_get key schema' = Some x
  | None => dict_get key schema' = None
  end.
Proof.
  intros H. pose proof (update_values_get _ _ _ key H) as Hk.
  destruct (dict_get key schema) as [ x | ]; [ | exact Hk ].
  destruct Hk as (x' & Hx & Hget). unfold strip_step in Hx.
  destruct x;
    try (destruct (String.eqb_spec key "description") as [ -> | Hne ];
         [ discriminate | injection Hx as <-; now split ]).
  - destruct (String.eqb key "description"); injection Hx as <-; exact Hget.
  - rewrite strip_newline_literal_value_dict in Hx.
    destruct (strip_newline_literal entries) as [ d' | e ]; [ | discriminate ].
    injection Hx as <-. now exists d'.
Qed.

Lemma strip_newline_literal_descend path (schema schema' : dict) d :
  strip_newline_literal schema = Ok schema' ->
  value_at path (VDict schema) = Some (VDict d) ->
  exists d', strip_newline_literal d = Ok d'
             /\ value_at path (VDict schema') = Some (VDict d').
Proof.
  revert schema schema'.
  induction path as [ | key path IH ]; intros schema schema' Hs Hp; simpl in *.
  - injection Hp as <-. now exists schema'.
  - pose proof (strip_newline_literal_get _ _ key Hs) as Hk.
    destruct (dict_get key schema) as [ x | ]; [ | discriminate ].
    destruct x; try (destruct path; discriminate).
    destruct Hk as (d' & Hd & ->). now apply (IH entries).
Qed.

(** X3: when [strip_newline_literal] returns, every string under a
    ["description"] key, at whatever depth of nested dicts, has had each
    line feed replaced by a space: it has no line feed left and keeps its
    length. *)
Theorem strip_newline_literal_descriptions (schema schema' : dict) path s :
  strip_newline_literal schema = Ok schema' ->
  value_at (path ++ ["description"]) (VDict schema) = Some (VStr s) ->
  value_at (path ++ ["description"]) (VDict schema') = Some (VStr (replace_newline s))
  /\ has_newline (replace_newline s) = false
  /\ String.length (replace_newline s) = String.length s.
Proof.
  intros Hs Hp.
  split; [ | split; [ apply replace_newline_no_newline | apply replace_newline_length ] ].
  rewrite value_at_app in *.
  destruct (value_at path (VDict schema)) as [ x | ] eqn:Hx; [ | discriminate ].
  destruct x; try discriminate.
  destruct (strip_newline_literal_descend _ _ _ _ Hs Hx) as (d' & Hd & ->).
  simpl in *. pose proof (strip_newline_literal_get _ _ "description" Hd) as Hk.
  destruct (dict_get "description" entries) as [ y | ]; [ | discriminate ].
  injection Hp as ->. simpl in Hk. now rewrite Hk.
Qed.

Lemma strip_newline_literal_descriptions_nested :
  value_at ["properties"; "x"; "description"]
    (VDict [("title", VStr "t");
            ("description", VStr "first second");
            ("properties",
             VDict [("x", VDict [("description", VStr "first second");
                                 ("type", VStr "string")])]);
            ("anyOf", VList [VDict [("description", VStr two_lines)]])])
  = Some (VStr (replace_newline two_lines)).
Proof.
  exact (proj1 (strip_newline_literal_descriptions described_schema _
                  ["properties"; "x"] two_lines eq_refl eq_refl)).
Defined.

(** X4: [strip_newline_literal] changes nothing else: a value that is
    not a dict and is not under a ["description"] key is left as it is,
    a list with all it holds (a description inside a list keeps its line
    feeds), and every dict keeps its keys, in order. *)
Theorem strip_newline_literal_rest (schema schema' : dict) :
  strip_newline_literal schema = Ok schema' ->
  (forall path key x,
      value_at (path ++ [key]) (VDict schema) = Some x ->
      is_dict x = false -> key <> "description" ->
      value_at (path ++ [key]) (VDict schema') = Some x)
  /\ (forall path items,
      value_at path (VDict schema) = Some (VList items) ->
      value_at path (VDict schema') = Some (VList items))
  /\ (forall path d,
      value_at path (VDict schema) = Some (VDict d) ->
      exists d', value_at path (VDict schema') = Some (VDict d') /\ keys d' = keys d).
Proof.
  intros Hs.
  assert (Hlast : forall path key x,
             value_at (path ++ [key]) (VDict schema) = Some x ->
             is_dict x = false -> (key <> "description" \/ is_str x = false) ->
             value_at (path ++ [key]) (VDict schema') = Some x).
  { intros path key x Hp Hx Hkey. rewrite value_at_app in *.
    destruct (value_at path (VDict schema)) as [ y | ] eqn:Hy; [ | discriminate ].
    destruct y; try discriminate.
    destruct (strip_newline_literal_descend _ _ _ _ Hs Hy) as (d' & Hd & ->).
    simpl in *. pose proof (strip_newline_literal_get _ _ key Hd) as Hk.
    destruct (dict_get key entries) as [ y | ]; [ | discriminate ].
    injection Hp as ->.
    destruct x; try discriminate; try (now rewrite (proj2 Hk)).
    destruct Hkey as [ Hne | ]; [ | discriminate ].
    apply String.eqb_neq in Hne. now rewrite Hk, Hne. }
  split; [ | split ].
  - intros path key x Hp Hx Hkey. apply Hlast; auto.
  - intros path items Hp. destruct path as [ | k path ] using rev_ind; [ discriminate | ].
    apply Hlast; auto.
  - intros path d Hp.
    destruct (strip_newline_literal_descend _ _ _ _ Hs Hp) as (d' & Hd & Hp').
    exists d'. split; [ exact Hp' | ]. exact (update_values_keys _ _ _ Hd).
Qed.

Lemma strip_newline_literal_rest_list :
  value_at ["anyOf"]
    (VDict [("title", VStr "t");
            ("description", VStr "first second");
            ("properties",
             VDict [("x", VDict [("description", VStr "first second");
                                 ("type", VStr "string")])]);
            ("anyOf", VList [VDict [("description", VStr two_lines)]])])
  = Some (VList [VDict [("description", VStr two_lines)]]).
Proof.
  exact (proj1 (proj2 (strip_newline_literal_rest described_schema _ eq_refl))
           ["anyOf"] _ eq_refl).
Defined.

(** *** A description that is not a string *)

Lemma update_values_raise f (schema : dict) key x e :
  dict_get key schema = Some x -> f key x = Raise e ->
  exists e', update_values f schema = Raise e'.
Proof.
  induction schema as [ | [k y] schema IH ]; simpl; [ discriminate | ].
  intros Hget Hf. destruct (String.eqb_spec key k) as [ -> | Hne ].
  - injection Hget as ->. rewrite Hf. now exists e.
  - destruct (f k y) as [ y' | e1 ]; [ | now exists e1 ]. simpl.
    destruct (IH Hget Hf) as (e' & ->). now exists e'.
Qed.

Lemma update_values_raised f (schema : dict) e :
  update_values f schema = Raise e ->
  exists key x, (key, x) ∈ schema /\ f key x = Raise e.
Proof.
  induction schema as [ | [k y] schema IH ]; simpl; [ discriminate | ].
  destruct (f k y) as [ y' | e1 ] eqn:Hf; simpl.
  - destruct (update_values f schema) as [ rest | e2 ]; [ discriminate | ].
    intros [= ->]. destruct (IH eq_refl) as (key & x & Hin & Hx).
    exists key, x. split; [ now apply elem_of_cons; right | exact Hx ].
  - intros [= ->]. exists k, y. split; [ now apply elem_of_cons; left | exact Hf ].
Qed.

(** The only exception [strip_newline_literal] raises. *)
Lemma strip_newline_literal_value_raised x e :
  strip_newline_literal_value x = Raise e ->
  e = AttributeError "object has no attribute 'replace'".
Proof.
  induction x as [ | | | | | items _ | entries IH ] using value_ind;
    try discriminate.
  simpl. destruct (update_values _ entries) as [ d' | e' ] eqn:Hd; [ discriminate | ].
  intros [= ->]. apply update_values_raised in Hd as (key & x & Hin & Hx).
  rewrite Forall_forall in IH. specialize (IH _ Hin). simpl in IH.
  unfold strip_step in Hx.
  destruct x; try (destruct (String.eqb key "description"); congruence); auto.
Qed.

(** X5: a ["description"] key, at whatever depth of nested dicts, whose
    value is neither a string nor a dict makes [strip_newline_literal]
    raise [AttributeError]: the value has no [replace]. *)
Theorem strip_newline_literal_not_a_string (schema : dict) path x :
  value_at (path ++ ["description"]) (VDict schema) = Some x ->
  is_str x = false -> is_dict x = false ->
  strip_newline_literal schema = Raise (AttributeError "object has no attribute 'replace'").
Proof.
  intros Hp Hstr Hdict.
  assert (H : exists e, strip_newline_literal schema = Raise e).
  { revert schema Hp. induction path as [ | key path IH ]; intros schema Hp; simpl in Hp.
    - destruct (dict_get "description" schema) as [ y | ] eqn:Hy; [ | discriminate ].
      injection Hp as ->.
      apply (update_values_raise _ _ _ _ (AttributeError "object has no attribute 'replace'") Hy).
      now destruct x.
    - destruct (dict_get key schema) as [ y | ] eqn:Hy; [ | discriminate ].
      destruct y; try (destruct path; discriminate).
      destruct (IH _ Hp) as (e & He).
      apply (update_values_raise _ _ _ _ e Hy).
      unfold strip_step. rewrite strip_newline_literal_value_dict. now rewrite He. }
  destruct H as (e & He). rewrite He. f_equal.
  apply (strip_newline_literal_value_raised (VDict schema)).
  rewrite strip_newline_literal_value_dict. now rewrite He.
Qed.

Lemma strip_newline_literal_not_a_string_None :
  strip_newline_literal
    [("properties", VDict [("x", VDict [("description", VNone)])])]
  = Raise (AttributeError "object has no attribute 'replace'").
Proof.
  exact (strip_newline_literal_not_a_string
           [("properties", VDict [("x", VDict [("description", VNone)])])]
           ["properties"; "x"] VNone eq_refl eq_refl eq_refl).
Defined.

(** *** Stripping twice *)

Lemma strip_newline_literal_value_idem x x' :
  strip_newline_literal_value x = Ok x' -> strip_newline_literal_value x' = Ok x'.
Proof.
  revert x'. induction x as [ | | | | | items _ | entries IH ] using value_ind; intros x' H;
    try (injection H as <-; reflexivity).
  simpl in H.
  destruct (update_values (strip_step strip_newline_literal_value) entries)
    as [ d' | e ] eqn:Hd; [ | discriminate ].
  injection H as <-. simpl.
  rewrite (update_values_idem _ entries d'); [ reflexivity | | exact Hd ].
  eapply Forall_impl; [ exact IH | ]. intros [k x] Hx y Hy. simpl in *.
  unfold strip_step in *.
  destruct x; try (destruct (String.eqb k "description"); [ discriminate | ];
                   injection Hy as <-; reflexivity).
  - destruct (String.eqb k "description") eqn:Hk; injection Hy as <-; [ | reflexivity ].
    now rewrite (replace_newline_fixed _ (replace_newline_no_newline s)).
  - pose proof (Hx _ Hy) as Hy'. simpl in Hy.
    destruct (update_values _ entries0); [ | discriminate ]. injection Hy as <-.
    exact Hy'.
Qed.

(** X6: [strip_newline_literal] on a schema it has returned returns that
    schema as it is. *)
Theorem strip_newline_literal_twice (schema schema' : dict) :
  strip_newline_literal schema = Ok schema' ->
  strip_newline_literal schema' = Ok schema'.
Proof.
  intros H. pose proof (strip_newline_literal_value_idem (VDict schema) (VDict schema')) as Hv.
  rewrite !strip_newline_literal_value_dict, H in Hv. specialize (Hv eq_refl).
  now destruct (strip_newline_literal schema') as [ d'' | e ]; inversion Hv.
Qed.

Lemma strip_newline_literal_twice_described :
  strip_newline_literal
    [("title", VStr "t");
     ("description", VStr "first second");
     ("properties",
      VDict [("x", VDict [("description", VStr "first second");
                          ("type", VStr "string")])]);
     ("anyOf", VList [VDict [("description", VStr two_lines)]])]
  = Ok [("title", VStr "t");
        ("description", VStr "first second");
        ("properties",
         VDict [("x", VDict [("description", VStr "first second");
                             ("type", VStr "string")])]);
        ("anyOf", VList [VDict [("description", VStr two_lines)]])].
Proof.
  exact (strip_newline_literal_twice described_schema _ eq_refl).
Defined.

(** ** [sort_jsonschema] *)

(** X7: [sort_jsonschema] on a schema it has returned returns that
    schema as it is. *)
Theorem sort_jsonschema_twice (schema schema' : dict) :
  sort_jsonschema schema = Ok schema' -> sort_jsonschema schema' = Ok schema'.
Proof. apply sort_jsonschema_idem. Qed.

Lemma sort_jsonschema_twice_nested :
  sort_jsonschema
    [("properties", VDict [("a", VInt 2); ("b", VInt 1)]);
     ("anyOf", VList [VDict [("properties", VDict [("b", VInt 1); ("a", VInt 2)])]])]
  = Ok [("properties", VDict [("a", VInt 2); ("b", VInt 1)]);
        ("anyOf", VList [VDict [("properties", VDict [("b", VInt 1); ("a", VInt 2)])]])].
Proof. exact (sort_jsonschema_twice any_of_schema _ eq_refl). Defined.

(** X8: [sort_jsonschema] does not look into a list: a value that is not
    a dict, reached through nested dicts none of which is under a
    [properties] key, is left as it is, with any [properties] mapping it
    holds. *)
Theorem sort_jsonschema_rest (schema schema' : dict) path x :
  sort_jsonschema schema = Ok schema' ->
  "properties" ∉ path ->
  value_at path (VDict schema) = Some x ->
  is_dict x = false ->
  value_at path (VDict schema') = Some x.
Proof.
  intros Hs Hp Hx Hd. pose proof (sort_jsonschema_descend path _ _ Hs Hp) as H.
  rewrite Hx in H. now destruct x.
Qed.

Lemma sort_jsonschema_rest_any_of :
  value_at ["anyOf"]
    (VDict [("properties", VDict [("a", VInt 2); ("b", VInt 1)]);
            ("anyOf",
             VList [VDict [("properties", VDict [("b", VInt 1); ("a", VInt 2)])]])])
  = Some (VList [VDict [("properties", VDict [("b", VInt 1); ("a", VInt 2)])]]).
Proof.
  assert (Hp : "properties" ∉ ["anyOf"]) by (intros [ [=] | [] ]%list_elem_of_In).
  exact (sort_jsonschema_rest any_of_schema _ ["anyOf"] _ eq_refl Hp eq_refl eq_refl).
Defined.

(** *** [properties] that is not a dict *)

(** The only exception [sort_jsonschema] raises. *)
Lemma sort_jsonschema_value_raised x e :
  sort_jsonschema_value x = Raise e ->
  e = AttributeError "object has no attribute 'items'".
Proof.
  induction x as [ | | | | | items _ | entries IH ] using value_ind;
    try discriminate.
  simpl. destruct (update_values _ entries) as [ d' | e' ] eqn:Hd; [ discriminate | ].
  intros [= ->]. apply update_values_raised in Hd as (key & x & Hin & Hx).
  rewrite Forall_forall in IH. specialize (IH _ Hin). simpl in IH.
  unfold sort_step in Hx.
  destruct (String.eqb key "properties"); destruct x; try congruence; auto.
Qed.

(** X9: a [properties] key, reached through nested dicts none of which
    is under a [properties] key, whose value is not a dict makes
    [sort_jsonschema] raise [AttributeError]: the value has no
    [items]. *)
Theorem sort_jsonschema_not_a_dict (schema : dict) path x :
  "properties" ∉ path ->
  value_at (path ++ ["properties"]) (VDict schema) = Some x ->
  is_dict x = false ->
  sort_jsonschema schema = Raise (AttributeError "object has no attribute 'items'").
Proof.
  intros Hpath Hp Hdict.
  assert (H : exists e, sort_jsonschema schema = Raise e).
  { revert schema Hp. induction path as [ | key path IH ]; intros schema Hp; simpl in Hp.
    - destruct (dict_get "properties" schema) as [ y | ] eqn:Hy; [ | discriminate ].
      injection Hp as ->.
      apply (update_values_raise _ _ _ _ (AttributeError "object has no attribute 'items'") Hy).
      now destruct x.
    - apply not_elem_of_cons in Hpath as [Hkey Hpath].
      destruct (dict_get key schema) as [ y | ] eqn:Hy; [ | discriminate ].
      destruct y; try (destruct path; discriminate).
      destruct (IH Hpath _ Hp) as (e & He).
      apply (update_values_raise _ _ _ _ e Hy).
      assert (Hk : String.eqb key "properties" = false)
        by (apply String.eqb_neq; congruence).
      unfold sort_step. rewrite Hk.
      rewrite sort_jsonschema_value_dict. now rewrite He. }
  destruct H as (e & He). rewrite He. f_equal.
  apply (sort_jsonschema_value_raised (VDict schema)).
  rewrite sort_jsonschema_value_dict. now rewrite He.
Qed.

Lemma sort_jsonschema_not_a_dict_list :
  sort_jsonschema
    [("definitions", VDict [("Zed", VDict [("properties", VList [VStr "p"])])])]
  = Raise (AttributeError "object has no attribute 'items'").
Proof.
  assert (Hp : "properties" ∉ ["definitions"; "Zed"])
    by (intros [ [=] | [ [=] | [] ] ]%list_elem_of_In).
  exact (sort_jsonschema_not_a_dict
           [("definitions", VDict [("Zed", VDict [("properties", VList [VStr "p"])])])]
           ["definitions"; "Zed"] _ Hp eq_refl eq_refl).
Defined.

(** ** [Config.alias_generator] *)

Lemma is_upper_to_lower c : is_upper (to_lower c) = false.
Proof. destruct c as [[] [] [] [] [] [] [] []]; reflexivity. Qed.

Lemma has_upper_lower s : has_upper (lower s) = false.
Proof.
  induction s as [ | c s IH ]; [ reflexivity | ].
  cbn [lower has_upper]. now rewrite is_upper_to_lower, IH.
Qed.

Lemma lower_fixed s : has_upper s = false -> lower s = s.
Proof.
  induction s as [ | c s IH ]; [ reflexivity | ].
  cbn [lower has_upper]. intros [Hc Hs]%orb_false_iff.
  unfold to_lower. now rewrite Hc, (IH Hs).
Qed.

Lemma underscore_capitals_fixed s : has_upper s = false -> underscore_capitals s = s.
Proof.
  induction s as [ | c s IH ]; [ reflexivity | ].
  cbn [underscore_capitals has_upper]. intros [Hc Hs]%orb_false_iff.
  now rewrite Hc, (IH Hs).
Qed.

Lemma alias_generator_fixed (name : string) :
  has_upper name = false -> alias_generator name = name.
Proof.
  intros H. unfold alias_generator. destruct name as [ | c rest ]; [ reflexivity | ].
  cbn [has_upper] in H. apply orb_false_iff in H as [Hc Hrest].
  rewrite (underscore_capitals_fixed _ Hrest). apply lower_fixed.
  cbn [has_upper]. now rewrite Hc, Hrest.
Qed.

(** X10: an ASCII name with no capital letter, a [snake_case] name for
    one, is its own alias. *)
Theorem alias_generator_lower_case (name : string) :
  is_ascii name = true -> has_upper name = false -> alias_generator name = name.
Proof. intros _. apply alias_generator_fixed. Qed.

Lemma alias_generator_lower_case_datum_id : alias_generator "datum_id" = "datum_id".
Proof. exact (alias_generator_lower_case "datum_id" eq_refl eq_refl). Defined.

(** X11: an alias has no capital letter; so the alias of an alias is
    that alias, and the [lower()] that [parse_typeddict_to_schema]
    applies to the alias of the class name changes nothing. *)
Theorem alias_generator_alias (name : string) :
  has_upper (alias_generator name) = false
  /\ alias_generator (alias_generator name) = alias_generator name
  /\ lower (alias_generator name) = alias_generator name.
Proof.
  assert (H : has_upper (alias_generator name) = false) by apply has_upper_lower.
  split; [ exact H | split ].
  - now apply alias_generator_fixed.
  - now apply lower_fixed.
Qed.

(** ** [get_annotation_contents] *)

Lemma find_last {A} (p : A -> bool) (l : list A) x :
  find p (l ++ [x])
  = match find p l with
    | Some y => Some y
    | None => if p x then Some x else None
    end.
Proof.
  induction l as [ | y l IH ]; [ reflexivity | ].
  simpl. now destruct (p y).
Qed.

Lemma get_annotation_contents_loop (args : list ann) found :
  fold_left
    (fun found arg =>
       match arg with
       | AsRef ref_name => (Some ref_name, snd found)
       | FieldInfo info => (fst found, info)
       | _ => found
       end)
    args found
  = (match last_of AsRefClass args with
     | Some (AsRef ref_name) => Some ref_name
     | _ => fst found
     end,
     match last_of FieldInfoClass args with
     | Some (FieldInfo info) => info
     | _ => snd found
     end).
Proof.
  unfold last_of. revert found.
  induction args as [ | arg args IH ]; intros found; [ now destruct found | ].
  cbn [fold_left rev]. rewrite IH, !find_last.
  destruct (find (fun x => isinstance_of x AsRefClass) (rev args)) as [ [] | ] eqn:Ha;
    try (apply find_some in Ha as [_ Ha]; discriminate);
    destruct (find (fun x => isinstance_of x FieldInfoClass) (rev args)) as [ [] | ] eqn:Hf;
    try (apply find_some in Hf as [_ Hf]; discriminate);
    now destruct arg.
Qed.

(** X12: [get_annotation_contents] returns the last [AsRef] among the
    arguments of the annotation, or [None] when there is none, and the
    last [FieldInfo] among them, or an empty [Field()] when there is
    none. *)
Theorem get_annotation_contents_last (field_type : ann) :
  get_annotation_contents field_type
  = (match last_of AsRefClass (get_args field_type) with
     | Some (AsRef ref_name) => Some ref_name
     | _ => None
     end,
     match last_of FieldInfoClass (get_args field_type) with
     | Some (FieldInfo info) => info
     | _ => Field
     end).
Proof. unfold get_annotation_contents. now rewrite get_annotation_contents_loop. Qed.

(** ** Fields that are not written as [get_field_type] assumes *)




(** X14: a field whose annotation is a generic type with two or more
    arguments that are not metadata, written without [Annotated], makes
    [field_parser] raise the "multiple types" [AssertionError]; the dict
    of models is as it was.  [Dict[str, int]] and [Optional[int]] are
    such annotations. *)
Theorem field_parser_bare_generic_types field_name o (x y : ann) rest classes :
  is_field_type x = true -> is_field_type y = true ->
  exists message,
    field_parser field_name (Generic o (x :: y :: rest)) classes
    = (Raise (AssertionError message), classes).
Proof.
  intros Hx Hy. eexists.
  rewrite field_parser_eq. cbn [field_is_not_required get_origin].
  unfold parse_field.
  destruct (get_annotation_contents (Generic o (x :: y :: rest))) as [as_ref info].
  unfold bind. rewrite get_field_type_eq. cbn [get_args List.filter]. rewrite Hx, Hy.
  reflexivity.
Qed.

Lemma field_parser_bare_generic_types_dict :
  exists message,
    field_parser "data" (Dict str int) ∅ = (Raise (AssertionError message), ∅).
Proof.
  exact (field_parser_bare_generic_types "data" "typing.Dict" str int [] ∅ eq_refl eq_refl).
Defined.

(** ** A field with a reference tag *)



(** ** The dict of models *)



(** [DataFrameForFilled] comes back as
    [dict[str, list[Union[bool, str]]]]. *)
Lemma change_sub_typed_dicts_to_basemodels_DataFrameForFilled :
  change_sub_typed_dicts_to_basemodels DataFrameForFilled ∅
  = (Ok (Generic "dict" [str; Generic "list" [Generic "Union" [Cls "bool"; str]]]), ∅).
Proof. reflexivity. Qed.

(** X17: a [TypedDict] inside an annotation is converted once: when
    [change_sub_typed_dicts_to_basemodels] has returned a model for it,
    the dict of models holds that model under the name of the class, and
    a further call on a [TypedDict] of that name, whatever its fields,
    returns the same model and leaves the dict as it is. *)
Theorem change_sub_typed_dicts_to_basemodels_once name doc attributes annotations
    classes model classes' :
  change_sub_typed_dicts_to_basemodels (TypedDict name doc attributes annotations) classes
  = (Ok model, classes') ->
  classes' !! name = Some model
  /\ forall doc' attributes' annotations',
       change_sub_typed_dicts_to_basemodels
         (TypedDict name doc' attributes' annotations') classes'
       = (Ok model, classes').
Proof.
  intros H.
  assert (Hlook : classes' !! name = Some model).
  { rewrite change_sub_typed_dicts_to_basemodels_eq in H.
    destruct (classes !! name) as [ cached | ] eqn:Hc.
    - now injection H as <- <-.
    - unfold bind in H.
      destruct (format_all_annotations annotations classes) as [[new | e] c1];
        [ | discriminate ].
      injection H as <- <-. apply lookup_insert_eq. }
  split; [ exact Hlook | ].
  intros doc' attributes' annotations'.
  rewrite change_sub_typed_dicts_to_basemodels_eq. now rewrite Hlook.
Qed.

Lemma change_sub_typed_dicts_to_basemodels_once_R :
  change_sub_typed_dicts_to_basemodels
    (TypedDict "R" None dict_attributes [("y", Annotated str [FieldInfo Field])])
    (<["R" := basemodel_of "R" None dict_attributes
                [("x", Annotated int [FieldInfo Field])]]> ∅)
  = (Ok (basemodel_of "R" None dict_attributes [("x", Annotated int [FieldInfo Field])]),
     <["R" := basemodel_of "R" None dict_attributes
                [("x", Annotated int [FieldInfo Field])]]> ∅).
Proof.
  exact (proj2 (change_sub_typed_dicts_to_basemodels_once "R" None dict_attributes
                  [("x", Annotated int [FieldInfo Field])] ∅ _ _ eq_refl)
           None dict_attributes [("y", Annotated str [FieldInfo Field])]).
Defined.

(** *** Names are never taken out of the dict *)

Definition keeps_names {A} (m : M A) : Prop :=
  forall classes r classes', m classes = (r, classes') -> dom classes ⊆ dom classes'.

Lemma keeps_names_ret {A} (a : A) : keeps_names (ret a).
Proof. now intros c r c' [= _ <-]. Qed.

Lemma keeps_names_raise {A} e : keeps_names (@raise A e).
Proof. now intros c r c' [= _ <-]. Qed.

Lemma keeps_names_lift {A} (r : result A) : keeps_names (lift r).
Proof. now intros c r' c' [= _ <-]. Qed.

Lemma keeps_names_bind {A B} (m : M A) (f : A -> M B) :
  keeps_names m -> (forall a, keeps_names (f a)) -> keeps_names (bind m f).
Proof.
  intros Hm Hf c r c' H. unfold bind in H.
  destruct (m c) as [[a | e] c1] eqn:Hmc.
  - etransitivity; [ exact (Hm _ _ _ Hmc) | exact (Hf _ _ _ _ H) ].
  - injection H as _ <-. exact (Hm _ _ _ Hmc).
Qed.

Lemma keeps_names_for_each {A B} (f : A -> M B) (l : list A) :
  Forall (fun x => keeps_names (f x)) l -> keeps_names (for_each f l).
Proof.
  induction 1 as [ | x l Hx _ IH ]; simpl.
  - apply keeps_names_ret.
  - apply keeps_names_bind; [ exact Hx | ]. intros y.
    apply keeps_names_bind; [ exact IH | ]. intros ys. apply keeps_names_ret.
Qed.

Lemma keeps_names_parse_AsRef t info ref_name :
  keeps_names (parse_AsRef t info ref_name).
Proof.
  intros c r c' H. unfold parse_AsRef in H.
  destruct (c !! ref_name) as [ cached | ].
  - assert (Hsame : c' = c).
    { destruct (annotation_of cached "__root__") as [ g | e ]; [ | now injection H as _ <- ].
      destruct (get_args (Annotated_ t _)) as [ | x ? ]; [ now injection H as _ <- | ].
      destruct (get_args g) as [ | y ? ]; [ now injection H as _ <- | ].
      destruct (ann_eqb x y); now injection H as _ <-. }
    now rewrite Hsame.
  - injection H as _ <-. apply dom_insert_subseteq.
Qed.

Definition change_keeps_names (a : ann) : Prop :=
  keeps_names (change_sub_typed_dicts_to_basemodels a).

Definition get_field_type_keeps_names (a : ann) : Prop :=
  forall field_name, keeps_names (get_field_type field_name a).

Definition field_parser_keeps_names (a : ann) : Prop :=
  forall field_name, keeps_names (field_parser field_name a).

Lemma get_field_type_keeps_names_from_change a :
  change_keeps_names a -> Forall change_keeps_names (get_args a) ->
  get_field_type_keeps_names a.
Proof.
  intros Hself Hargs field_name. rewrite get_field_type_eq.
  destruct (get_args a) as [ | y args ]; [ exact Hself | ].
  destruct (List.filter is_field_type (y :: args)) as [ | x [ | x' l ] ] eqn:Hf;
    try apply keeps_names_raise.
  assert (Hx : In x (y :: args)).
  { eapply (proj1 (filter_In is_field_type x (y :: args))). rewrite Hf. now left. }
  rewrite Forall_forall in Hargs. apply Hargs. now apply list_elem_of_In.
Qed.

Lemma keeps_names_parse_field field_type is_not_required get_type :
  keeps_names get_type -> keeps_names (parse_field field_type is_not_required get_type).
Proof.
  intros Hget. unfold parse_field.
  destruct (get_annotation_contents field_type) as [as_ref info].
  apply keeps_names_bind; [ exact Hget | ]. intros t.
  apply keeps_names_bind; [ | intros p; apply keeps_names_ret ].
  destruct as_ref as [ ref_name | ]; [ | apply keeps_names_ret ].
  apply keeps_names_bind; [ apply keeps_names_parse_AsRef | ].
  intros model. apply keeps_names_ret.
Qed.

Lemma field_parser_keeps_names_from_get_field_type a :
  get_field_type_keeps_names a ->
  (forall arg, a = NotRequired arg -> get_field_type_keeps_names arg) ->
  field_parser_keeps_names a.
Proof.
  intros Hself Harg field_name. rewrite field_parser_eq.
  destruct a; try (apply keeps_names_parse_field, Hself).
  simpl. apply keeps_names_parse_field, (Harg a eq_refl).
Qed.

Lemma keeps_names_format_all_annotations (annotations : list (string * ann)) :
  Forall (fun f => field_parser_keeps_names (snd f)) annotations ->
  keeps_names (format_all_annotations annotations).
Proof.
  intros H. apply keeps_names_for_each. eapply Forall_impl; [ exact H | ].
  intros [n a] Hf. simpl in *.
  apply keeps_names_bind; [ apply Hf | ]. intros t. apply keeps_names_ret.
Qed.

Lemma change_keeps_names_args o (args : list ann) :
  Forall change_keeps_names args ->
  keeps_names (args' <- for_each change_sub_typed_dicts_to_basemodels args ;;
               lift (subscript o args')).
Proof.
  intros Hargs. apply keeps_names_bind; [ now apply keeps_names_for_each | ].
  intros args'. apply keeps_names_lift.
Qed.

Ltac keeps_names_parts Hc Hg :=
  split; [ exact Hc | split; [ exact Hg | ] ];
  apply field_parser_keeps_names_from_get_field_type; [ exact Hg | ].

Lemma visit_keeps_names a :
  change_keeps_names a /\ get_field_type_keeps_names a /\ field_parser_keeps_names a.
Proof.
  induction a as [ name | o args IH | arg IH | base metadata IHb IHm
                 | ref_name | info | name doc attributes annotations IH
                 | name doc fields IH | repr ] using ann_ind.
  - assert (Hc : change_keeps_names (Cls name)) by apply keeps_names_ret.
    assert (Hg : get_field_type_keeps_names (Cls name))
      by (apply get_field_type_keeps_names_from_change; [ exact Hc | constructor ]).
    keeps_names_parts Hc Hg; discriminate.
  - assert (Hargs : Forall change_keeps_names args)
      by (eapply Forall_impl; [ exact IH | now intros ? [? _] ]).
    assert (Hc : change_keeps_names (Generic o args)).
    { unfold change_keeps_names. rewrite change_sub_typed_dicts_to_basemodels_eq.
      destruct args as [ | x args ]; [ apply keeps_names_ret | ].
      cbn [get_origin get_args]. now apply change_keeps_names_args. }
    assert (Hg : get_field_type_keeps_names (Generic o args))
      by (apply get_field_type_keeps_names_from_change; [ exact Hc | exact Hargs ]).
    keeps_names_parts Hc Hg; discriminate.
  - destruct IH as (IHc & IHg & IHf).
    assert (Hc : change_keeps_names (NotRequired arg)).
    { unfold change_keeps_names. rewrite change_sub_typed_dicts_to_basemodels_eq.
      cbn [get_origin get_args]. apply change_keeps_names_args. now constructor. }
    assert (Hg : get_field_type_keeps_names (NotRequired arg))
      by (apply get_field_type_keeps_names_from_change; [ exact Hc | now constructor ]).
    keeps_names_parts Hc Hg. now intros ? [= <-].
  - destruct IHb as (IHc & IHg & IHf).
    assert (Hargs : Forall change_keeps_names (base :: metadata)).
    { constructor; [ exact IHc | ]. eapply Forall_impl; [ exact IHm | now intros ? [? _] ]. }
    assert (Hc : change_keeps_names (Annotated base metadata)).
    { unfold change_keeps_names. rewrite change_sub_typed_dicts_to_basemodels_eq.
      cbn [get_origin get_args]. now apply change_keeps_names_args. }
    assert (Hg : get_field_type_keeps_names (Annotated base metadata))
      by (apply get_field_type_keeps_names_from_change; [ exact Hc | exact Hargs ]).
    keeps_names_parts Hc Hg; discriminate.
  - assert (Hc : change_keeps_names (AsRef ref_name)) by apply keeps_names_ret.
    assert (Hg : get_field_type_keeps_names (AsRef ref_name))
      by (apply get_field_type_keeps_names_from_change; [ exact Hc | constructor ]).
    keeps_names_parts Hc Hg; discriminate.
  - assert (Hc : change_keeps_names (FieldInfo info)) by apply keeps_names_ret.
    assert (Hg : get_field_type_keeps_names (FieldInfo info))
      by (apply get_field_type_keeps_names_from_change; [ exact Hc | constructor ]).
    keeps_names_parts Hc Hg; discriminate.
  - assert (Hfs : Forall (fun f => field_parser_keeps_names (snd f)) annotations)
      by (eapply Forall_impl; [ exact IH | now intros ? (_ & _ & ?) ]).
    assert (Hc : change_keeps_names (TypedDict name doc attributes annotations)).
    { unfold change_keeps_names. rewrite change_sub_typed_dicts_to_basemodels_eq.
      intros c r c' H.
      destruct (c !! name) as [ model | ]; [ now injection H as _ <- | ].
      revert c r c' H.
      apply keeps_names_bind; [ now apply keeps_names_format_all_annotations | ].
      intros new c r c' [= _ <-]. apply dom_insert_subseteq. }
    assert (Hg : get_field_type_keeps_names (TypedDict name doc attributes annotations))
      by (apply get_field_type_keeps_names_from_change; [ exact Hc | constructor ]).
    keeps_names_parts Hc Hg; discriminate.
  - assert (Hc : change_keeps_names (BaseModel name doc fields)) by apply keeps_names_ret.
    assert (Hg : get_field_type_keeps_names (BaseModel name doc fields))
      by (apply get_field_type_keeps_names_from_change; [ exact Hc | constructor ]).
    keeps_names_parts Hc Hg; discriminate.
  - assert (Hc : change_keeps_names (PyObject repr)) by apply keeps_names_ret.
    assert (Hg : get_field_type_keeps_names (PyObject repr))
      by (apply get_field_type_keeps_names_from_change; [ exact Hc | constructor ]).
    keeps_names_parts Hc Hg; discriminate.
Qed.

Section Cache.

Variable schema : ann -> dict.

(** X18: whatever a call of [parse_typeddict_to_schema] returns or
    raises, every name that was a key of the dict of models before the
    call is a key of it after the call: models are added to the dict,
    and no name is ever taken out of it. *)
Theorem parse_typeddict_to_schema_keeps_names typed_dict out_dir return_basemodel
    classes sort :
  dom classes
  ⊆ dom (classes_after
           (parse_typeddict_to_schema schema typed_dict out_dir return_basemodel
              classes sort)).
Proof.
  rewrite parse_typeddict_to_schema_classes.
  destruct (format_all_annotations (td_annotations typed_dict) classes) as [r c'] eqn:H.
  simpl. revert H. apply keeps_names_format_all_annotations.
  apply Forall_forall. intros f _. apply visit_keeps_names.
Qed.

(** X19: [new_basemodel_classes] stays a [Dict[str, BaseModel]]: when
    every value of the dict is a model class before a call of
    [parse_typeddict_to_schema], every value is one after it, whether
    the call returns or raises. *)
Theorem parse_typeddict_to_schema_holds_models typed_dict out_dir return_basemodel
    classes sort :
  holds_models classes ->
  holds_models
    (classes_after
       (parse_typeddict_to_schema schema typed_dict out_dir return_basemodel
          classes sort)).
Proof.
  intros Hc. rewrite parse_typeddict_to_schema_classes.
  destruct (format_all_annotations (td_annotations typed_dict) classes) as [r c'] eqn:H.
  simpl. eapply format_all_annotations_ensures; [ | exact Hc | exact H ].
  apply Forall_forall. intros f _. apply visit_ensures.
Qed.

End Cache.

Lemma parse_typeddict_to_schema_holds_models_A :
  holds_models
    (classes_after (parse_typeddict_to_schema sample_schema document_A NoDir false ∅ true)).
Proof.
  exact (parse_typeddict_to_schema_holds_models sample_schema document_A NoDir false ∅ true
           holds_models_empty).
Defined.

(** ** [parse_typeddict_to_schema]: the output directory *)

(** A call with [out_dir], told from the same call without: the steps
    up to the sort do not read [out_dir]. *)
Definition with_out_dir (out_dir : out_dir_arg) (without : outcome) : outcome :=
  match returned without with
  | Ok (Schema model_schema) =>
      let fail e :=
        {| returned := Raise e; typed_dict_after := typed_dict_after without;
           classes_after := classes_after without; written := None |} in
      match out_dir with
      | NoDir | StrDir EmptyString => without
      | StrDir _ =>
          match dict_get "title" model_schema with
          | None => fail (KeyError "title")
          | Some _ => fail (TypeError "unsupported operand type(s) for /: 'str' and 'str'")
          end
      | PathDir dir =>
          match dict_get "title" model_schema with
          | Some t =>
              {| returned := Ok (Schema model_schema);
                 typed_dict_after := typed_dict_after without;
                 classes_after := classes_after without;
                 written := Some {| directory := dir; title := t;
                                    contents := model_schema |} |}
          | None => fail (KeyError "title")
          end
      | MissingDir dir =>
          match dict_get "title" model_schema with
          | Some _ => fail (FileNotFoundError dir)
          | None => fail (KeyError "title")
          end
      end
  | _ => without
  end.

Section OutDir.

Variable schema : ann -> dict.

Lemma render_with_out_dir typed_dict model out_dir sort classes :
  render schema typed_dict model out_dir sort classes
  = with_out_dir out_dir (render schema typed_dict model NoDir sort classes).
Proof.
  unfold render, with_out_dir.
  destruct (strip_newline_literal (schema model)) as [ stripped | e ]; [ | reflexivity ].
  destruct (if sort then _ else _) as [ s | e ]; [ | reflexivity ].
  destruct out_dir as [ | dir | [ | ch d ] | dir ]; cbn;
    try (destruct (dict_get "title" s)); reflexivity.
Qed.

Lemma parse_typeddict_to_schema_with_out_dir typed_dict out_dir classes sort :
  parse_typeddict_to_schema schema typed_dict out_dir false classes sort
  = with_out_dir out_dir
      (parse_typeddict_to_schema schema typed_dict NoDir false classes sort).
Proof.
  unfold parse_typeddict_to_schema.
  destruct (format_all_annotations (td_annotations typed_dict) classes) as [[new | e] c1];
    [ | reflexivity ].
  apply render_with_out_dir.
Qed.

Lemma parse_typeddict_to_schema_no_file typed_dict classes sort :
  written (parse_typeddict_to_schema schema typed_dict NoDir false classes sort) = None.
Proof.
  unfold parse_typeddict_to_schema.
  destruct (format_all_annotations (td_annotations typed_dict) classes) as [[new | e] c1];
    [ | reflexivity ].
  unfold render.
  destruct (strip_newline_literal _) as [ stripped | e ]; [ | reflexivity ].
  now destruct (if sort then _ else _) as [ s | e ].
Qed.

(** X20: the file a call of [parse_typeddict_to_schema] writes holds the
    schema the call returns, in the directory [out_dir], under the title
    of that schema; a call writes a file only when it is given a path
    and returns, and then it writes one.  An empty string as [out_dir]
    is as no [out_dir]. *)
Theorem parse_typeddict_to_schema_written typed_dict out_dir classes sort :
  let o := parse_typeddict_to_schema schema typed_dict out_dir false classes sort in
  (forall f, written o = Some f ->
     out_dir = PathDir (directory f)
     /\ returned o = Ok (Schema (contents f))
     /\ dict_get "title" (contents f) = Some (title f))
  /\ (forall dir g, out_dir = PathDir dir -> returned o = Ok g ->
        exists t model_schema,
          g = Schema model_schema
          /\ written o = Some {| directory := dir; title := t; contents := model_schema |})
  /\ parse_typeddict_to_schema schema typed_dict (StrDir "") false classes sort
     = parse_typeddict_to_schema schema typed_dict NoDir false classes sort.
Proof.
  cbv zeta.
  rewrite (parse_typeddict_to_schema_with_out_dir typed_dict out_dir),
    (parse_typeddict_to_schema_with_out_dir typed_dict (StrDir "")).
  pose proof (parse_typeddict_to_schema_no_file typed_dict classes sort) as Hno.
  set (without := parse_typeddict_to_schema schema typed_dict NoDir false classes sort) in *.
  unfold with_out_dir.
  split; [ | split ].
  - intros f.
    destruct (returned without) as [ [ m | s ] | e ];
      try (rewrite Hno; discriminate).
    destruct out_dir as [ | dir | [ | ch d ] | dir ]; try (rewrite Hno; discriminate);
      destruct (dict_get "title" s) as [ t | ] eqn:Ht; try discriminate.
    cbn. intros [= <-]. cbn. auto.
  - intros dir g ->.
    destruct (returned without) as [ [ m | s ] | e ] eqn:Hr.
    + unfold parse_typeddict_to_schema in without. subst without.
      destruct (format_all_annotations (td_annotations typed_dict) classes)
        as [[new | e] c1]; [ | discriminate ].
      unfold render in Hr.
      destruct (strip_newline_literal _) as [ stripped | e ]; [ | discriminate ].
      destruct (if sort then _ else _) as [ s | e ]; discriminate.
    + destruct (dict_get "title" s) as [ t | ]; cbn; [ | discriminate ].
      intros [= <-]. now exists t, s.
    + rewrite Hr. discriminate.
  - now destruct (returned without) as [ [ m | s ] | e ].
Qed.

(** X21: when the schema a call generates has no ["title"], the call
    returns it if it is given no [out_dir], and raises [KeyError] on
    ["title"], writing nothing, if it is given one. *)
Theorem parse_typeddict_to_schema_no_title typed_dict out_dir classes sort model_schema :
  returned (parse_typeddict_to_schema schema typed_dict NoDir false classes sort)
  = Ok (Schema model_schema) ->
  dict_get "title" model_schema = None ->
  out_dir <> NoDir -> out_dir <> StrDir "" ->
  let o := parse_typeddict_to_schema schema typed_dict out_dir false classes sort in
  returned o = Raise (KeyError "title") /\ written o = None.
Proof.
  intros Hr Ht Hn He. cbv zeta.
  rewrite (parse_typeddict_to_schema_with_out_dir typed_dict out_dir).
  unfold with_out_dir. rewrite Hr, Ht.
  destruct out_dir as [ | dir | [ | ch d ] | dir ]; try congruence; now split.
Qed.

(** X22: [out_dir] given as a string that is not empty, as the command
    line gives it, makes the call raise [TypeError] where it builds the
    path of the file, once the schema is generated: a [str] has no [/].
    Nothing is written. *)
Theorem parse_typeddict_to_schema_str_out_dir typed_dict s classes sort model_schema t :
  returned (parse_typeddict_to_schema schema typed_dict NoDir false classes sort)
  = Ok (Schema model_schema) ->
  dict_get "title" model_schema = Some t ->
  s <> "" ->
  let o := parse_typeddict_to_schema schema typed_dict (StrDir s) false classes sort in
  returned o = Raise (TypeError "unsupported operand type(s) for /: 'str' and 'str'")
  /\ written o = None.
Proof.
  intros Hr Ht Hs. cbv zeta.
  rewrite (parse_typeddict_to_schema_with_out_dir typed_dict (StrDir s)).
  unfold with_out_dir. rewrite Hr, Ht.
  destruct s as [ | ch d ]; [ congruence | now split ].
Qed.

End OutDir.

Lemma parse_typeddict_to_schema_no_title_Datum :
  returned (parse_typeddict_to_schema (fun _ => []) Datum SCHEMA_OUT_DIR false ∅ true)
  = Raise (KeyError "title").
Proof.
  assert (Hn : SCHEMA_OUT_DIR <> NoDir) by discriminate.
  assert (He : SCHEMA_OUT_DIR <> StrDir "") by discriminate.
  exact (proj1 (parse_typeddict_to_schema_no_title (fun _ => []) Datum SCHEMA_OUT_DIR
                  ∅ true [] eq_refl eq_refl Hn He)).
Defined.

Lemma parse_typeddict_to_schema_str_out_dir_Datum :
  returned (parse_typeddict_to_schema sample_schema Datum (StrDir "out") false ∅ true)
  = Raise (TypeError "unsupported operand type(s) for /: 'str' and 'str'").
Proof.
  assert (Hs : "out" <> "") by discriminate.
  exact (proj1 (parse_typeddict_to_schema_str_out_dir sample_schema Datum "out" ∅ true
                  _ (VStr "datum") eq_refl eq_refl Hs)).
Defined.

(** ** [parse_typeddict_to_schema] with [return_basemodel] *)

(** X23: with [return_basemodel] the call returns before the model is
    rendered: what it does is the same whatever the renderer, [out_dir]
    and [sort]; it writes no file, and the model it returns has the name
    and the docstring of the declaration and a field for each of its
    fields, in order. *)
Theorem parse_typeddict_to_schema_return_basemodel schema schema' typed_dict
    out_dir out_dir' classes sort sort' :
  let o := parse_typeddict_to_schema schema typed_dict out_dir true classes sort in
  o = parse_typeddict_to_schema schema' typed_dict out_dir' true classes sort'
  /\ written o = None
  /\ forall g, returned o = Ok g ->
       exists fields,
         g = Model (BaseModel (td_name typed_dict) (td_doc typed_dict) fields)
         /\ map fst fields = map fst (td_annotations typed_dict).
Proof.
  cbv zeta. unfold parse_typeddict_to_schema.
  destruct (format_all_annotations (td_annotations typed_dict) classes)
    as [[new | e] c1] eqn:Hf; cbn.
  - split; [ reflexivity | split; [ reflexivity | ] ].
    intros g [= <-]. eexists. split; [ reflexivity | ].
    rewrite map_map. cbn [fst].
    apply format_all_annotations_fields in Hf.
    clear -Hf. induction Hf as [ | x y l l' [Hxy _] _ IH ]; simpl; [ reflexivity | ].
    now rewrite Hxy, IH.
  - split; [ reflexivity | split; [ reflexivity | discriminate ] ].
Qed.

(** ** Declarations that need no model *)





(** ** [generate_all_schema] *)

Section Generate.

Variable schema : ann -> dict.

(** A call that is not asked for the model does not return one. *)
Lemma parse_typeddict_to_schema_not_model typed_dict out_dir classes sort model :
  returned (parse_typeddict_to_schema schema typed_dict out_dir false classes sort)
  <> Ok (Model model).
Proof.
  unfold parse_typeddict_to_schema.
  destruct (format_all_annotations (td_annotations typed_dict) classes)
    as [[new | e] c1]; [ | discriminate ].
  unfold render.
  destruct (strip_newline_literal _) as [ stripped | e ]; [ | discriminate ].
  destruct (if sort then _ else _) as [ s | e ]; [ | discriminate ].
  destruct out_dir as [ | dir | [ | ch d ] | dir ]; cbn;
    try (destruct (dict_get "title" s)); discriminate.
Qed.

(** The file of a call: one, in [out_dir], when the call is given a
    path and returns; none otherwise. *)
Lemma parse_typeddict_to_schema_file typed_dict out_dir classes sort :
  let o := parse_typeddict_to_schema schema typed_dict out_dir false classes sort in
  match written o with
  | Some f => out_dir = PathDir (directory f) /\ exists g, returned o = Ok g
  | None => forall g, returned o = Ok g -> forall dir, out_dir <> PathDir dir
  end.
Proof.
  cbv zeta.
  pose proof (parse_typeddict_to_schema_not_model typed_dict NoDir classes sort) as Hm.
  rewrite (parse_typeddict_to_schema_with_out_dir schema typed_dict out_dir).
  pose proof (parse_typeddict_to_schema_no_file schema typed_dict classes sort) as Hno.
  set (without := parse_typeddict_to_schema schema typed_dict NoDir false classes sort) in *.
  unfold with_out_dir.
  destruct (returned without) as [ [ m | s ] | e ] eqn:Hr.
  - now destruct (Hm m).
  - destruct out_dir as [ | dir | [ | ch d ] | dir ];
      try (rewrite Hno; intros; discriminate);
      destruct (dict_get "title" s) as [ t | ]; cbn; try discriminate; eauto.
  - rewrite Hno, Hr. discriminate.
Qed.

Lemma parse_typeddict_to_schema_name typed_dict out_dir return_basemodel classes sort :
  td_name
    (typed_dict_after
       (parse_typeddict_to_schema schema typed_dict out_dir return_basemodel classes sort))
  = td_name typed_dict.
Proof.
  unfold parse_typeddict_to_schema.
  destruct (format_all_annotations (td_annotations typed_dict) classes)
    as [[new | e] c1]; [ | reflexivity ].
  destruct return_basemodel; [ reflexivity | ].
  destruct (render_typed_dict_after schema (with_annotations typed_dict new)
              (with_name
                 (basemodel_of (td_name (with_annotations typed_dict new))
                    (td_doc (with_annotations typed_dict new))
                    (td_attributes (with_annotations typed_dict new))
                    (td_annotations (with_annotations typed_dict new)))
                 (lower (alias_generator (td_name (with_annotations typed_dict new)))))
              out_dir sort c1) as [extra ->].
  reflexivity.
Qed.

(** The loop: the files it adds are in [out_dir], at most one for each
    document; when it ends without an exception every document has been
    processed. *)
Lemma generate_each_files todo out_dir classes done fs r p' :
  generate_each schema todo out_dir classes done fs = (r, p') ->
  exists new,
    files p' = fs ++ new
    /\ Forall (fun f => out_dir = PathDir (directory f)) new
    /\ (r = Ok tt ->
        map td_name (documents p') = map td_name (done ++ todo)
        /\ forall dir, out_dir = PathDir dir -> List.length new = List.length todo).
Proof.
  revert classes done fs.
  induction todo as [ | td todo IH ]; intros classes done fs H; cbn [generate_each] in H.
  - injection H as <- <-. exists []. cbn. rewrite !app_nil_r. repeat split; auto.
  - pose proof (parse_typeddict_to_schema_file td out_dir classes true) as Hfile.
    pose proof (parse_typeddict_to_schema_name td out_dir false classes true) as Hname.
    cbv zeta in Hfile.
    set (o := parse_typeddict_to_schema schema td out_dir false classes true) in *.
    destruct (returned o) as [ g | e ] eqn:Hr.
    + apply IH in H as (new & Hfiles & Hdir & Hok).
      destruct (written o) as [ f | ] eqn:Hw.
      * exists (f :: new). rewrite Hfiles, <- app_assoc. split; [ reflexivity | ].
        split; [ constructor; [ exact (proj1 Hfile) | exact Hdir ] | ].
        intros Hrok. destruct (Hok Hrok) as [Hnames Hlen]. split.
        -- rewrite Hnames, !map_app. cbn [map]. rewrite Hname, <- app_assoc. reflexivity.
        -- intros dir Hd. cbn [List.length]. now rewrite (Hlen dir Hd).
      * exists new. split; [ exact Hfiles | ]. split; [ exact Hdir | ].
        intros Hrok. destruct (Hok Hrok) as [Hnames Hlen]. split.
        -- rewrite Hnames, !map_app. cbn [map]. rewrite Hname, <- app_assoc. reflexivity.
        -- intros dir Hd. now destruct (Hfile g eq_refl dir).
    + injection H as <- <-. cbn [files].
      destruct (written o) as [ f | ] eqn:Hw.
      * destruct Hfile as [_ [g Hg]]. discriminate.
      * exists []. rewrite app_nil_r. repeat split; [ constructor | discriminate | discriminate ].
Qed.

(** X25: when [generate_all_schema] returns, the documents are the same
    classes, in order, and with a path as [schema_out_dir] it has written
    one file for each of them, all in that directory, after the files
    that were there; whether it returns or raises, every file it writes
    is in [schema_out_dir], and with no directory it writes none. *)
Theorem generate_all_schema_files schema_out_dir (p : process) :
  let r := generate_all_schema schema schema_out_dir p in
  exists new,
    files (snd r) = files p ++ new
    /\ Forall (fun f => schema_out_dir = PathDir (directory f)) new
    /\ (fst r = Ok tt ->
        map td_name (documents (snd r)) = map td_name (documents p)
        /\ forall dir, schema_out_dir = PathDir dir ->
                       List.length new = List.length (documents p)).
Proof.
  cbv zeta. unfold generate_all_schema.
  destruct (generate_each schema (documents p) schema_out_dir (default_classes p) []
              (files p)) as [r p'] eqn:H.
  apply generate_each_files in H as (new & Hfiles & Hdir & Hok).
  exists new. cbn [fst snd]. auto.
Qed.

(** The loop, when a call raises: the documents before the one that
    fails have been processed and their calls have returned; the failing
    call is made with the dict they have left, and writes nothing; the
    documents after it are as they were. *)
Lemma generate_each_stops todo out_dir classes done fs e p' :
  generate_each schema todo out_dir classes done fs = (Raise e, p') ->
  exists before typed_dict rest mid,
    todo = before ++ typed_dict :: rest
    /\ generate_each schema before out_dir classes done fs = (Ok tt, mid)
    /\ let o := parse_typeddict_to_schema schema typed_dict out_dir false
                  (default_classes mid) true in
       returned o = Raise e
       /\ written o = None
       /\ p' = {| default_classes := classes_after o;
                  documents := documents mid ++ typed_dict_after o :: rest;
                  files := files mid |}.
Proof.
  revert classes done fs.
  induction todo as [ | td todo IH ]; intros classes done fs H; cbn [generate_each] in H.
  - discriminate.
  - pose proof (parse_typeddict_to_schema_file td out_dir classes true) as Hfile.
    cbv zeta in Hfile.
    destruct (returned (parse_typeddict_to_schema schema td out_dir false classes true))
      as [ g | e' ] eqn:Hr.
    + apply IH in H as (before & t & rest & mid & -> & Hbefore & Hstop).
      exists (td :: before), t, rest, mid.
      split; [ reflexivity | ]. split; [ | exact Hstop ].
      cbn [generate_each]. now rewrite Hr.
    + injection H as <- <-.
      exists [], td, todo,
        {| default_classes := classes; documents := done; files := fs |}.
      split; [ reflexivity | ]. split; [ reflexivity | ].
      cbv zeta. cbn [default_classes documents files].
      destruct (written (parse_typeddict_to_schema schema td out_dir false classes true))
        as [ f | ] eqn:Hw.
      * destruct Hfile as [_ [g Hg]]. congruence.
      * repeat split. exact Hr.
Qed.

(** X26: [generate_all_schema] stops at the first document whose
    generation raises, with that exception: the calls for the documents
    before it have all returned, as [generate_all_schema] on those
    documents alone returns, and the failing call is made with the dict
    of models they have left; it writes no file, and the process is left
    with the dict as the failing call left it, the documents before as
    processed, the failing one as its call left it, those after it as
    they were, and the files of the documents before. *)
Theorem generate_all_schema_stops schema_out_dir (p : process) e :
  fst (generate_all_schema schema schema_out_dir p) = Raise e ->
  exists before typed_dict rest mid,
    documents p = before ++ typed_dict :: rest
    /\ generate_all_schema schema schema_out_dir
         {| default_classes := default_classes p; documents := before;
            files := files p |}
       = (Ok tt, mid)
    /\ let o := parse_typeddict_to_schema schema typed_dict schema_out_dir false
                  (default_classes mid) true in
       returned o = Raise e
       /\ written o = None
       /\ snd (generate_all_schema schema schema_out_dir p)
          = {| default_classes := classes_after o;
               documents := documents mid ++ typed_dict_after o :: rest;
               files := files mid |}.
Proof.
  unfold generate_all_schema.
  destruct (generate_each schema (documents p) schema_out_dir (default_classes p) []
              (files p)) as [r p'] eqn:H.
  cbn [fst snd]. intros ->.
  apply generate_each_stops in H as (before & t & rest & mid & Hdocs & Hbefore & Hstop).
  exists before, t, rest, mid. auto.
Qed.

(** ** The command line and the output directory *)

(** What [parse_args] returns is the default, [None], or a string of
    the command line: never a path of its own. *)
Lemma parse_arguments_out_dir n : forall argv schema_out_directory extras out_dir,
  List.length argv <= n ->
  parse_arguments argv schema_out_directory extras = Ok out_dir ->
  out_dir = schema_out_directory \/ out_dir = NoDir \/ exists s, out_dir = StrDir s.
Proof.
  induction n as [ | n IH ]; intros argv init extras out_dir Hlen H.
  - destruct argv; [ | cbn in Hlen; lia ].
    cbn in H. destruct extras; [ discriminate | ]. injection H as <-. now left.
  - destruct argv as [ | arg rest ].
    + cbn in H. destruct extras; [ discriminate | ]. injection H as <-. now left.
    + cbn [parse_arguments] in H. cbn [List.length] in Hlen.
      destruct (String.eqb arg "--"); [ discriminate | ].
      destruct (classify arg) as [ | [ v | ] | [ v | ] | ].
        -- apply IH in H; [ exact H | lia ].
        -- discriminate.
        -- discriminate.
        -- apply IH in H; [ | lia ].
           destruct H as [ -> | H ]; [ right; right; now exists v | now right ].
        -- destruct rest as [ | v rest' ].
           ++ apply IH in H; [ | cbn; lia ].
              destruct H as [ -> | H ]; [ right; now left | now right ].
           ++ destruct (is_plain v).
              ** apply IH in H; [ | cbn in *; lia ].
                 destruct H as [ -> | H ]; [ right; right; now exists v | now right ].
              ** apply IH in H; [ | cbn in *; lia ].
                 destruct H as [ -> | H ]; [ right; now left | now right ].
        -- apply IH in H; [ exact H | lia ].
Qed.

(** X27: the program writes files in the default directory only:
    whatever the command line, every file there is after [main] was
    there before or is in [SCHEMA_OUT_DIR].  A directory given on the
    command line reaches [parse_typeddict_to_schema] as a [str], and no
    file is written in it. *)
Theorem main_writes_in_default_directory argv (p : process) :
  Forall (fun f => In f (files p) \/ PathDir (directory f) = SCHEMA_OUT_DIR)
         (files (snd (main schema argv p))).
Proof.
  assert (Hold : Forall (fun f => In f (files p) \/ PathDir (directory f) = SCHEMA_OUT_DIR)
                        (files p))
    by (apply Forall_forall; intros f Hf; left; now apply list_elem_of_In).
  unfold main. destruct (parse_args argv) as [ out_dir | e ] eqn:Hargs; [ | exact Hold ].
  unfold generate_all_schema.
  destruct (generate_each schema (documents p) out_dir (default_classes p) [] (files p))
    as [r p'] eqn:H.
  apply generate_each_files in H as (new & Hfiles & Hdir & _).
  cbn [snd]. rewrite Hfiles. apply Forall_app. split; [ exact Hold | ].
  eapply Forall_impl; [ exact Hdir | ]. intros f Hf. right.
  apply (parse_arguments_out_dir _ _ _ _ _ (le_n _)) in Hargs.
  destruct Hargs as [ -> | [ -> | [s ->] ] ]; [ now rewrite Hf | discriminate | discriminate ].
Qed.

(** X28: with a directory given on the command line (a string that is
    not empty) and a document to process, [main] raises at the first
    document and writes no file. *)
Theorem main_out_directory_given argv (p : process) s :
  parse_args argv = Ok (StrDir s) -> s <> "" -> documents p <> [] ->
  (exists e, fst (main schema argv p) = Raise e)
  /\ files (snd (main schema argv p)) = files p.
Proof.
  intros Hargs Hs Hdocs. unfold main. rewrite Hargs. unfold generate_all_schema.
  destruct (documents p) as [ | td rest ]; [ congruence | ].
  cbn [generate_each].
  rewrite (parse_typeddict_to_schema_with_out_dir schema td (StrDir s)).
  pose proof (parse_typeddict_to_schema_not_model td NoDir (default_classes p) true) as Hm.
  pose proof (parse_typeddict_to_schema_no_file schema td (default_classes p) true) as Hno.
  set (without := parse_typeddict_to_schema schema td NoDir false (default_classes p) true)
    in *.
  unfold with_out_dir.
  destruct (returned without) as [ [ m | d ] | e ] eqn:Hr.
  - now destruct (Hm m).
  - destruct s as [ | ch s ]; [ congruence | ].
    destruct (dict_get "title" d); cbn; (split; [ eauto | reflexivity ]).
  - rewrite Hr, Hno. cbn. split; [ eauto | reflexivity ].
Qed.

End Generate.

(** The theorem at the batch over [document_A] and [document_B], with
    the sample renderer: the call for [document_A] returns and leaves
    the wrapper [R] in the dict; the call for [document_B], made with
    that dict, raises the conflict. *)
Lemma generate_all_schema_stops_conflict :
  exists before typed_dict rest mid,
    [document_A; document_B] = before ++ typed_dict :: rest
    /\ generate_all_schema sample_schema NoDir
         {| default_classes := ∅; documents := before; files := [] |}
       = (Ok tt, mid)
    /\ let o := parse_typeddict_to_schema sample_schema typed_dict NoDir false
                  (default_classes mid) true in
       returned o
       = Raise (AssertionError "Fields with type AsRef(R) have differing types")
       /\ written o = None
       /\ snd (generate_all_schema sample_schema NoDir
                 {| default_classes := ∅; documents := [document_A; document_B];
                    files := [] |})
          = {| default_classes := classes_after o;
               documents := documents mid ++ typed_dict_after o :: rest;
               files := files mid |}.
Proof.
  apply (generate_all_schema_stops sample_schema NoDir
           {| default_classes := ∅; documents := [document_A; document_B]; files := [] |}
           (AssertionError "Fields with type AsRef(R) have differing types")).
  vm_compute. reflexivity.
Defined.

Lemma main_out_directory_given_out :
  (exists e, fst (main sample_schema ["--schema_out_directory"; "out"] two_documents)
             = Raise e)
  /\ files (snd (main sample_schema ["--schema_out_directory"; "out"] two_documents)) = [].
Proof.
  assert (Hs : "out" <> "") by discriminate.
  assert (Hd : documents two_documents <> []) by discriminate.
  exact (main_out_directory_given sample_schema ["--schema_out_directory"; "out"]
           two_documents "out" eq_refl Hs Hd).
Defined.
